(** * Che plugin service: registry client, key normalizer, cache builder,
      query service and devfile reconciler.

    Shallow embedding of
    [extensions/eclipse-che-theia-plugin-ext/src/node/che-plugin-service.ts]
    (class [ChePluginServiceImpl]).

    Conventions.
    - A JavaScript string is a finite sequence of code units; every string
      primitive the service uses ([startsWith], [endsWith], [substring],
      [lastIndexOf], [length], concatenation, [===]) is generic in the code
      unit, so strings are Rocq [string]s.
    - A JavaScript index that can be [-1] is a [Z]; lengths are [nat].
    - A value that can be [undefined] is an [option]; a string is truthy when
      it is present and not empty.
    - A rejected promise or a thrown exception is [Rejected e], where [e] is
      an error object reduced to its [message], or a string. *)

From Stdlib Require Import String Ascii List ZArith Lia Bool Arith.
From Stdlib Require Import Permutation Sorted.
Import ListNotations.
Open Scope string_scope.

(* ================================================================= *)
(** ** JavaScript string primitives *)

Module Js.

Definition startsWith (s p : string) : bool := String.prefix p s.

Definition endsWith (s suf : string) : bool :=
  (String.length suf <=? String.length s)%nat
  && String.eqb
       (String.substring (String.length s - String.length suf)
                         (String.length suf) s)
       suf.

(** [s.substring(a, b)] for integer arguments that are not negative: both
    are clamped to the length, and swapped when [a > b]. *)
Definition substring (s : string) (a b : nat) : string :=
  let a' := Nat.min a (String.length s) in
  let b' := Nat.min b (String.length s) in
  String.substring (Nat.min a' b') (Nat.max a' b' - Nat.min a' b') s.

(** Position of the last occurrence of [pat] in [s], counted from [i]. *)
Fixpoint lastIndexOf_from (s pat : string) (i : nat) : option nat :=
  match s with
  | EmptyString => if String.prefix pat s then Some i else None
  | String _ s' =>
      match lastIndexOf_from s' pat (S i) with
      | Some j => Some j
      | None => if String.prefix pat s then Some i else None
      end
  end.

Definition lastIndexOf (s pat : string) : Z :=
  match lastIndexOf_from s pat 0 with
  | Some j => Z.of_nat j
  | None => (-1)%Z
  end.

(** Truthiness of a possibly [undefined] string. *)
Definition truthy (o : option string) : bool :=
  match o with
  | Some s => negb (String.eqb s "")
  | None => false
  end.

(** [xs.indexOf(x)] on an array of strings; [x] may be [undefined], which
    is strictly equal to no string. *)
Fixpoint indexOf_from (xs : list string) (x : string) (i : nat) : option nat :=
  match xs with
  | [] => None
  | y :: ys => if String.eqb y x then Some i else indexOf_from ys x (S i)
  end.

Definition indexOf (xs : list string) (x : option string) : Z :=
  match x with
  | None => (-1)%Z
  | Some k =>
      match indexOf_from xs k 0 with
      | Some j => Z.of_nat j
      | None => (-1)%Z
      end
  end.

(** [xs.splice(start, 1)]: a negative [start] counts from the end (and is
    clamped to 0), a [start] beyond the end removes nothing. *)
Fixpoint remove_nth {A} (n : nat) (xs : list A) : list A :=
  match xs, n with
  | [], _ => []
  | _ :: ys, O => ys
  | y :: ys, S m => y :: remove_nth m ys
  end.

Definition splice1 {A} (xs : list A) (start : Z) : list A :=
  let len := Z.of_nat (List.length xs) in
  let from := if (start <? 0)%Z then Z.max (len + start) 0 else Z.min start len in
  remove_nth (Z.to_nat from) xs.

End Js.

(* ================================================================= *)
(** ** Data model *)

(** [DevfileComponent.plugin]: a reference to a plugin by [url] or by [id]. *)
Record DevfileComponentPlugin := mkPlugin {
  plugin_url : option string;
  plugin_id : option string
}.

(** A devfile component. Everything but [plugin] is opaque to the service and
    kept as [other], the remaining fields by name. *)
Record DevfileComponent := mkComponent {
  plugin : option DevfileComponentPlugin;
  other : list (string * string)
}.

Record Devfile := mkDevfile {
  components : option (list DevfileComponent);
  metadata : string
}.

(* ================================================================= *)
(** ** Key normalizer: plugin references *)

Definition meta_yaml : string := "/meta.yaml".

Definition isAbsoluteUrl (id : string) : bool :=
  Js.startsWith id "http://" || Js.startsWith id "https://".

(** Removes /meta.yaml from the end of the plugin ID (reference). *)
Definition normalizeId (id : string) : string :=
  if isAbsoluteUrl id && Js.endsWith id meta_yaml
  then Js.substring id 0 (String.length id - String.length meta_yaml)
  else id.

(** Creates a plugin component for the given plugin ID (reference). *)
Definition createPluginComponent (id : string) : DevfileComponent :=
  if isAbsoluteUrl id
  then mkComponent (Some (mkPlugin (Some (id ++ meta_yaml)) None)) []
  else mkComponent (Some (mkPlugin None (Some id))) [].

(* ================================================================= *)
(** ** Devfile reconciler *)

Definition hasPlugin (c : DevfileComponent) : bool :=
  match plugin c with Some _ => true | None => false end.

Definition devfileComponentsOf (devfile : Devfile) : list DevfileComponent :=
  match components devfile with Some cs => cs | None => [] end.

(** Body of the [forEach] of [getWorkspacePlugins]. *)
Definition pushPlugin (plugins : list string) (component : DevfileComponent)
  : list string :=
  match plugin component with
  | Some p =>
      if Js.truthy (plugin_url p) then
        match plugin_url p with
        | Some u => (plugins ++ [normalizeId u])%list
        | None => plugins
        end
      else if Js.truthy (plugin_id p) then
        match plugin_id p with
        | Some i => (plugins ++ [i])%list
        | None => plugins
        end
      else plugins
  | None => plugins
  end.

(** Returns list of plugins described in workspace configuration, and the
    devfile with its [components] field materialised. *)
Definition getWorkspacePlugins (devfile : Devfile) : list string * Devfile :=
  let devfileComponents := devfileComponentsOf devfile in
  (fold_left pushPlugin devfileComponents [],
   mkDevfile (Some devfileComponents) (metadata devfile)).

(** An element of the [devfileComponents] array: a component object with its
    identity. [Array.prototype.indexOf] compares objects by identity, and the
    component objects of a document are pairwise distinct, so an object is
    identified by the position it has when [setWorkspacePlugins] starts. *)
Definition ComponentRef : Type := nat * DevfileComponent.

Fixpoint tagFrom (i : nat) (cs : list DevfileComponent) : list ComponentRef :=
  match cs with
  | [] => []
  | c :: cs' => (i, c) :: tagFrom (S i) cs'
  end.

Fixpoint indexOfRef_from (xs : list ComponentRef) (r : nat) (i : nat)
  : option nat :=
  match xs with
  | [] => None
  | y :: ys => if Nat.eqb (fst y) r then Some i else indexOfRef_from ys r (S i)
  end.

(** [devfileComponents.indexOf(component)]. *)
Definition indexOfRef (xs : list ComponentRef) (c : ComponentRef) : Z :=
  match indexOfRef_from xs (fst c) 0 with
  | Some j => Z.of_nat j
  | None => (-1)%Z
  end.

(** [component.plugin!.url ? normalizeId(component.plugin!.url)
                           : component.plugin?.id!] *)
Definition referenceId (p : DevfileComponentPlugin) : option string :=
  if Js.truthy (plugin_url p) then option_map normalizeId (plugin_url p)
  else plugin_id p.

(** Body of the first [forEach] of [setWorkspacePlugins]; the state is the
    pair of the two arrays it mutates. *)
Definition reconcileStep (st : list ComponentRef * list string)
  (component : ComponentRef) : list ComponentRef * list string :=
  let (devfileComponents, plugins) := st in
  match plugin (snd component) with
  | Some p =>
      let foundIndex := Js.indexOf plugins (referenceId p) in
      if (0 <=? foundIndex)%Z
      then (devfileComponents, Js.splice1 plugins foundIndex)
      else (Js.splice1 devfileComponents
              (indexOfRef devfileComponents component), plugins)
  | None => st (* not reached: [components] holds plugin components only *)
  end.

(** Sets new list of plugins to workspace configuration. Returns the devfile
    handed to [updateDevfile] and the final content of the caller's
    [plugins] array, which the method mutates. *)
Definition setWorkspacePlugins (devfile : Devfile) (plugins : list string)
  : Devfile * list string :=
  let devfileComponents := tagFrom 0 (devfileComponentsOf devfile) in
  let components := filter (fun c => hasPlugin (snd c)) devfileComponents in
  let (devfileComponents', plugins') :=
    fold_left reconcileStep components (devfileComponents, plugins) in
  (mkDevfile
     (Some (map snd devfileComponents' ++ map createPluginComponent plugins')%list)
     (metadata devfile),
   plugins').

(** Reference algorithm of the reconciler, section 4.5 of the design: walk the
    components once; a plugin component whose reference id is still wanted
    is kept and consumes one wanted key, any other plugin component is
    dropped, every other component is kept. *)
Fixpoint removeFirst (k : string) (xs : list string) : list string :=
  match xs with
  | [] => []
  | x :: xs' => if String.eqb x k then xs' else x :: removeFirst k xs'
  end.

Definition wanted (plugins : list string) (id : option string) : bool :=
  match id with
  | Some k => existsb (fun x => String.eqb x k) plugins
  | None => false
  end.

Definition consume (plugins : list string) (id : option string) : list string :=
  match id with
  | Some k => removeFirst k plugins
  | None => plugins
  end.

Fixpoint reconcile {A} (view : A -> DevfileComponent) (cs : list A)
  (plugins : list string) : list A * list string :=
  match cs with
  | [] => ([], plugins)
  | c :: cs' =>
      match plugin (view c) with
      | None =>
          let (kept, rest) := reconcile view cs' plugins in (c :: kept, rest)
      | Some p =>
          if wanted plugins (referenceId p)
          then let (kept, rest) :=
                 reconcile view cs' (consume plugins (referenceId p)) in
               (c :: kept, rest)
          else reconcile view cs' plugins
      end
  end.

(** The keys [getWorkspacePlugins] reads from one component. *)
Definition listedKeys (component : DevfileComponent) : list string :=
  pushPlugin [] component.

(** The reference ids of the plugin components of a sequence, in order. *)
Definition referenceIds (cs : list DevfileComponent) : list string :=
  flat_map (fun c => match plugin c with
                     | Some p => match referenceId p with
                                 | Some k => [k]
                                 | None => []
                                 end
                     | None => []
                     end) cs.

(** A plugin reference has exactly one of [url] and [id] populated. *)
Definition exactlyOnePopulated (p : DevfileComponentPlugin) : bool :=
  xorb (Js.truthy (plugin_url p)) (Js.truthy (plugin_id p)).

Definition wellFormedDevfile (devfile : Devfile) : Prop :=
  forall c p, In c (devfileComponentsOf devfile) -> plugin c = Some p ->
              exactlyOnePopulated p = true.

(** [xs] is [ys] with some elements left out, order kept. *)
Inductive Subsequence {A} : list A -> list A -> Prop :=
| sub_nil : Subsequence [] []
| sub_keep x xs ys : Subsequence xs ys -> Subsequence (x :: xs) (x :: ys)
| sub_drop y xs ys : Subsequence xs ys -> Subsequence xs (y :: ys).

(* ================================================================= *)
(** ** Plugin references, in the words of the design

    What the design (4.2 and 4.5) calls the normalized reference id of a
    plugin component, and the component it has appended for a key. They are
    stated on the text of the strings and share nothing with the methods
    above, which are compared with them below. *)

(** [s] is an absolute URL: it starts with [http://] or with [https://]. *)
Definition AbsoluteUrl (s : string) : Prop :=
  exists rest, s = "http://" ++ rest \/ s = "https://" ++ rest.

(** [k] is [u] normalized: without its trailing [/meta.yaml] when [u] is an
    absolute URL that ends so, and [u] itself otherwise. *)
Inductive Normalized (u : string) : string -> Prop :=
| normalized_stripped base :
    AbsoluteUrl u -> u = base ++ "/meta.yaml" -> Normalized u base
| normalized_unchanged :
    ~ (AbsoluteUrl u /\ exists base, u = base ++ "/meta.yaml") ->
    Normalized u u.

(** The normalized reference id of a plugin reference: its [url],
    normalized, when a [url] that is not empty is set, and its [id]
    otherwise, which may be missing. *)
Inductive NormalizedReference : DevfileComponentPlugin -> option string -> Prop :=
| reference_by_url u id k :
    u <> "" -> Normalized u k ->
    NormalizedReference (mkPlugin (Some u) id) (Some k)
| reference_by_id id :
    NormalizedReference (mkPlugin None id) id
| reference_by_id_empty_url id :
    NormalizedReference (mkPlugin (Some "") id) id.

(** The normalized reference ids of the plugin components of a sequence, in
    the order of the sequence. *)
Inductive NormalizedIds : list DevfileComponent -> list string -> Prop :=
| ids_nil : NormalizedIds [] []
| ids_other c cs ids :
    plugin c = None -> NormalizedIds cs ids -> NormalizedIds (c :: cs) ids
| ids_plugin c p k cs ids :
    plugin c = Some p -> NormalizedReference p (Some k) ->
    NormalizedIds cs ids -> NormalizedIds (c :: cs) (k :: ids)
| ids_unnamed c p cs ids :
    plugin c = Some p -> NormalizedReference p None ->
    NormalizedIds cs ids -> NormalizedIds (c :: cs) ids.

(** The component appended for the key [k]: a reference by [url], the key
    followed by [/meta.yaml], for an absolute URL, and a reference by [id]
    for any other key. *)
Inductive ComponentFor (k : string) : DevfileComponent -> Prop :=
| component_by_url :
    AbsoluteUrl k ->
    ComponentFor k
      (mkComponent (Some (mkPlugin (Some (k ++ "/meta.yaml")) None)) [])
| component_by_id :
    ~ AbsoluteUrl k ->
    ComponentFor k (mkComponent (Some (mkPlugin None (Some k))) []).

(* ================================================================= *)
(** ** Registries, plugin summaries and plugin metadata *)

Record ChePluginRegistry := mkRegistry {
  registry_name : string;
  uri : string;
  publicUri : string
}.

(** [ChePluginMetadataInternal]: a plugin as listed by a registry index. *)
Record ChePluginMetadataInternal := mkSummary {
  summary_id : string;
  summary_displayName : string;
  summary_version : string;
  summary_type : string;
  summary_name : string;
  summary_description : string;
  summary_publisher : string;
  summary_links : option (string -> option string) (* [links], by link name *)
}.

Record ChePluginMetadata := mkMetadata {
  publisher : string;
  name : string;
  version : string;
  type : string;
  displayName : string;
  title : string;
  description : string;
  icon : string;
  url : string;
  repository : string;
  firstPublicationDate : string;
  category : string;
  latestUpdateDate : string;
  key : string;
  builtIn : bool
}.

(** The value [yaml.safeLoad] returns for a plugin document, as
    [loadPluginMetadata] reads it. The service declares it a
    [ChePluginMetadata]; a document may lack [icon], on which a method is
    called, and an empty document is [undefined], the [None] of
    [option PluginYaml]. The other fields are only copied or concatenated,
    and are the strings the document holds. *)
Record PluginYaml := mkYaml {
  yaml_publisher : string;
  yaml_name : string;
  yaml_version : string;
  yaml_type : string;
  yaml_displayName : string;
  yaml_title : string;
  yaml_description : string;
  yaml_icon : option string;
  yaml_url : string;
  yaml_repository : string;
  yaml_firstPublicationDate : string;
  yaml_category : string;
  yaml_latestUpdateDate : string
}.

(* ================================================================= *)
(** ** Failures and external collaborators *)

(** What a [catch] receives: an [Error] object, of which only [message] is
    read, or a string (this service itself rejects with strings). *)
Inductive JsError :=
| ErrorObject (message : string)
| ThrownString (value : string).

(** [error.message] inside a string concatenation: a string has no
    [message], and [undefined] is rendered as the word. *)
Definition messageOf (error : JsError) : string :=
  match error with
  | ErrorObject message => message
  | ThrownString _ => "undefined"
  end.

Inductive Result (A : Type) :=
| Resolved (value : A)
| Rejected (error : JsError).
Arguments Resolved {A} value.
Arguments Rejected {A} error.

(** [HttpService.get]: the answer to a request may depend on every request
    made before it; content may be [undefined]. *)
Class HttpService := {
  http_get : list string -> string -> Result (option string)
}.

(** [WorkspaceService.getWorkspaceSettings]: settings by key, or nothing. *)
Class WorkspaceService := {
  getWorkspaceSettings : Result (option (string -> option string))
}.

(** What [JSON.parse] makes of a registry index. *)
Inductive IndexValue :=
| NotAnArray
| IndexArray (items : list ChePluginMetadataInternal).

(** [yaml.safeLoad], [JSON.parse], the [URI] class of Theia (scheme and
    authority of a parsed URI), and the message of the [TypeError] raised by
    reading a property of [undefined], whichever the property. *)
Class Parsers := {
  safeLoad : option string -> Result (option PluginYaml);
  JSON_parse : string -> Result IndexValue;
  parseURI : string -> Result (string * string);
  typeErrorMessage : string
}.

(** [PluginFilter.filterPlugins]. *)
Class PluginFilter := {
  filterPlugins : list ChePluginMetadata -> string -> list ChePluginMetadata
}.

(** Notifications sent to the [ChePluginServiceClient]. *)
Inductive Notification :=
| PluginCacheSizeChanged (plugins : nat)
| PluginCached (plugins : nat)
| InvalidRegistryFound (registry : ChePluginRegistry)
| InvalidPluginFound (pluginUrl : string)
| CachingComplete.

Definition isCachingComplete (n : Notification) : bool :=
  match n with CachingComplete => true | _ => false end.

(* ================================================================= *)
(** ** Registry client: pure part *)

Definition PLUGIN_REGISTRY_URL : string := "cheWorkspacePluginRegistryUrl".
Definition PLUGIN_REGISTRY_INTERNAL_URL : string :=
  "cheWorkspacePluginRegistryInternalUrl".

Definition normalizeEnding (uri : string) : string :=
  if Js.endsWith uri "/" then Js.substring uri 0 (String.length uri - 1)
  else uri.

Definition getBaseDirectory (registry : ChePluginRegistry) : string :=
  let uri := uri registry in
  if Js.endsWith uri ".json"
  then Js.substring uri 0 (Z.to_nat (Js.lastIndexOf uri "/" + 1))
  else if negb (Js.endsWith uri "/") then uri ++ "/" else uri.

(** [plugin.links && plugin.links.self], when truthy. *)
Definition selfLink (plugin : ChePluginMetadataInternal) : option string :=
  match summary_links plugin with
  | Some links => if Js.truthy (links "self") then links "self" else None
  | None => None
  end.

(** Creates an URI to plugin metadata yaml file. [defaultRegistry] is the
    field [this.defaultRegistry]. *)
Definition getPluginYamlURI `{Parsers}
  (defaultRegistry : option ChePluginRegistry)
  (registry : ChePluginRegistry) (plugin : ChePluginMetadataInternal)
  : Result string :=
  match selfLink plugin with
  | Some self =>
      if Js.startsWith self "/" then
        match defaultRegistry with
        | None => Rejected (ErrorObject typeErrorMessage)
        | Some dflt =>
            if String.eqb (uri registry) (uri dflt)
            then Resolved (uri registry ++ "/plugins/" ++ summary_id plugin ++ "/")
            else
              match parseURI (uri registry) with
              | Resolved (scheme, authority) =>
                  Resolved (scheme ++ "://" ++ authority ++ self)
              | Rejected error => Rejected error
              end
        end
      else Resolved (getBaseDirectory registry ++ self)
  | None =>
      Resolved (getBaseDirectory registry ++ "/" ++ summary_id plugin ++ "/meta.yaml")
  end.

(* ================================================================= *)
(** ** Key normalizer: cache keys *)

Definition shortKey (props : PluginYaml) : string :=
  yaml_publisher props ++ "/" ++ yaml_name props ++ "/" ++ yaml_version props.

(** The [key] computed by [loadPluginMetadata]. *)
Definition pluginKey (props : PluginYaml) (yamlURI : string)
  (longKeyFormat : bool) : string :=
  let key := shortKey props in
  if longKeyFormat then
    if Js.endsWith yamlURI key then
      let uri := Js.substring yamlURI 0
                   (String.length yamlURI - String.length key) in
      uri ++ yaml_publisher props ++ "/" ++ yaml_name props ++ "/"
          ++ yaml_version props
    else if Js.endsWith yamlURI (key ++ "/meta.yaml") then
      let uri := Js.substring yamlURI 0
                   (String.length yamlURI
                    - String.length (key ++ "/meta.yaml")) in
      uri ++ yaml_publisher props ++ "/" ++ yaml_name props ++ "/"
          ++ yaml_version props
    else key
  else key.

(** The [icon] computed by [loadPluginMetadata] from [props.icon], a
    string. *)
Definition pluginIcon (icon : string) (pluginRegistryURI : string) : string :=
  if Js.startsWith icon "http://" || Js.startsWith icon "https://"
  then icon
  else if Js.startsWith icon "/"
       then pluginRegistryURI ++ icon
       else pluginRegistryURI ++ "/" ++ icon.

(* ================================================================= *)
(** ** Plugin query service *)

(** Removes plugins with type 'Che Editor'. *)
Definition squeezeOutEditors (plugins : list ChePluginMetadata)
  (filter : string) : list ChePluginMetadata :=
  List.filter (fun plugin => negb (String.eqb "Che Editor" (type plugin))) plugins.

(** Returns a list of available plugins on the plugin registry;
    [cachedPlugins] is the field [this.cachedPlugins]. *)
Definition getPlugins `{PluginFilter} (cachedPlugins : list ChePluginMetadata)
  (filter : string) : list ChePluginMetadata :=
  let pluginList := cachedPlugins in
  let pluginList :=
    if Js.truthy (Some filter) then filterPlugins pluginList filter
    else pluginList in
  squeezeOutEditors pluginList filter.

(* ================================================================= *)
(** ** Service state and the monad of its asynchronous methods *)

(** The fields of [ChePluginServiceImpl] that the methods read and write, the
    local counter of [updateCache], and the two observable logs: the URIs
    requested from the [HttpService] and the notifications received by the
    client. The client is assumed to stay attached and to acknowledge every
    notification while a method runs. *)
Record State := mkState {
  client : bool;
  defaultRegistry : option ChePluginRegistry;
  cachedPlugins : list ChePluginMetadata;
  availablePlugins : nat;
  requests : list string;
  notifications : list Notification
}.

Definition M (A : Type) : Type := State -> Result A * State.

Definition ret {A} (a : A) : M A := fun st => (Resolved a, st).

Definition throw {A} (error : JsError) : M A := fun st => (Rejected error, st).

Definition bind {A B} (m : M A) (k : A -> M B) : M B :=
  fun st =>
    match m st with
    | (Resolved a, st') => k a st'
    | (Rejected error, st') => (Rejected error, st')
    end.

Definition try_catch {A} (m : M A) (handler : JsError -> M A) : M A :=
  fun st =>
    match m st with
    | (Resolved a, st') => (Resolved a, st')
    | (Rejected error, st') => handler error st'
    end.

Definition liftResult {A} (r : Result A) : M A := fun st => (r, st).

Definition gets {A} (f : State -> A) : M A := fun st => (Resolved (f st), st).

Definition modify (f : State -> State) : M unit := fun st => (Resolved tt, f st).

Declare Scope js_scope.
Delimit Scope js_scope with js.
Notation "x <- m ;; k" := (bind m (fun x => k))
  (at level 61, m at next level, right associativity) : js_scope.
Notation "m ;; k" := (bind m (fun _ => k))
  (at level 61, right associativity) : js_scope.
Open Scope js_scope.

Definition set_defaultRegistry (r : ChePluginRegistry) (st : State) : State :=
  mkState (client st) (Some r) (cachedPlugins st) (availablePlugins st)
          (requests st) (notifications st).

Definition set_cachedPlugins (ps : list ChePluginMetadata) (st : State) : State :=
  mkState (client st) (defaultRegistry st) ps (availablePlugins st)
          (requests st) (notifications st).

Definition set_availablePlugins (n : nat) (st : State) : State :=
  mkState (client st) (defaultRegistry st) (cachedPlugins st) n
          (requests st) (notifications st).

Definition log_request (u : string) (st : State) : State :=
  mkState (client st) (defaultRegistry st) (cachedPlugins st)
          (availablePlugins st) (requests st ++ [u]) (notifications st).

Definition log_notification (n : Notification) (st : State) : State :=
  mkState (client st) (defaultRegistry st) (cachedPlugins st)
          (availablePlugins st) (requests st) (notifications st ++ [n]).

(** [await this.client.<notification>(...)]. *)
Definition notify (n : Notification) : M unit := modify (log_notification n).

(** [await this.httpService.get(uri)]. *)
Definition httpGet `{HttpService} (u : string) : M (option string) :=
  fun st => (http_get (requests st) u, log_request u st).

(** Whether [key] names an own property of the object [registries]. *)
Definition ownKey (registries : list (string * ChePluginRegistry))
  (key : string) : bool :=
  existsb (fun property => String.eqb (fst property) key) registries.

(** The message of the [TypeError] raised by calling a registry. *)
Definition hasOwnProperty_message : string :=
  "registries.hasOwnProperty is not a function".

(* ================================================================= *)
(** ** Registry client: requests *)

Section Service.
Context `{HttpService} `{WorkspaceService} `{Parsers}.

Definition getDefaultRegistry : M ChePluginRegistry :=
  known <- gets defaultRegistry ;;
  match known with
  | Some registry => ret registry
  | None =>
      match getWorkspaceSettings with
      | Resolved (Some workspaceSettings) =>
          let publicUri := workspaceSettings PLUGIN_REGISTRY_URL in
          let uri :=
            if Js.truthy (workspaceSettings PLUGIN_REGISTRY_INTERNAL_URL)
            then workspaceSettings PLUGIN_REGISTRY_INTERNAL_URL
            else publicUri in
          match uri, publicUri with
          | Some uri, Some publicUri =>
              let registry :=
                mkRegistry "Eclipse Che plugins" (normalizeEnding uri)
                           (normalizeEnding publicUri) in
              modify (set_defaultRegistry registry) ;;
              ret registry
          | _, _ =>
              throw (ThrownString
                       ("Unable to get default plugin registry URI. "
                        ++ typeErrorMessage))
          end
      | Resolved None => throw (ThrownString "Plugin registry URI is not set.")
      | Rejected error =>
          throw (ThrownString
                   ("Unable to get default plugin registry URI. "
                    ++ messageOf error))
      end
  end.

(** Loads list of plugins from plugin registry. *)
Definition loadPluginList (registry : ChePluginRegistry) : M IndexValue :=
  let registryURI := uri registry ++ "/plugins/" in
  content <- httpGet registryURI ;;
  let registryContent :=
    if Js.truthy content
    then match content with Some c => c | None => "{}" end
    else "{}" in
  liftResult (JSON_parse registryContent).

(** The retry address of [loadPluginYaml]. *)
Definition metaYamlOf (yamlURI : string) : string :=
  (if negb (Js.endsWith yamlURI "/") then yamlURI ++ "/" else yamlURI)
  ++ "meta.yaml".

Definition fetchYaml (yamlURI : string) : M (option PluginYaml) :=
  pluginYamlContent <- httpGet yamlURI ;;
  liftResult (safeLoad pluginYamlContent).

Definition loadPluginYaml (yamlURI : string) : M (option PluginYaml) :=
  try_catch (fetchYaml yamlURI)
    (fun err =>
       try_catch (fetchYaml (metaYamlOf yamlURI))
         (fun error =>
            throw (ThrownString
                     ("Unable to load plugin metadata. " ++ messageOf err)))).

Definition loadPluginMetadata (yamlURI : string) (longKeyFormat : bool)
  (pluginRegistryURI : string) : M ChePluginMetadata :=
  try_catch
    (loaded <- loadPluginYaml yamlURI ;;
     match loaded with
     | None =>
         (* [props.publisher] of [undefined] *)
         throw (ErrorObject typeErrorMessage)
     | Some props =>
         let key := pluginKey props yamlURI longKeyFormat in
         match yaml_icon props with
         | None =>
             (* [props.icon.startsWith] of [undefined] *)
             throw (ErrorObject typeErrorMessage)
         | Some propsIcon =>
             let icon := pluginIcon propsIcon pluginRegistryURI in
             ret (mkMetadata (yaml_publisher props) (yaml_name props)
                    (yaml_version props) (yaml_type props)
                    (yaml_displayName props) (yaml_title props)
                    (yaml_description props) icon (yaml_url props)
                    (yaml_repository props) (yaml_firstPublicationDate props)
                    (yaml_category props) (yaml_latestUpdateDate props)
                    key false)
         end
     end)
    (fun error =>
       throw (ThrownString
                ("Unable to load plugin metadata. " ++ messageOf error))).

(* --------------------------------------------------------------- *)
(** ** Cache builder *)

(** One turn of the loop over [registryPlugins]. *)
Definition cachePlugin (registry : ChePluginRegistry) (longKeyFormat : bool)
  (metadataInternal : ChePluginMetadataInternal) : M unit :=
  known <- gets defaultRegistry ;;
  pluginYamlURI <- liftResult (getPluginYamlURI known registry metadataInternal) ;;
  try_catch
    (pluginMetadata <-
       loadPluginMetadata pluginYamlURI longKeyFormat (publicUri registry) ;;
     modify (fun st =>
               set_cachedPlugins (cachedPlugins st ++ [pluginMetadata]) st) ;;
     size <- gets (fun st => List.length (cachedPlugins st)) ;;
     notify (PluginCached size))
    (fun error => notify (InvalidPluginFound pluginYamlURI)).

Fixpoint cachePlugins (registry : ChePluginRegistry) (longKeyFormat : bool)
  (registryPlugins : list ChePluginMetadataInternal) : M unit :=
  match registryPlugins with
  | [] => ret tt
  | metadataInternal :: rest =>
      cachePlugin registry longKeyFormat metadataInternal ;;
      cachePlugins registry longKeyFormat rest
  end.

(** One turn of the loop over [registries]. *)
Definition cacheRegistry (registry : ChePluginRegistry) : M unit :=
  try_catch
    (registryPlugins <- loadPluginList registry ;;
     match registryPlugins with
     | NotAnArray => notify (InvalidRegistryFound registry)
     | IndexArray registryPlugins =>
         modify (fun st =>
                   set_availablePlugins
                     (availablePlugins st + List.length registryPlugins) st) ;;
         total <- gets availablePlugins ;;
         notify (PluginCacheSizeChanged total) ;;
         known <- gets defaultRegistry ;;
         match known with
         | None => throw (ErrorObject typeErrorMessage)
         | Some dflt =>
             let longKeyFormat := negb (String.eqb (uri registry) (uri dflt)) in
             cachePlugins registry longKeyFormat registryPlugins
         end
     end)
    (fun error => notify (InvalidRegistryFound registry)).

(** [registries.hasOwnProperty(registryName)]. The method is looked up on
    the object itself first: when one of its own properties is named
    [hasOwnProperty], that property, a registry, is what gets called, and
    the call throws. *)
Definition hasOwnProperty (registries : list (string * ChePluginRegistry))
  (registryName : string) : M bool :=
  if ownKey registries "hasOwnProperty"
  then throw (ErrorObject hasOwnProperty_message)
  else ret (ownKey registries registryName).

(** The loop [for (const registryName in registries)]. [registries] lists
    the own enumerable properties of the object in enumeration order, their
    names pairwise distinct; [remaining] is what is left to enumerate. *)
Fixpoint cacheRegistries (registries remaining : list (string * ChePluginRegistry))
  : M unit :=
  match remaining with
  | [] => ret tt
  | (registryName, registry) :: rest =>
      own <- hasOwnProperty registries registryName ;;
      (if negb own then ret tt else cacheRegistry registry) ;;
      cacheRegistries registries rest
  end.

(** Updates the plugin cache. *)
Definition updateCache (registries : list (string * ChePluginRegistry))
  : M unit :=
  attached <- gets client ;;
  if negb attached then ret tt
  else
    modify (set_cachedPlugins []) ;;
    known <- gets defaultRegistry ;;
    match known with
    | None => getDefaultRegistry ;; ret tt
    | Some _ => ret tt
    end ;;
    modify (set_availablePlugins 0) ;;
    notify (PluginCacheSizeChanged 0) ;;
    cacheRegistries registries registries ;;
    notify CachingComplete.

End Service.

(* ================================================================= *)
(** ** What a method run can be observed to do *)

(** The outcome of requesting [u] after the requests [earlier] and parsing
    the content received as YAML. *)
Definition parsedAt `{HttpService} `{Parsers} (earlier : list string)
  (u : string) : Result (option PluginYaml) :=
  match http_get earlier u with
  | Resolved content => safeLoad content
  | Rejected error => Rejected error
  end.

(** From [st] to [st'] the logs only grew: by the notifications [events],
    none of them [CachingComplete], and by the requests [asked]. *)
Definition Grew (st st' : State) (events : list Notification)
  (asked : list string) : Prop :=
  notifications st' = (notifications st ++ events)%list
  /\ Forall (fun n => isCachingComplete n = false) events
  /\ requests st' = (requests st ++ asked)%list.

(** However [m] ends, it only adds to the logs, and never [CachingComplete]. *)
Definition Steady {A} (m : M A) : Prop :=
  forall st r st', m st = (r, st') -> exists events asked, Grew st st' events asked.

(** However [m] ends, the first request it makes is [u]. *)
Definition RequestsFirst {A} (u : string) (m : M A) : Prop :=
  forall st r st', m st = (r, st') ->
    exists events asked, Grew st st' events (u :: asked).

(** [m] never rejects. *)
Definition Resolves {A} (m : M A) : Prop :=
  forall st, exists a st', m st = (Resolved a, st').

(** The default registry is known, or the workspace settings can be read and
    hold the public registry address. *)
Definition defaultRegistryAvailable `{WorkspaceService} (st : State) : Prop :=
  defaultRegistry st <> None
  \/ exists workspaceSettings publicUri,
       getWorkspaceSettings = Resolved (Some workspaceSettings)
       /\ workspaceSettings PLUGIN_REGISTRY_URL = Some publicUri.

(* ================================================================= *)
(** ** A sample deployment

    Two registries; [regA] is the default one. Only the index of [regA] and
    the documents of three plugins can be fetched: [pub/pl/1.0], from both
    registries, and from [regB] also [pub/bare/1.0], whose document has no
    [icon], and [pub/none/1.0], whose document is empty. *)

Module Sample.

Definition regA : ChePluginRegistry :=
  mkRegistry "A" "http://reg/a" "http://pub/a".

Definition regB : ChePluginRegistry :=
  mkRegistry "B" "http://reg/b" "http://pub/b".

(** An entry of the cache. *)
Definition doc : ChePluginMetadata :=
  mkMetadata "pub" "pl" "1.0" "VS Code extension" "Plugin" "Plugin"
    "A plugin" "/images/pl.svg" "" "https://src/pl" "2019-01-01" "Other"
    "2020-01-01" "" false.

(** The document of the plugin, and one without [icon], as parsed. *)
Definition document : PluginYaml :=
  mkYaml "pub" "pl" "1.0" "VS Code extension" "Plugin" "Plugin" "A plugin"
    (Some "/images/pl.svg") "" "https://src/pl" "2019-01-01" "Other"
    "2020-01-01".

Definition bare : PluginYaml :=
  mkYaml "pub" "bare" "1.0" "VS Code extension" "Bare" "Bare" "No icon"
    None "" "https://src/bare" "2019-01-01" "Other" "2020-01-01".

Definition summary : ChePluginMetadataInternal :=
  mkSummary "pub/pl/1.0" "Plugin" "1.0" "VS Code extension" "pl" "A plugin"
    "pub"
    (Some (fun link => if String.eqb link "self"
                       then Some "/v3/plugins/pub/pl/1.0" else None)).

Definition http : HttpService :=
  {| http_get := fun earlier u =>
       if String.eqb u "http://reg/a/plugins/" then Resolved (Some "index")
       else if String.eqb u "http://reg/a/plugins/pub/pl/1.0/"
       then Resolved (Some "doc")
       else if String.eqb u "http://reg/b/v3/plugins/pub/pl/1.0/meta.yaml"
       then Resolved (Some "doc")
       else if String.eqb u "http://reg/b/v3/plugins/pub/bare/1.0/meta.yaml"
       then Resolved (Some "bare")
       else if String.eqb u "http://reg/b/v3/plugins/pub/none/1.0/meta.yaml"
       then Resolved (Some "")
       else Rejected (ErrorObject "Network Error") |}.

Definition parsers : Parsers :=
  {| safeLoad := fun content =>
       match content with
       | Some c => if String.eqb c "doc" then Resolved (Some document)
                   else if String.eqb c "bare" then Resolved (Some bare)
                   else if String.eqb c "" then Resolved None
                   else Rejected (ErrorObject "bad indentation")
       | None => Rejected (ErrorObject "no content")
       end;
     JSON_parse := fun text =>
       if String.eqb text "index" then Resolved (IndexArray [summary])
       else if String.eqb text "{}" then Resolved NotAnArray
       else Rejected (ErrorObject "Unexpected token");
     parseURI := fun u => Resolved ("http", "reg");
     typeErrorMessage := "Cannot read properties of undefined" |}.

Definition settings : WorkspaceService :=
  {| getWorkspaceSettings :=
       Resolved (Some (fun k =>
         if String.eqb k PLUGIN_REGISTRY_URL then Some "http://pub/a/"
         else if String.eqb k PLUGIN_REGISTRY_INTERNAL_URL
         then Some "http://reg/a/"
         else None)) |}.

Definition noSettings : WorkspaceService :=
  {| getWorkspaceSettings := Rejected (ErrorObject "Workspace is stopped") |}.

Definition noFilter : PluginFilter :=
  {| filterPlugins := fun plugins expression => plugins |}.

(** A fresh service with a client attached. *)
Definition attached : State := mkState true None [] 0 [] [].

Definition registries : list (string * ChePluginRegistry) :=
  [("B", regB); ("A", regA)].

Definition tooling : DevfileComponent :=
  mkComponent None [("container", "tools")].

Definition devfile : Devfile :=
  mkDevfile
    (Some [ mkComponent (Some (mkPlugin None (Some "pub/old/0.1"))) [];
            tooling;
            mkComponent (Some (mkPlugin (Some "https://x/y/meta.yaml") None)) [] ])
    "workspace".

End Sample.

(* ================================================================= *)
(** ** Devfile service and the operations on one plugin

    [DevfileService.get] and [DevfileService.updateDevfile] are answered by
    the workspace; what they answer may depend on the calls made before. A
    document is a value: each [get] yields one. *)

Inductive DevfileCall :=
| DevfileGet
| DevfileUpdate (devfile : Devfile).

Class DevfileService := {
  devfile_get : list DevfileCall -> Result Devfile;
  devfile_update : list DevfileCall -> Devfile -> Result unit
}.

(** An asynchronous method that talks to the [DevfileService] only; the
    state is the log of the calls made. *)
Definition Calls (A : Type) : Type :=
  list DevfileCall -> Result A * list DevfileCall.

Definition Calls_bind {A B} (m : Calls A) (k : A -> Calls B) : Calls B :=
  fun calls =>
    match m calls with
    | (Resolved a, calls') => k a calls'
    | (Rejected error, calls') => (Rejected error, calls')
    end.

Definition Calls_catch {A} (m : Calls A) (handler : JsError -> Calls A)
  : Calls A :=
  fun calls =>
    match m calls with
    | (Resolved a, calls') => (Resolved a, calls')
    | (Rejected error, calls') => handler error calls'
    end.

Definition Calls_reject {A} (error : JsError) : Calls A :=
  fun calls => (Rejected error, calls).

(** [await this.devfileService.get()]. *)
Definition devfileGet `{DevfileService} : Calls Devfile :=
  fun calls => (devfile_get calls, (calls ++ [DevfileGet])%list).

(** [await this.devfileService.updateDevfile(devfile)]. *)
Definition devfileUpdate `{DevfileService} (devfile : Devfile) : Calls unit :=
  fun calls =>
    (devfile_update calls devfile, (calls ++ [DevfileUpdate devfile])%list).

Section PluginOperations.
Context `{DevfileService}.

(** The method [getWorkspacePlugins], with its call to the service. *)
Definition getWorkspacePlugins_async : Calls (list string) :=
  Calls_bind devfileGet
    (fun devfile calls => (Resolved (fst (getWorkspacePlugins devfile)), calls)).

(** The method [setWorkspacePlugins], with its calls to the service; it
    resolves with the final content of the array it was given. *)
Definition setWorkspacePlugins_async (plugins : list string)
  : Calls (list string) :=
  Calls_bind devfileGet
    (fun devfile =>
       let updated := setWorkspacePlugins devfile plugins in
       Calls_bind (devfileUpdate (fst updated))
         (fun _ calls => (Resolved (snd updated), calls))).

(** Adds a plugin to workspace configuration. *)
Definition addPlugin (plugin : string) : Calls unit :=
  Calls_catch
    (Calls_bind getWorkspacePlugins_async
       (fun plugins =>
          Calls_bind (setWorkspacePlugins_async (plugins ++ [plugin])%list)
            (fun _ calls => (Resolved tt, calls))))
    (fun error =>
       Calls_reject
         (ThrownString ("Unable to install plugin " ++ plugin ++ " "
                        ++ messageOf error))).

(** Removes a plugin from workspace configuration. *)
Definition removePlugin (plugin : string) : Calls unit :=
  Calls_catch
    (Calls_bind getWorkspacePlugins_async
       (fun plugins =>
          let filteredPlugins :=
            filter (fun p => negb (String.eqb p plugin)) plugins in
          Calls_bind (setWorkspacePlugins_async filteredPlugins)
            (fun _ calls => (Resolved tt, calls))))
    (fun error =>
       Calls_reject
         (ThrownString ("Unable to remove plugin " ++ plugin ++ " "
                        ++ messageOf error))).

Definition updatePlugin (oldPluginKey newPluginKey : string) : Calls unit :=
  Calls_catch
    (Calls_bind getWorkspacePlugins_async
       (fun plugins =>
          let filteredPlugins :=
            filter (fun p => negb (String.eqb p oldPluginKey)) plugins in
          Calls_bind
            (setWorkspacePlugins_async (filteredPlugins ++ [newPluginKey])%list)
            (fun _ calls => (Resolved tt, calls))))
    (fun error =>
       Calls_reject
         (ThrownString ("Unable to update plugin from " ++ oldPluginKey
                        ++ " to " ++ newPluginKey ++ ": "
                        ++ messageOf error))).

End PluginOperations.

(** The components [setWorkspacePlugins] keeps when the wanted keys are the
    listed keys that satisfy [keep]: every component that is not a plugin
    reference, and the references whose id satisfies [keep]. *)
Definition keepsComponent (keep : string -> bool) (c : DevfileComponent)
  : bool :=
  match plugin c with
  | None => true
  | Some p => match referenceId p with
              | Some k => keep k
              | None => false
              end
  end.

(** The service asked to update the devfile. *)
Definition isUpdate (call : DevfileCall) : bool :=
  match call with DevfileUpdate _ => true | DevfileGet => false end.

(** A workspace that answers every [get] with [devfile] and accepts every
    update, and one whose service is down. *)
Module Workspace.

Definition serving (devfile : Devfile) : DevfileService :=
  {| devfile_get := fun calls => Resolved devfile;
     devfile_update := fun calls updated => Resolved tt |}.

Definition down : DevfileService :=
  {| devfile_get := fun calls => Rejected (ErrorObject "Workspace is stopped");
     devfile_update := fun calls updated =>
                         Rejected (ErrorObject "Workspace is stopped") |}.

Definition devfile : Devfile :=
  mkDevfile
    (Some [ mkComponent (Some (mkPlugin None (Some "pub/old/0.1"))) [];
            mkComponent None [("container", "tools")];
            mkComponent (Some (mkPlugin (Some "https://x/y/meta.yaml") None)) [] ])
    "workspace".

End Workspace.

(* ================================================================= *)
(** ** Client registration and the progress of a cache build *)

Definition setClient (st : State) : State :=
  mkState true (defaultRegistry st) (cachedPlugins st) (availablePlugins st)
          (requests st) (notifications st).

Definition disconnectClient (st : State) : State :=
  mkState false (defaultRegistry st) (cachedPlugins st) (availablePlugins st)
          (requests st) (notifications st).

(** The cache sizes told by [notifyPluginCached], in order. *)
Definition cachedSizes (events : list Notification) : list nat :=
  flat_map (fun n => match n with PluginCached size => [size] | _ => [] end)
           events.

(** The totals told by [notifyPluginCacheSizeChanged], in order. *)
Definition announcedTotals (events : list Notification) : list nat :=
  flat_map (fun n => match n with
                     | PluginCacheSizeChanged total => [total]
                     | _ => []
                     end)
           events.

(** From [st] to [st'] a cache build went on: the client and the default
    registry are the same; plugins [added] were appended to the cache, none
    of them built in, each followed by the cache size it made; the totals
    told never decrease and the last one is the counter of available
    plugins; and the cache grew by no more than that counter did, [credit]
    apart. *)
Definition Progress (credit : Z) (st st' : State) : Prop :=
  client st' = client st
  /\ defaultRegistry st' = defaultRegistry st
  /\ exists added events,
       cachedPlugins st' = (cachedPlugins st ++ added)%list
       /\ Forall (fun p => builtIn p = false) added
       /\ notifications st' = (notifications st ++ events)%list
       /\ cachedSizes events
          = seq (S (List.length (cachedPlugins st))) (List.length added)
       /\ (Z.of_nat (List.length added)
           <= Z.of_nat (availablePlugins st') - Z.of_nat (availablePlugins st)
              + credit)%Z
       /\ Forall (fun t => availablePlugins st <= t <= availablePlugins st')
                 (announcedTotals events)
       /\ StronglySorted le (announcedTotals events)
       /\ availablePlugins st'
          = last (announcedTotals events) (availablePlugins st).

(** However [m] ends, it made that progress. *)
Definition Progresses {A} (credit : Z) (m : M A) : Prop :=
  forall st r st', m st = (r, st') -> Progress credit st st'.

(** Workspace settings that hold the internal registry address only, and a
    registry index that cannot be used. *)
Module Deployment.

Definition internalOnly : WorkspaceService :=
  {| getWorkspaceSettings :=
       Resolved (Some (fun k =>
         if String.eqb k PLUGIN_REGISTRY_INTERNAL_URL
         then Some "http://reg/a/" else None)) |}.

Definition summaryB : ChePluginMetadataInternal :=
  mkSummary "pub/pl/1.0" "Plugin" "1.0" "VS Code extension" "pl" "A plugin"
    "pub"
    (Some (fun link => if String.eqb link "self"
                       then Some "v3/plugins/pub/pl/1.0/meta.yaml" else None)).

Definition broken : ChePluginMetadataInternal :=
  mkSummary "pub/gone/1.0" "Gone" "1.0" "VS Code extension" "gone" "Gone"
    "pub" None.

(** A service that knows [Sample.regA] as the default registry. *)
Definition resolved : State :=
  mkState true (Some Sample.regA) [] 0 [] [].

End Deployment.

(* ================================================================= *)
(** * Properties *)

(** ** Strings *)

Module JsFacts.

Lemma length_app (a b : string) :
  String.length (a ++ b) = String.length a + String.length b.
Proof. induction a as [|c a IH]; simpl; [reflexivity | now rewrite IH]. Qed.

Lemma app_assoc (a b c : string) : (a ++ b) ++ c = a ++ (b ++ c).
Proof. induction a as [|x a IH]; simpl; [reflexivity | now rewrite IH]. Qed.

Lemma substring_all (s : string) : String.substring 0 (String.length s) s = s.
Proof. induction s as [|c s IH]; simpl; [reflexivity | now rewrite IH]. Qed.

Lemma substring_skip (a b : string) (n : nat) :
  String.substring (String.length a) n (a ++ b) = String.substring 0 n b.
Proof. induction a as [|c a IH]; simpl; [reflexivity | exact IH]. Qed.

Lemma substring_take (a b : string) :
  String.substring 0 (String.length a) (a ++ b) = a.
Proof.
  induction a as [|c a IH]; simpl.
  - now destruct b.
  - now rewrite IH.
Qed.

Lemma substring_split (s : string) (n : nat) :
  n <= String.length s ->
  s = String.substring 0 n s ++ String.substring n (String.length s - n) s.
Proof.
  revert n; induction s as [|c s IH]; intros n Hn; simpl in *.
  - now destruct n.
  - destruct n as [|n]; simpl.
    + now rewrite substring_all.
    + f_equal. apply IH. lia.
Qed.

Lemma prefix_app (p s t : string) :
  String.prefix p s = true -> String.prefix p (s ++ t) = true.
Proof.
  revert s; induction p as [|c p IH]; intros s Hp.
  - now destruct (s ++ t).
  - destruct s as [|d s]; simpl in *; [discriminate|].
    destruct (Ascii.ascii_dec c d); [now apply IH | discriminate].
Qed.

Lemma startsWith_app (s t p : string) :
  Js.startsWith s p = true -> Js.startsWith (s ++ t) p = true.
Proof. apply prefix_app. Qed.

Lemma endsWith_app (a b : string) : Js.endsWith (a ++ b) b = true.
Proof.
  unfold Js.endsWith. rewrite length_app.
  replace (String.length a + String.length b - String.length b)
    with (String.length a) by lia.
  rewrite substring_skip, substring_all, String.eqb_refl.
  rewrite andb_true_r. apply Nat.leb_le. lia.
Qed.

(** [endsWith] is exactly "has this suffix". *)
Lemma endsWith_true (s suf : string) :
  Js.endsWith s suf = true ->
  s = String.substring 0 (String.length s - String.length suf) s ++ suf.
Proof.
  unfold Js.endsWith. intros Hs.
  apply andb_true_iff in Hs. destruct Hs as [Hlen Heq].
  apply Nat.leb_le in Hlen. apply String.eqb_eq in Heq.
  rewrite (substring_split s (String.length s - String.length suf)) at 1
    by lia.
  f_equal.
  replace (String.length s - (String.length s - String.length suf))
    with (String.length suf) by lia.
  exact Heq.
Qed.

Lemma endsWith_iff (s suf : string) :
  Js.endsWith s suf = true <-> exists pre, s = pre ++ suf.
Proof.
  split.
  - intros Hs. eexists. now apply endsWith_true.
  - intros [pre ->]. apply endsWith_app.
Qed.

(** Cutting a known suffix off with [substring(0, length - |suffix|)]. *)
Lemma substring_cut (pre suf : string) :
  Js.substring (pre ++ suf) 0
    (String.length (pre ++ suf) - String.length suf) = pre.
Proof.
  unfold Js.substring. rewrite length_app.
  replace (String.length pre + String.length suf - String.length suf)
    with (String.length pre) by lia.
  rewrite Nat.min_0_l, Nat.min_0_l, Nat.max_0_l, Nat.sub_0_r.
  rewrite Nat.min_l by lia.
  apply substring_take.
Qed.

Lemma truthy_Some (s : string) : Js.truthy (Some s) = true <-> s <> "".
Proof.
  simpl. rewrite negb_true_iff. apply String.eqb_neq.
Qed.

End JsFacts.

(* ================================================================= *)
(** ** Key normalizer *)

Lemma isAbsoluteUrl_app (id suffix : string) :
  isAbsoluteUrl id = true -> isAbsoluteUrl (id ++ suffix) = true.
Proof.
  unfold isAbsoluteUrl. intros Hid.
  apply orb_true_iff in Hid. apply orb_true_iff.
  destruct Hid as [Hid|Hid]; [left|right]; now apply JsFacts.startsWith_app.
Qed.

Lemma normalizeId_meta_yaml (id : string) :
  isAbsoluteUrl id = true -> normalizeId (id ++ meta_yaml) = id.
Proof.
  intros Hid. unfold normalizeId.
  rewrite (isAbsoluteUrl_app _ _ Hid), JsFacts.endsWith_app. simpl andb.
  cbv iota. apply JsFacts.substring_cut.
Qed.

Lemma normalizeId_relative (id : string) :
  isAbsoluteUrl id = false -> normalizeId id = id.
Proof. intros Hid. unfold normalizeId. now rewrite Hid. Qed.

(** *** The methods and the words of the design *)

Lemma prefix_iff (p s : string) :
  String.prefix p s = true <-> exists rest, s = p ++ rest.
Proof.
  revert s. induction p as [|c p IH]; intros s.
  - split; [intros _; now exists s | intros _; now destruct s].
  - destruct s as [|d s]; cbn [String.prefix].
    + split; [discriminate | intros [rest Hrest]; discriminate].
    + destruct (Ascii.ascii_dec c d) as [<-|Hcd].
      * rewrite IH. split; intros [rest Hrest]; exists rest.
        -- cbn. now rewrite Hrest.
        -- now inversion Hrest.
      * split; [discriminate|]. intros [rest Hrest]. inversion Hrest.
        congruence.
Qed.

Lemma isAbsoluteUrl_iff (s : string) :
  isAbsoluteUrl s = true <-> AbsoluteUrl s.
Proof.
  unfold isAbsoluteUrl, AbsoluteUrl, Js.startsWith.
  rewrite orb_true_iff, !prefix_iff. split.
  - intros [[rest Hrest]|[rest Hrest]]; exists rest; auto.
  - intros [rest [Hrest|Hrest]]; [left | right]; now exists rest.
Qed.

Lemma normalizeId_strips (id : string) :
  isAbsoluteUrl id && Js.endsWith id meta_yaml = true
  <-> AbsoluteUrl id /\ exists base, id = base ++ "/meta.yaml".
Proof.
  rewrite andb_true_iff, isAbsoluteUrl_iff, JsFacts.endsWith_iff.
  reflexivity.
Qed.

(** [normalizeId] computes the normalized address of the design. *)
Lemma Normalized_normalizeId (u k : string) :
  Normalized u k <-> k = normalizeId u.
Proof.
  unfold normalizeId. split.
  - intros [base Habs Hbase|Hnot].
    + rewrite (proj2 (normalizeId_strips u)) by eauto.
      subst u. unfold meta_yaml. now rewrite JsFacts.substring_cut.
    + destruct (isAbsoluteUrl u && Js.endsWith u meta_yaml) eqn:Hstrip;
        [|reflexivity].
      apply normalizeId_strips in Hstrip. contradiction.
  - intros ->.
    destruct (isAbsoluteUrl u && Js.endsWith u meta_yaml) eqn:Hstrip.
    + apply normalizeId_strips in Hstrip.
      destruct Hstrip as [Habs [base Hbase]].
      rewrite Hbase at 2 3. unfold meta_yaml.
      rewrite JsFacts.substring_cut. now apply normalized_stripped.
    + apply normalized_unchanged. intros Hstrips.
      apply normalizeId_strips in Hstrips. congruence.
Qed.

(** [referenceId] computes the normalized reference id of the design. *)
Lemma NormalizedReference_referenceId (p : DevfileComponentPlugin)
  (id : option string) :
  NormalizedReference p id <-> id = referenceId p.
Proof.
  unfold referenceId. split.
  - intros [u id0 k Hu Hk| id0 | id0]; cbn [plugin_url plugin_id].
    + rewrite (proj2 (JsFacts.truthy_Some u) Hu). cbn [option_map].
      apply Normalized_normalizeId in Hk. now subst k.
    + reflexivity.
    + reflexivity.
  - intros ->. destruct p as [[u|] id0]; cbn [plugin_url plugin_id].
    + destruct (Js.truthy (Some u)) eqn:Hu.
      * apply JsFacts.truthy_Some in Hu. cbn [option_map].
        apply reference_by_url; [exact Hu|]. now apply Normalized_normalizeId.
      * assert (Hempty : u = "").
        { destruct (String.eqb_spec u "") as [E|E]; [exact E|].
          apply JsFacts.truthy_Some in E. congruence. }
        subst u. apply reference_by_id_empty_url.
    + apply reference_by_id.
Qed.

(** [createPluginComponent] builds the component the design has appended. *)
Lemma ComponentFor_createPluginComponent (k : string) :
  ComponentFor k (createPluginComponent k).
Proof.
  unfold createPluginComponent.
  destruct (isAbsoluteUrl k) eqn:Hk.
  - apply component_by_url. now apply isAbsoluteUrl_iff.
  - apply component_by_id. intros Habs. apply isAbsoluteUrl_iff in Habs.
    congruence.
Qed.

(** The reference read back from the component built for a key. *)
Lemma referenceId_createPluginComponent (k : string) :
  option_map referenceId (plugin (createPluginComponent k))
  = Some (Some k).
Proof.
  unfold createPluginComponent, referenceId.
  destruct (isAbsoluteUrl k) eqn:Hk; simpl.
  - destruct (k ++ meta_yaml =? "") eqn:He; simpl.
    + apply String.eqb_eq in He. destruct k; discriminate.
    + now rewrite normalizeId_meta_yaml.
  - reflexivity.
Qed.

(** C9. Reading back the reference component built for a key gives the key:
    for a key that starts with [http://] or [https://] the component carries
    [url], and [normalizeId] of it is the key, the appended [/meta.yaml]
    being stripped again; for any other key the component carries [id], equal
    to the key. *)
Theorem createPluginComponent_roundtrip (k : string) :
  (isAbsoluteUrl k = true ->
   exists u, plugin (createPluginComponent k) = Some (mkPlugin (Some u) None)
             /\ u = k ++ "/meta.yaml" /\ normalizeId u = k)
  /\ (isAbsoluteUrl k = false ->
      plugin (createPluginComponent k) = Some (mkPlugin None (Some k))).
Proof.
  unfold createPluginComponent. split; intros Hk; rewrite Hk; simpl.
  - exists (k ++ meta_yaml). repeat split. now apply normalizeId_meta_yaml.
  - reflexivity.
Qed.

Lemma createPluginComponent_roundtrip_witness :
  (exists u, plugin (createPluginComponent "https://x/y")
             = Some (mkPlugin (Some u) None)
             /\ u = "https://x/y/meta.yaml" /\ normalizeId u = "https://x/y")
  /\ plugin (createPluginComponent "pub/pl/1.0")
     = Some (mkPlugin None (Some "pub/pl/1.0")).
Proof.
  split.
  - apply (createPluginComponent_roundtrip "https://x/y"). reflexivity.
  - apply (createPluginComponent_roundtrip "pub/pl/1.0"). reflexivity.
Defined.

(* ================================================================= *)
(** ** Cache keys *)

Lemma pluginKey_short (props : PluginYaml) (yamlURI : string) :
  pluginKey props yamlURI false = shortKey props.
Proof. reflexivity. Qed.

Lemma pluginKey_suffix_key (props : PluginYaml) (pre : string) :
  pluginKey props (pre ++ shortKey props) true = pre ++ shortKey props.
Proof.
  unfold pluginKey. rewrite JsFacts.endsWith_app.
  now rewrite JsFacts.substring_cut.
Qed.

Lemma pluginKey_suffix_meta_yaml (props : PluginYaml) (pre : string) :
  Js.endsWith (pre ++ shortKey props ++ "/meta.yaml") (shortKey props) = false ->
  pluginKey props (pre ++ shortKey props ++ "/meta.yaml") true
  = pre ++ shortKey props.
Proof.
  intros Hno. unfold pluginKey. rewrite Hno.
  rewrite JsFacts.endsWith_app, JsFacts.substring_cut. reflexivity.
Qed.

Lemma pluginKey_fallback (props : PluginYaml) (yamlURI : string) :
  Js.endsWith yamlURI (shortKey props) = false ->
  Js.endsWith yamlURI (shortKey props ++ "/meta.yaml") = false ->
  pluginKey props yamlURI true = shortKey props.
Proof. intros H1 H2. unfold pluginKey. now rewrite H1, H2. Qed.

(** Whichever of the two suffixes is found, the long key is the part of the
    address before a matching suffix, followed by the short key. *)
Lemma pluginKey_long (props : PluginYaml) (yamlURI : string) :
  Js.endsWith yamlURI (shortKey props) = true
  \/ Js.endsWith yamlURI (shortKey props ++ "/meta.yaml") = true ->
  exists pre,
    (yamlURI = pre ++ shortKey props
     \/ yamlURI = pre ++ shortKey props ++ "/meta.yaml")
    /\ pluginKey props yamlURI true = pre ++ shortKey props.
Proof.
  intros Hends.
  destruct (Js.endsWith yamlURI (shortKey props)) eqn:Hk.
  - apply JsFacts.endsWith_iff in Hk. destruct Hk as [pre ->].
    exists pre. split; [now left | apply pluginKey_suffix_key].
  - destruct Hends as [Hends|Hends]; [discriminate|].
    apply JsFacts.endsWith_iff in Hends. destruct Hends as [pre Hpre].
    exists pre. subst yamlURI. split; [now right|].
    now apply pluginKey_suffix_meta_yaml.
Qed.

(** When the address ends with both suffixes, the short key is the one
    found. *)
Example pluginKey_both_suffixes :
  let props := mkYaml "" "meta.yaml" "meta.yaml" "" "" "" "" None "" "" ""
                 "" "" in
  let yamlURI := "http://reg/b/meta.yaml/meta.yaml/meta.yaml" in
  Js.endsWith yamlURI (shortKey props) = true
  /\ Js.endsWith yamlURI (shortKey props ++ "/meta.yaml") = true
  /\ pluginKey props yamlURI true = "http://reg/b/meta.yaml" ++ shortKey props.
Proof. repeat split. Qed.

Section KeyOfLoadedPlugin.
Context `{HttpService} `{Parsers}.

(** What [loadPluginMetadata] makes of a document that [loadPluginYaml]
    resolved with: metadata when the document has an [icon], and a rejection
    for the [TypeError] of [props.icon.startsWith] when it has none. *)
Lemma loadPluginMetadata_loaded yamlURI longKeyFormat pluginRegistryURI
  (st st' : State) (props : PluginYaml) :
  loadPluginYaml yamlURI st = (Resolved (Some props), st') ->
  loadPluginMetadata yamlURI longKeyFormat pluginRegistryURI st
  = match yaml_icon props with
    | Some propsIcon =>
        (Resolved
           (mkMetadata (yaml_publisher props) (yaml_name props)
              (yaml_version props) (yaml_type props)
              (yaml_displayName props) (yaml_title props)
              (yaml_description props)
              (pluginIcon propsIcon pluginRegistryURI) (yaml_url props)
              (yaml_repository props) (yaml_firstPublicationDate props)
              (yaml_category props) (yaml_latestUpdateDate props)
              (pluginKey props yamlURI longKeyFormat) false), st')
    | None =>
        (Rejected (ThrownString ("Unable to load plugin metadata. "
                                 ++ typeErrorMessage)), st')
    end.
Proof.
  intros Hload. unfold loadPluginMetadata, try_catch, bind. rewrite Hload.
  now destruct (yaml_icon props).
Qed.

(** An empty document makes [loadPluginMetadata] reject likewise. *)
Lemma loadPluginMetadata_undefined yamlURI longKeyFormat pluginRegistryURI
  (st st' : State) :
  loadPluginYaml yamlURI st = (Resolved None, st') ->
  loadPluginMetadata yamlURI longKeyFormat pluginRegistryURI st
  = (Rejected (ThrownString ("Unable to load plugin metadata. "
                             ++ typeErrorMessage)), st').
Proof.
  intros Hload. unfold loadPluginMetadata, try_catch, bind.
  now rewrite Hload.
Qed.

(** C4. For a plugin document with publisher [p], name [n] and version [v]
    loaded for the address [u], the key of the metadata [loadPluginMetadata]
    resolves with is: [p/n/v] when the long format is not requested; when it
    is requested and [u] ends with [p/n/v] or with [p/n/v/meta.yaml], the
    part of [u] before the suffix found, followed by [p/n/v] (the suffix
    [p/n/v] is looked for first); and [p/n/v] again when the long format is
    requested and [u] ends with neither. [loadPluginMetadata] resolves, with
    such a key, for every document that has an [icon]; for a document
    without one it rejects and no key is returned. *)
Theorem loadPluginMetadata_key yamlURI longKeyFormat pluginRegistryURI
  (st st' : State) (props : PluginYaml) :
  loadPluginYaml yamlURI st = (Resolved (Some props), st') ->
  let pnv := yaml_publisher props ++ "/" ++ yaml_name props ++ "/"
             ++ yaml_version props in
  (forall pluginMetadata st'',
     loadPluginMetadata yamlURI longKeyFormat pluginRegistryURI st
     = (Resolved pluginMetadata, st'') ->
     (longKeyFormat = false -> key pluginMetadata = pnv)
     /\ (longKeyFormat = true ->
         Js.endsWith yamlURI pnv = true
         \/ Js.endsWith yamlURI (pnv ++ "/meta.yaml") = true ->
         exists pre,
           (yamlURI = pre ++ pnv \/ yamlURI = pre ++ pnv ++ "/meta.yaml")
           /\ key pluginMetadata = pre ++ pnv)
     /\ (longKeyFormat = true ->
         forall pre, yamlURI = pre ++ pnv -> key pluginMetadata = pre ++ pnv)
     /\ (longKeyFormat = true ->
         forall pre, yamlURI = pre ++ pnv ++ "/meta.yaml" ->
                     Js.endsWith yamlURI pnv = false ->
                     key pluginMetadata = pre ++ pnv)
     /\ (longKeyFormat = true ->
         Js.endsWith yamlURI pnv = false ->
         Js.endsWith yamlURI (pnv ++ "/meta.yaml") = false ->
         key pluginMetadata = pnv))
  /\ (yaml_icon props <> None ->
      exists pluginMetadata,
        loadPluginMetadata yamlURI longKeyFormat pluginRegistryURI st
        = (Resolved pluginMetadata, st')
        /\ publisher pluginMetadata = yaml_publisher props
        /\ name pluginMetadata = yaml_name props
        /\ version pluginMetadata = yaml_version props)
  /\ (yaml_icon props = None ->
      loadPluginMetadata yamlURI longKeyFormat pluginRegistryURI st
      = (Rejected (ThrownString ("Unable to load plugin metadata. "
                                 ++ typeErrorMessage)), st')).
Proof.
  intros Hload pnv.
  pose proof (loadPluginMetadata_loaded yamlURI longKeyFormat
                pluginRegistryURI st st' props Hload) as Hrun.
  split; [|split].
  - intros pluginMetadata st'' Hresolved. rewrite Hrun in Hresolved.
    destruct (yaml_icon props); [|discriminate].
    injection Hresolved as <- _. cbn [key].
    change pnv with (shortKey props).
    split; [|split; [|split; [|split]]].
    + intros ->. apply pluginKey_short.
    + intros ->. apply pluginKey_long.
    + intros -> pre ->. apply pluginKey_suffix_key.
    + intros -> pre -> Hno. now apply pluginKey_suffix_meta_yaml.
    + intros ->. apply pluginKey_fallback.
  - intros Hicon. destruct (yaml_icon props); [|congruence].
    eexists. split; [exact Hrun|]. now cbn.
  - intros Hicon. now rewrite Hicon in Hrun.
Qed.

End KeyOfLoadedPlugin.

(* ================================================================= *)
(** ** Registry client: addresses *)

Lemma startsWith_slash_truthy (self : string) :
  Js.startsWith self "/" = true -> Js.truthy (Some self) = true.
Proof. destruct self; [discriminate | reflexivity]. Qed.

(** C2. For a plugin summary whose [links.self] is present and starts with
    [/], listed by a registry whose [uri] is the one of the resolved default
    registry, [getPluginYamlURI] is [{registry.uri}/plugins/{plugin.id}/],
    whatever the value of [links.self]. *)
Theorem getPluginYamlURI_default_registry `{Parsers}
  (dflt registry : ChePluginRegistry) (plugin : ChePluginMetadataInternal)
  (links : string -> option string) (self : string) :
  summary_links plugin = Some links ->
  links "self" = Some self ->
  Js.startsWith self "/" = true ->
  uri registry = uri dflt ->
  getPluginYamlURI (Some dflt) registry plugin
  = Resolved (uri registry ++ "/plugins/" ++ summary_id plugin ++ "/").
Proof.
  intros Hlinks Hself Hslash Huri.
  unfold getPluginYamlURI, selfLink. rewrite Hlinks, Hself.
  rewrite (startsWith_slash_truthy _ Hslash), Hslash.
  now rewrite Huri, String.eqb_refl.
Qed.

(** C6 as stated fails: a registry address ending in two slashes is returned
    as it is. *)
Lemma getBaseDirectory_keeps_double_slash :
  let registry := mkRegistry "r" "http://reg/a//" "http://reg/a" in
  Js.endsWith (uri registry) "/" = true
  /\ Js.endsWith (uri registry) ".json" = false
  /\ getBaseDirectory registry = "http://reg/a//"
  /\ Js.endsWith (getBaseDirectory registry) "//" = true.
Proof. repeat split. Qed.

(** C6, amended. For a registry whose [uri] ends with [/] but not with [//]
    (and not with [.json]), [getBaseDirectory] returns the [uri] unchanged:
    a string with exactly one trailing [/]. *)
Theorem getBaseDirectory_trailing_slash (registry : ChePluginRegistry) :
  Js.endsWith (uri registry) "/" = true ->
  Js.endsWith (uri registry) ".json" = false ->
  Js.endsWith (uri registry) "//" = false ->
  getBaseDirectory registry = uri registry
  /\ Js.endsWith (getBaseDirectory registry) "/" = true
  /\ Js.endsWith (getBaseDirectory registry) "//" = false.
Proof.
  intros Hslash Hjson Hdouble.
  assert (Hbase : getBaseDirectory registry = uri registry).
  { unfold getBaseDirectory. now rewrite Hjson, Hslash. }
  rewrite Hbase. auto.
Qed.

(* ================================================================= *)
(** ** Plugin query service *)

Lemma squeezeOutEditors_no_editor plugins filter :
  Forall (fun plugin => type plugin <> "Che Editor")
         (squeezeOutEditors plugins filter).
Proof.
  unfold squeezeOutEditors. apply Forall_forall. intros plugin Hin.
  apply filter_In in Hin. destruct Hin as [_ Hkeep].
  apply negb_true_iff, String.eqb_neq in Hkeep. congruence.
Qed.

(** C5, amended. Whatever the cache holds and whatever the filter, no entry
    returned by [getPlugins] has the type [Che Editor]. *)
Theorem getPlugins_no_editor `{PluginFilter}
  (cachedPlugins : list ChePluginMetadata) (filter : string) :
  Forall (fun plugin => type plugin <> "Che Editor")
         (getPlugins cachedPlugins filter).
Proof. unfold getPlugins. apply squeezeOutEditors_no_editor. Qed.

(* ================================================================= *)
(** ** Arrays: [indexOf] followed by [splice] *)

Module ArrayFacts.
Local Open Scope list_scope.

Lemma splice1_at {A} (xs : list A) (j : nat) :
  j <= List.length xs -> Js.splice1 xs (Z.of_nat j) = Js.remove_nth j xs.
Proof.
  intros Hj. unfold Js.splice1.
  destruct (Z.ltb_spec (Z.of_nat j) 0); [lia|].
  rewrite Z.min_l by lia. now rewrite Nat2Z.id.
Qed.

Lemma remove_nth_middle {A} (pre suf : list A) (x : A) :
  Js.remove_nth (List.length pre) (pre ++ x :: suf) = pre ++ suf.
Proof. induction pre as [|y pre IH]; simpl; [reflexivity | now rewrite IH]. Qed.

Lemma indexOf_from_found xs k i j :
  Js.indexOf_from xs k i = Some j ->
  i <= j /\ j - i < List.length xs
  /\ Js.remove_nth (j - i) xs = removeFirst k xs
  /\ existsb (fun x => String.eqb x k) xs = true.
Proof.
  revert i; induction xs as [|x xs IH]; intros i Hfind; simpl in *.
  - discriminate.
  - destruct (String.eqb x k) eqn:Hx.
    + inversion Hfind; subst. rewrite Nat.sub_diag. simpl.
      repeat split; lia.
    + destruct (IH _ Hfind) as (Hle & Hlt & Hrm & Hex).
      replace (j - i) with (S (j - S i)) by lia. simpl.
      rewrite Hrm, Hex. repeat split; lia.
Qed.

Lemma indexOf_from_missing xs k i :
  Js.indexOf_from xs k i = None ->
  existsb (fun x => String.eqb x k) xs = false.
Proof.
  revert i; induction xs as [|x xs IH]; intros i Hfind; simpl in *.
  - reflexivity.
  - destruct (String.eqb x k); [discriminate | now apply IH in Hfind].
Qed.

(** The test [foundIndex >= 0] is the membership test, and the [splice]
    that follows removes the first occurrence. *)
Lemma indexOf_wanted plugins id :
  (0 <=? Js.indexOf plugins id)%Z = wanted plugins id.
Proof.
  destruct id as [k|]; simpl; [|reflexivity].
  destruct (Js.indexOf_from plugins k 0) as [j|] eqn:Hfind.
  - apply indexOf_from_found in Hfind. destruct Hfind as (_ & _ & _ & ->).
    apply Z.leb_le. lia.
  - now rewrite (indexOf_from_missing _ _ _ Hfind).
Qed.

Lemma splice_indexOf plugins id :
  wanted plugins id = true ->
  Js.splice1 plugins (Js.indexOf plugins id) = consume plugins id.
Proof.
  destruct id as [k|]; simpl; [|discriminate].
  destruct (Js.indexOf_from plugins k 0) as [j|] eqn:Hfind.
  - intros _. apply indexOf_from_found in Hfind.
    destruct Hfind as (_ & Hlt & Hrm & _).
    rewrite Nat.sub_0_r in *. rewrite splice1_at by lia. exact Hrm.
  - rewrite (indexOf_from_missing _ _ _ Hfind). discriminate.
Qed.

Lemma indexOfRef_from_middle (pre suf : list ComponentRef) c i :
  ~ In (fst c) (map fst pre) ->
  indexOfRef_from (pre ++ c :: suf) (fst c) i = Some (i + List.length pre).
Proof.
  revert i; induction pre as [|y pre IH]; intros i Hfresh; simpl in *.
  - rewrite Nat.eqb_refl. f_equal. lia.
  - destruct (Nat.eqb_spec (fst y) (fst c)) as [Heq|_].
    + exfalso. apply Hfresh. now left.
    + rewrite IH by tauto. f_equal. lia.
Qed.

(** In an array of pairwise distinct objects, [indexOf] of an element
    followed by [splice] removes that very element. *)
Lemma splice_indexOfRef (pre suf : list ComponentRef) c :
  NoDup (map fst (pre ++ c :: suf)) ->
  Js.splice1 (pre ++ c :: suf) (indexOfRef (pre ++ c :: suf) c) = pre ++ suf.
Proof.
  intros Hnodup. unfold indexOfRef.
  rewrite indexOfRef_from_middle.
  - simpl. rewrite splice1_at.
    + apply remove_nth_middle.
    + rewrite length_app. simpl. lia.
  - rewrite map_app in Hnodup. simpl in Hnodup.
    apply NoDup_remove_2 in Hnodup. intros Hin. apply Hnodup.
    apply in_or_app. now left.
Qed.

Lemma tagFrom_bounds i cs r :
  In r (map fst (tagFrom i cs)) -> i <= r.
Proof.
  revert i; induction cs as [|c cs IH]; intros i Hin; simpl in *.
  - contradiction.
  - destruct Hin as [<-|Hin]; [lia | apply IH in Hin; lia].
Qed.

Lemma tagFrom_NoDup i cs : NoDup (map fst (tagFrom i cs)).
Proof.
  revert i; induction cs as [|c cs IH]; intros i; simpl; constructor.
  - intros Hin. apply tagFrom_bounds in Hin. lia.
  - apply IH.
Qed.

Lemma tagFrom_objects i cs : map snd (tagFrom i cs) = cs.
Proof.
  revert i; induction cs as [|c cs IH]; intros i; simpl;
    [reflexivity | now rewrite IH].
Qed.

End ArrayFacts.

(* ================================================================= *)
(** ** Devfile reconciler: the method runs the reference algorithm *)

Section Reconciler.
Local Open Scope list_scope.

Lemma fold_reconcileStep (suf pre : list ComponentRef) (plugins : list string) :
  NoDup (map fst (pre ++ suf)) ->
  fold_left reconcileStep (filter (fun c => hasPlugin (snd c)) suf)
            (pre ++ suf, plugins)
  = (pre ++ fst (reconcile snd suf plugins), snd (reconcile snd suf plugins)).
Proof.
  revert pre plugins. induction suf as [|c suf IH]; intros pre plugins Hnodup.
  - reflexivity.
  - simpl. unfold hasPlugin at 1.
    assert (Hnext : NoDup (map fst ((pre ++ [c]) ++ suf)))
      by now rewrite <- List.app_assoc.
    destruct (plugin (snd c)) as [p|] eqn:Hp.
    + simpl. rewrite Hp, ArrayFacts.indexOf_wanted.
      destruct (wanted plugins (referenceId p)) eqn:Hwanted.
      * rewrite (ArrayFacts.splice_indexOf _ _ Hwanted).
        replace (pre ++ c :: suf) with ((pre ++ [c]) ++ suf)
          by now rewrite <- List.app_assoc.
        rewrite (IH _ _ Hnext).
        destruct (reconcile snd suf (consume plugins (referenceId p))).
        simpl. now rewrite <- List.app_assoc.
      * rewrite (ArrayFacts.splice_indexOfRef _ _ _ Hnodup).
        apply IH. rewrite map_app in *. simpl in Hnodup.
        now apply NoDup_remove_1 in Hnodup.
    + replace (pre ++ c :: suf) with ((pre ++ [c]) ++ suf)
        by now rewrite <- List.app_assoc.
      rewrite (IH _ _ Hnext).
      destruct (reconcile snd suf plugins). simpl.
      now rewrite <- List.app_assoc.
Qed.

Lemma reconcile_view {A} (view : A -> DevfileComponent) (cs : list A) plugins :
  reconcile (fun c => c) (map view cs) plugins
  = (map view (fst (reconcile view cs plugins)),
     snd (reconcile view cs plugins)).
Proof.
  revert plugins. induction cs as [|c cs IH]; intros plugins; simpl.
  - reflexivity.
  - destruct (plugin (view c)) as [p|].
    + destruct (wanted plugins (referenceId p)).
      * rewrite IH. now destruct (reconcile view cs _).
      * apply IH.
    + rewrite IH. now destruct (reconcile view cs _).
Qed.

(** [setWorkspacePlugins] keeps what [reconcile] keeps, appends a component
    for each key [reconcile] leaves, and leaves those keys in the caller's
    array. *)
Lemma setWorkspacePlugins_reconcile (devfile : Devfile) (plugins : list string) :
  let r := reconcile (fun c => c) (devfileComponentsOf devfile) plugins in
  setWorkspacePlugins devfile plugins
  = (mkDevfile (Some (fst r ++ map createPluginComponent (snd r)))
               (metadata devfile),
     snd r).
Proof.
  unfold setWorkspacePlugins.
  pose proof (fold_reconcileStep (tagFrom 0 (devfileComponentsOf devfile)) []
                plugins (ArrayFacts.tagFrom_NoDup 0 _)) as Hfold.
  simpl app in Hfold. rewrite Hfold.
  pose proof (reconcile_view snd (tagFrom 0 (devfileComponentsOf devfile))
                plugins) as Hview.
  rewrite ArrayFacts.tagFrom_objects in Hview. rewrite Hview. reflexivity.
Qed.

(** *** Facts about the reference algorithm *)

Lemma Subsequence_refl {A} (xs : list A) : Subsequence xs xs.
Proof. induction xs; constructor; assumption. Qed.

Lemma Subsequence_trans {A} (xs ys zs : list A) :
  Subsequence xs ys -> Subsequence ys zs -> Subsequence xs zs.
Proof.
  intros Hxy Hyz. revert xs Hxy.
  induction Hyz as [|y ys zs Hyz IH|z ys zs Hyz IH]; intros xs Hxy.
  - exact Hxy.
  - inversion Hxy; subst.
    + apply sub_keep. now apply IH.
    + apply sub_drop. now apply IH.
  - apply sub_drop. now apply IH.
Qed.

Lemma Subsequence_In {A} (xs ys : list A) (x : A) :
  Subsequence xs ys -> In x xs -> In x ys.
Proof.
  induction 1 as [|y xs ys _ IH|y xs ys _ IH]; simpl; intros Hin.
  - exact Hin.
  - destruct Hin as [->|Hin]; [now left | right; now apply IH].
  - right. now apply IH.
Qed.

Lemma removeFirst_Subsequence k xs : Subsequence (removeFirst k xs) xs.
Proof.
  induction xs as [|x xs IH]; simpl.
  - constructor.
  - destruct (String.eqb x k).
    + apply sub_drop, Subsequence_refl.
    + now apply sub_keep.
Qed.

Lemma consume_Subsequence plugins id : Subsequence (consume plugins id) plugins.
Proof.
  destruct id; simpl; [apply removeFirst_Subsequence | apply Subsequence_refl].
Qed.

Lemma reconcile_kept_Subsequence cs plugins :
  Subsequence (fst (reconcile (fun c => c) cs plugins)) cs.
Proof.
  revert plugins. induction cs as [|c cs IH]; intros plugins; simpl.
  - constructor.
  - destruct (plugin c) as [p|].
    + destruct (wanted plugins (referenceId p)).
      * specialize (IH (consume plugins (referenceId p))).
        destruct (reconcile _ cs _). now apply sub_keep.
      * apply sub_drop, IH.
    + specialize (IH plugins). destruct (reconcile _ cs _). now apply sub_keep.
Qed.

Lemma reconcile_rest_Subsequence cs plugins :
  Subsequence (snd (reconcile (fun c => c) cs plugins)) plugins.
Proof.
  revert plugins. induction cs as [|c cs IH]; intros plugins; simpl.
  - apply Subsequence_refl.
  - destruct (plugin c) as [p|].
    + destruct (wanted plugins (referenceId p)).
      * specialize (IH (consume plugins (referenceId p))).
        destruct (reconcile _ cs _). simpl in *.
        eapply Subsequence_trans; [exact IH | apply consume_Subsequence].
      * apply IH.
    + specialize (IH plugins). now destruct (reconcile _ cs _).
Qed.

Lemma reconcile_others cs plugins :
  filter (fun c => negb (hasPlugin c)) (fst (reconcile (fun c => c) cs plugins))
  = filter (fun c => negb (hasPlugin c)) cs.
Proof.
  revert plugins. induction cs as [|c cs IH]; intros plugins; simpl.
  - reflexivity.
  - unfold hasPlugin at 2. destruct (plugin c) as [p|] eqn:Hp.
    + destruct (wanted plugins (referenceId p)).
      * specialize (IH (consume plugins (referenceId p))).
        destruct (reconcile _ cs _). simpl in *.
        unfold hasPlugin at 1. now rewrite Hp.
      * apply IH.
    + specialize (IH plugins). destruct (reconcile _ cs _). simpl in *.
      unfold hasPlugin at 1. rewrite Hp. simpl. now rewrite IH.
Qed.

Lemma createPluginComponent_hasPlugin k :
  hasPlugin (createPluginComponent k) = true.
Proof. unfold createPluginComponent. now destruct (isAbsoluteUrl k). Qed.

Lemma filter_others_created plugins :
  filter (fun c => negb (hasPlugin c)) (map createPluginComponent plugins) = [].
Proof.
  induction plugins as [|k plugins IH]; simpl; [reflexivity|].
  now rewrite createPluginComponent_hasPlugin.
Qed.

Lemma count_removeFirst k0 plugins k :
  count_occ string_dec (removeFirst k0 plugins) k
  = count_occ string_dec plugins k - (if string_dec k0 k then 1 else 0).
Proof.
  induction plugins as [|x plugins IH]; simpl.
  - reflexivity.
  - destruct (String.eqb_spec x k0) as [->|Hx].
    + destruct (string_dec k0 k); lia.
    + simpl. rewrite IH.
      destruct (string_dec x k) as [->|_]; [|reflexivity].
      destruct (string_dec k0 k); [congruence | lia].
Qed.

Lemma count_not_wanted plugins k :
  existsb (fun x => String.eqb x k) plugins = false ->
  count_occ string_dec plugins k = 0.
Proof.
  induction plugins as [|x plugins IH]; simpl; [reflexivity|].
  intros Hno. apply orb_false_iff in Hno. destruct Hno as [Hx Hno].
  apply String.eqb_neq in Hx.
  destruct (string_dec x k); [contradiction | now apply IH].
Qed.

Lemma reconcile_rest_count cs plugins k :
  count_occ string_dec (snd (reconcile (fun c => c) cs plugins)) k
  = count_occ string_dec plugins k - count_occ string_dec (referenceIds cs) k.
Proof.
  revert plugins. induction cs as [|c cs IH]; intros plugins; simpl.
  - lia.
  - destruct (plugin c) as [p|].
    + destruct (referenceId p) as [k0|]; simpl.
      * destruct (existsb (fun x => String.eqb x k0) plugins) eqn:Hwanted.
        -- specialize (IH (removeFirst k0 plugins)).
           destruct (reconcile _ cs _). simpl in *.
           rewrite IH, count_removeFirst.
           destruct (string_dec k0 k); lia.
        -- rewrite IH. destruct (string_dec k0 k) as [->|_]; [|reflexivity].
           rewrite (count_not_wanted _ _ Hwanted). reflexivity.
      * apply IH.
    + specialize (IH plugins). now destruct (reconcile _ cs _).
Qed.

(** *** Reading the plugin list back *)

Lemma pushPlugin_acc plugins component :
  pushPlugin plugins component = plugins ++ listedKeys component.
Proof.
  unfold listedKeys, pushPlugin.
  destruct (plugin component) as [p|]; [|now rewrite app_nil_r].
  destruct (Js.truthy (plugin_url p)).
  - destruct (plugin_url p); [reflexivity | now rewrite app_nil_r].
  - destruct (Js.truthy (plugin_id p)); [|now rewrite app_nil_r].
    destruct (plugin_id p); [reflexivity | now rewrite app_nil_r].
Qed.

Lemma fold_pushPlugin cs plugins :
  fold_left pushPlugin cs plugins = plugins ++ flat_map listedKeys cs.
Proof.
  revert plugins. induction cs as [|c cs IH]; intros plugins; simpl.
  - now rewrite app_nil_r.
  - now rewrite IH, pushPlugin_acc, <- List.app_assoc.
Qed.

Lemma listedKeys_other c : plugin c = None -> listedKeys c = [].
Proof. intros Hc. unfold listedKeys, pushPlugin. now rewrite Hc. Qed.

(** A component with a non-empty reference id is listed under that id. *)
Lemma listedKeys_referenceId c p k :
  plugin c = Some p -> referenceId p = Some k -> k <> "" ->
  listedKeys c = [k].
Proof.
  intros Hc Hid Hk. unfold listedKeys, pushPlugin. rewrite Hc.
  unfold referenceId in Hid.
  destruct (Js.truthy (plugin_url p)).
  - destruct (plugin_url p); simpl in Hid; [|discriminate].
    now inversion Hid.
  - rewrite Hid. apply JsFacts.truthy_Some in Hk. now rewrite Hk.
Qed.

Lemma listedKeys_created k :
  k <> "" -> listedKeys (createPluginComponent k) = [k].
Proof.
  intros Hk.
  pose proof (referenceId_createPluginComponent k) as Hid.
  destruct (plugin (createPluginComponent k)) as [p|] eqn:Hp;
    [|discriminate].
  cbn [option_map] in Hid. inversion Hid as [Hid'].
  now apply (listedKeys_referenceId _ p k).
Qed.

Lemma listedKeys_all_created plugins :
  ~ In "" plugins ->
  flat_map listedKeys (map createPluginComponent plugins) = plugins.
Proof.
  induction plugins as [|k plugins IH]; simpl; intros Hne.
  - reflexivity.
  - rewrite listedKeys_created by (intros ->; apply Hne; now left).
    simpl. f_equal. apply IH. tauto.
Qed.

Lemma wanted_In plugins id :
  wanted plugins id = true <-> exists k, id = Some k /\ In k plugins.
Proof.
  destruct id as [k|]; simpl.
  - rewrite existsb_exists. split.
    + intros (x & Hin & Hx). apply String.eqb_eq in Hx. subst. eauto.
    + intros (k' & Hk & Hin). inversion Hk; subst.
      exists k'. split; [exact Hin | apply String.eqb_refl].
  - split; [discriminate | intros (k & Hk & _); discriminate].
Qed.

Lemma In_removeFirst k0 plugins k :
  In k0 plugins -> (In k plugins <-> k = k0 \/ In k (removeFirst k0 plugins)).
Proof.
  induction plugins as [|x plugins IH]; simpl; intros Hin; [contradiction|].
  destruct (String.eqb_spec x k0) as [->|Hx].
  - split; intros [?|?]; auto.
  - destruct Hin as [Hin|Hin]; [contradiction|]. simpl.
    rewrite (IH Hin). tauto.
Qed.

(** Every wanted key ends up either listed by a kept component or among the
    keys left for new components, and nothing else does. *)
Lemma reconcile_keys cs plugins k :
  ~ In "" plugins ->
  (In k (flat_map listedKeys (fst (reconcile (fun c => c) cs plugins)))
   \/ In k (snd (reconcile (fun c => c) cs plugins)))
  <-> In k plugins.
Proof.
  revert plugins. induction cs as [|c cs IH]; intros plugins Hne;
    cbn [reconcile].
  - simpl. tauto.
  - destruct (plugin c) as [p|] eqn:Hc.
    + destruct (wanted plugins (referenceId p)) eqn:Hwanted.
      * apply wanted_In in Hwanted. destruct Hwanted as (k0 & Hid & Hin).
        assert (Hk0 : k0 <> "") by (intros ->; contradiction).
        rewrite Hid. cbn [consume].
        assert (Hne' : ~ In "" (removeFirst k0 plugins)).
        { intros Hempty. apply Hne.
          eapply Subsequence_In; [apply removeFirst_Subsequence | exact Hempty]. }
        specialize (IH (removeFirst k0 plugins) Hne').
        destruct (reconcile _ cs (removeFirst k0 plugins)) as [kept rest].
        simpl in *.
        rewrite (listedKeys_referenceId c p k0 Hc Hid Hk0).
        rewrite (In_removeFirst k0 plugins k Hin). simpl.
        rewrite <- IH. intuition congruence.
      * now apply IH.
    + specialize (IH plugins Hne).
      destruct (reconcile _ cs plugins) as [kept rest]. simpl in *.
      now rewrite (listedKeys_other c Hc).
Qed.

(** *** The claims about [setWorkspacePlugins] *)

(** C1 as stated fails: the empty key is written as a component with an empty
    [id], which [getWorkspacePlugins] does not list. *)
Lemma setWorkspacePlugins_empty_key_not_listed :
  let devfile := mkDevfile (Some []) "workspace" in
  wellFormedDevfile devfile
  /\ fst (setWorkspacePlugins devfile [""])
     = mkDevfile (Some [mkComponent (Some (mkPlugin None (Some ""))) []])
                 "workspace"
  /\ fst (getWorkspacePlugins (fst (setWorkspacePlugins devfile [""]))) = []
  /\ ~ (forall k,
          In k (fst (getWorkspacePlugins (fst (setWorkspacePlugins devfile [""]))))
          <-> In k [""]).
Proof.
  simpl. repeat split.
  - intros c p [].
  - intros Hall. apply (Hall ""). now left.
Qed.

(** C1, amended. For every devfile whose plugin components each have exactly
    one of [url] and [id] populated, and every list [S] of keys none of which
    is the empty string, the plugins listed by [getWorkspacePlugins] after
    [setWorkspacePlugins] are exactly the keys of [S]. *)
Theorem setWorkspacePlugins_then_getWorkspacePlugins
  (devfile : Devfile) (plugins : list string) :
  wellFormedDevfile devfile ->
  ~ In "" plugins ->
  forall k,
    In k (fst (getWorkspacePlugins (fst (setWorkspacePlugins devfile plugins))))
    <-> In k plugins.
Proof.
  intros _ Hne k.
  rewrite setWorkspacePlugins_reconcile.
  unfold getWorkspacePlugins, devfileComponentsOf at 1.
  cbn [fst components].
  rewrite fold_pushPlugin. cbn [app]. rewrite flat_map_app, in_app_iff.
  rewrite listedKeys_all_created.
  - now apply reconcile_keys.
  - intros Hempty. apply Hne.
    eapply Subsequence_In; [apply reconcile_rest_Subsequence | exact Hempty].
Qed.

Lemma setWorkspacePlugins_then_getWorkspacePlugins_witness :
  In "pub/new/1"
     (fst (getWorkspacePlugins
             (fst (setWorkspacePlugins Sample.devfile
                     ["https://x/y"; "pub/new/1"]))))
  <-> In "pub/new/1" ["https://x/y"; "pub/new/1"].
Proof.
  apply (setWorkspacePlugins_then_getWorkspacePlugins Sample.devfile
           ["https://x/y"; "pub/new/1"]).
  - intros c p Hin Hp. simpl in Hin.
    destruct Hin as [<-|[<-|[<-|[]]]]; simpl in Hp;
      inversion Hp; subst; reflexivity.
  - simpl. intros [H|[H|[]]]; discriminate.
Defined.

(** C8. [setWorkspacePlugins] leaves the components that are not plugin
    references as they are and in their order: the sequence of those
    components is the same before and after, the components kept from the
    document are in their original relative order, and everything new is a
    plugin reference placed after them. *)
Theorem setWorkspacePlugins_preserves_other_components
  (devfile : Devfile) (plugins : list string) :
  let before := devfileComponentsOf devfile in
  let after := devfileComponentsOf (fst (setWorkspacePlugins devfile plugins)) in
  filter (fun c => negb (hasPlugin c)) after
  = filter (fun c => negb (hasPlugin c)) before
  /\ exists kept added,
       after = kept ++ added
       /\ Subsequence kept before
       /\ Forall (fun c => hasPlugin c = true) added.
Proof.
  intros before after. subst before after.
  rewrite setWorkspacePlugins_reconcile.
  unfold devfileComponentsOf at 1 3. cbn [fst components]. split.
  - rewrite filter_app, filter_others_created, app_nil_r.
    apply reconcile_others.
  - eexists. eexists. split; [reflexivity|]. split.
    + apply reconcile_kept_Subsequence.
    + apply Forall_forall. intros c Hin. apply in_map_iff in Hin.
      destruct Hin as (k & <- & _). apply createPluginComponent_hasPlugin.
Qed.

Lemma removeFirst_absent k plugins :
  existsb (fun x => String.eqb x k) plugins = false ->
  removeFirst k plugins = plugins.
Proof.
  induction plugins as [|x plugins IH]; simpl; [reflexivity|].
  intros Hno. apply orb_false_iff in Hno. destruct Hno as [Hx Hno].
  rewrite Hx. now rewrite IH.
Qed.

(** The keys left are the array without the first occurrence of each
    reference id in turn. *)
Lemma reconcile_rest_removeFirst cs plugins :
  snd (reconcile (fun c => c) cs plugins)
  = fold_left (fun array id => removeFirst id array) (referenceIds cs) plugins.
Proof.
  revert plugins. induction cs as [|c cs IH]; intros plugins;
    cbn [reconcile referenceIds flat_map].
  - reflexivity.
  - destruct (plugin c) as [p|].
    + destruct (referenceId p) as [k0|]; cbn [wanted consume app].
      * cbn [fold_left].
        destruct (existsb (fun x => String.eqb x k0) plugins) eqn:Hwanted.
        -- specialize (IH (removeFirst k0 plugins)).
           now destruct (reconcile _ cs _).
        -- rewrite (removeFirst_absent _ _ Hwanted). apply IH.
      * apply IH.
    + specialize (IH plugins). now destruct (reconcile _ cs _).
Qed.

(** [referenceIds] lists the normalized reference ids of the design. *)
Lemma NormalizedIds_referenceIds cs ids :
  NormalizedIds cs ids <-> ids = referenceIds cs.
Proof.
  split.
  - induction 1 as [|c cs ids Hc _ IH|c p k cs ids Hc Hk _ IH
                    |c p cs ids Hc Hk _ IH];
      cbn [referenceIds flat_map]; [reflexivity| | |]; rewrite Hc.
    + exact IH.
    + apply NormalizedReference_referenceId in Hk. rewrite <- Hk.
      cbn [app]. now f_equal.
    + apply NormalizedReference_referenceId in Hk. rewrite <- Hk. exact IH.
  - intros ->. induction cs as [|c cs IH]; cbn [referenceIds flat_map].
    + constructor.
    + destruct (plugin c) as [p|] eqn:Hc.
      * destruct (referenceId p) as [k|] eqn:Hk; cbn [app].
        -- apply (ids_plugin c p k); [exact Hc| |exact IH].
           now apply NormalizedReference_referenceId.
        -- apply (ids_unnamed c p); [exact Hc| |exact IH].
           now apply NormalizedReference_referenceId.
      * now apply ids_other.
Qed.

(** Every sequence of components has its normalized reference ids. *)
Lemma NormalizedIds_total cs : exists ids, NormalizedIds cs ids.
Proof. exists (referenceIds cs). now apply NormalizedIds_referenceIds. Qed.

(** C10. [setWorkspacePlugins] changes the array it is given. With [ids]
    the normalized reference ids of the plugin components of the document,
    in order, as the design defines them: each id in turn that occurs in
    the array has its first occurrence taken out of the array, so that the
    array loses one occurrence of a key per component with that id, as far
    as it has any. After the call the array holds, in their order, the keys
    that are left, and for exactly these keys, in that order, a component
    was appended to the document. *)
Theorem setWorkspacePlugins_mutates_plugins
  (devfile : Devfile) (plugins ids : list string) :
  NormalizedIds (devfileComponentsOf devfile) ids ->
  let before := devfileComponentsOf devfile in
  let after := devfileComponentsOf (fst (setWorkspacePlugins devfile plugins)) in
  let remaining := snd (setWorkspacePlugins devfile plugins) in
  remaining = fold_left (fun array id => removeFirst id array) ids plugins
  /\ (forall k,
        count_occ string_dec remaining k
        = count_occ string_dec plugins k - count_occ string_dec ids k)
  /\ Subsequence remaining plugins
  /\ exists kept added,
       after = kept ++ added
       /\ Subsequence kept before
       /\ Forall2 ComponentFor remaining added.
Proof.
  intros Hids before after remaining. subst before after remaining.
  apply NormalizedIds_referenceIds in Hids. subst ids.
  rewrite setWorkspacePlugins_reconcile.
  unfold devfileComponentsOf at 3. cbn [fst snd components].
  split; [|split; [|split]].
  - apply reconcile_rest_removeFirst.
  - intros k. apply reconcile_rest_count.
  - apply reconcile_rest_Subsequence.
  - eexists. eexists. split; [reflexivity|].
    split; [apply reconcile_kept_Subsequence|].
    induction (snd (reconcile (fun c => c) (devfileComponentsOf devfile)
                      plugins)) as [|k rest IH]; cbn [map]; constructor.
    + apply ComponentFor_createPluginComponent.
    + exact IH.
Qed.

Lemma setWorkspacePlugins_mutates_plugins_witness :
  NormalizedIds (devfileComponentsOf Sample.devfile)
    ["pub/old/0.1"; "https://x/y"]%string
  /\ snd (setWorkspacePlugins Sample.devfile
            ["https://x/y"; "pub/new/1"]%string)
     = ["pub/new/1"]%string.
Proof.
  assert (Hids : NormalizedIds (devfileComponentsOf Sample.devfile)
                   ["pub/old/0.1"; "https://x/y"]%string).
  { apply (ids_plugin _ (mkPlugin None (Some "pub/old/0.1"%string)));
      [reflexivity | apply reference_by_id |].
    apply ids_other; [reflexivity|].
    apply (ids_plugin _ (mkPlugin (Some "https://x/y/meta.yaml"%string) None));
      [reflexivity | | apply ids_nil].
    apply reference_by_url; [discriminate|].
    apply (normalized_stripped "https://x/y/meta.yaml" "https://x/y");
      [|reflexivity].
    exists "x/y/meta.yaml"%string. now right. }
  split; [exact Hids|].
  exact (proj1 (setWorkspacePlugins_mutates_plugins Sample.devfile
                  ["https://x/y"; "pub/new/1"]%string
                  ["pub/old/0.1"; "https://x/y"]%string Hids)).
Defined.

(** The array of the caller is not what it was. *)
Example setWorkspacePlugins_plugins_changed :
  snd (setWorkspacePlugins Sample.devfile ["https://x/y"; "pub/new/1"])
  = ["pub/new/1"].
Proof. reflexivity. Qed.

(** Of a key listed twice, the occurrence taken out is the first. *)
Example setWorkspacePlugins_first_occurrence :
  let devfile :=
    mkDevfile (Some [mkComponent (Some (mkPlugin None (Some "a"%string))) []])
      "workspace" in
  snd (setWorkspacePlugins devfile ["a"; "b"; "a"]%string)
  = ["b"; "a"]%string.
Proof. reflexivity. Qed.

End Reconciler.

(* ================================================================= *)
(** ** Registry client: fetching a plugin document *)

Section FetchDocument.
Context `{HttpService} `{Parsers}.

Lemma fetchYaml_run (u : string) (st : State) :
  fetchYaml u st = (parsedAt (requests st) u, log_request u st).
Proof.
  unfold fetchYaml, bind, httpGet, parsedAt, liftResult.
  now destruct (http_get (requests st) u).
Qed.

Lemma metaYamlOf_cases (u : string) :
  metaYamlOf u
  = if Js.endsWith u "/" then u ++ "meta.yaml" else u ++ "/" ++ "meta.yaml".
Proof.
  unfold metaYamlOf. destruct (Js.endsWith u "/"); simpl.
  - reflexivity.
  - apply JsFacts.app_assoc.
Qed.

(** C7. [loadPluginYaml] resolves with the parsed document of the first
    request when that succeeds, and then makes no other request. When the
    first attempt fails it makes exactly one more request, to the address
    with [meta.yaml] appended, after a [/] when the address does not end
    with one; it resolves with the document parsed from that, and when
    that fails too it rejects with a message that carries the message of
    the first error. *)
Theorem loadPluginYaml_retries_once (yamlURI : string) (st : State) :
  let retryURI :=
    if Js.endsWith yamlURI "/" then yamlURI ++ "meta.yaml"
    else yamlURI ++ "/" ++ "meta.yaml" in
  let once := log_request yamlURI st in
  let twice := log_request retryURI once in
  (forall doc,
     parsedAt (requests st) yamlURI = Resolved doc ->
     loadPluginYaml yamlURI st = (Resolved doc, once))
  /\ (forall err doc,
        parsedAt (requests st) yamlURI = Rejected err ->
        parsedAt (requests st ++ [yamlURI]) retryURI = Resolved doc ->
        loadPluginYaml yamlURI st = (Resolved doc, twice))
  /\ (forall err err',
        parsedAt (requests st) yamlURI = Rejected err ->
        parsedAt (requests st ++ [yamlURI]) retryURI = Rejected err' ->
        loadPluginYaml yamlURI st
        = (Rejected (ThrownString
                       ("Unable to load plugin metadata. " ++ messageOf err)),
           twice)).
Proof.
  intros retryURI once twice. subst retryURI once twice.
  rewrite <- metaYamlOf_cases.
  unfold loadPluginYaml, try_catch. rewrite !fetchYaml_run.
  repeat split.
  - intros doc ->. reflexivity.
  - intros err doc -> Hretry. simpl requests. now rewrite Hretry.
  - intros err err' -> Hretry. simpl requests. now rewrite Hretry.
Qed.

End FetchDocument.

Lemma loadPluginYaml_retries_once_witness :
  let load := @loadPluginYaml Sample.http Sample.parsers in
  load "http://reg/a/plugins/pub/pl/1.0/" Sample.attached
  = (Resolved (Some Sample.document),
     log_request "http://reg/a/plugins/pub/pl/1.0/" Sample.attached)
  /\ load "http://reg/b/v3/plugins/pub/pl/1.0" Sample.attached
     = (Resolved (Some Sample.document),
        log_request "http://reg/b/v3/plugins/pub/pl/1.0/meta.yaml"
          (log_request "http://reg/b/v3/plugins/pub/pl/1.0" Sample.attached))
  /\ load "http://reg/c/" Sample.attached
     = (Rejected (ThrownString "Unable to load plugin metadata. Network Error"),
        log_request "http://reg/c/meta.yaml"
          (log_request "http://reg/c/" Sample.attached)).
Proof.
  split; [|split].
  - apply (@loadPluginYaml_retries_once Sample.http Sample.parsers
             "http://reg/a/plugins/pub/pl/1.0/" Sample.attached).
    reflexivity.
  - apply (proj1 (proj2 (@loadPluginYaml_retries_once Sample.http Sample.parsers
             "http://reg/b/v3/plugins/pub/pl/1.0" Sample.attached))
             (ErrorObject "Network Error")); reflexivity.
  - apply (proj2 (proj2 (@loadPluginYaml_retries_once Sample.http Sample.parsers
             "http://reg/c/" Sample.attached))
             (ErrorObject "Network Error") (ErrorObject "Network Error"));
      reflexivity.
Defined.

(** ** Concrete runs of the other claims *)

Lemma loadPluginMetadata_key_witness :
  (exists pluginMetadata,
     fst (@loadPluginMetadata Sample.http Sample.parsers
            "http://reg/b/v3/plugins/pub/pl/1.0/meta.yaml" true "http://pub/b"
            Sample.attached)
     = Resolved pluginMetadata
     /\ key pluginMetadata = "http://reg/b/v3/plugins/pub/pl/1.0")
  /\ fst (@loadPluginMetadata Sample.http Sample.parsers
            "http://reg/b/v3/plugins/pub/bare/1.0/meta.yaml" true
            "http://pub/b" Sample.attached)
     = Rejected (ThrownString
                   "Unable to load plugin metadata. Cannot read properties of undefined").
Proof.
  split.
  - destruct (@loadPluginMetadata_key Sample.http Sample.parsers
                "http://reg/b/v3/plugins/pub/pl/1.0/meta.yaml" true
                "http://pub/b" Sample.attached
                (log_request "http://reg/b/v3/plugins/pub/pl/1.0/meta.yaml"
                   Sample.attached)
                Sample.document eq_refl)
      as (Hkey & Hresolves & _).
    destruct Hresolves as (pluginMetadata & Hrun & _); [discriminate|].
    exists pluginMetadata. split.
    + now rewrite Hrun.
    + destruct (Hkey pluginMetadata _ Hrun) as (_ & _ & _ & Hmeta & _).
      apply (Hmeta eq_refl "http://reg/b/v3/plugins/"); reflexivity.
  - destruct (@loadPluginMetadata_key Sample.http Sample.parsers
                "http://reg/b/v3/plugins/pub/bare/1.0/meta.yaml" true
                "http://pub/b" Sample.attached
                (log_request "http://reg/b/v3/plugins/pub/bare/1.0/meta.yaml"
                   Sample.attached)
                Sample.bare eq_refl)
      as (_ & _ & Hrejects).
    now rewrite (Hrejects eq_refl).
Defined.

(** An empty document is [undefined], and reading its [publisher] makes
    [loadPluginMetadata] reject in the same way. *)
Example loadPluginMetadata_empty_document :
  fst (@loadPluginMetadata Sample.http Sample.parsers
         "http://reg/b/v3/plugins/pub/none/1.0/meta.yaml" true "http://pub/b"
         Sample.attached)
  = Rejected (ThrownString
                "Unable to load plugin metadata. Cannot read properties of undefined").
Proof.
  now rewrite (@loadPluginMetadata_undefined Sample.http Sample.parsers
                 "http://reg/b/v3/plugins/pub/none/1.0/meta.yaml" true
                 "http://pub/b" Sample.attached
                 (log_request "http://reg/b/v3/plugins/pub/none/1.0/meta.yaml"
                    Sample.attached) eq_refl).
Qed.

Lemma getPluginYamlURI_default_registry_witness :
  @getPluginYamlURI Sample.parsers (Some Sample.regA) Sample.regA Sample.summary
  = Resolved "http://reg/a/plugins/pub/pl/1.0/".
Proof.
  apply (@getPluginYamlURI_default_registry Sample.parsers Sample.regA
           Sample.regA Sample.summary
           (fun link => if String.eqb link "self"
                        then Some "/v3/plugins/pub/pl/1.0" else None)
           "/v3/plugins/pub/pl/1.0");
    reflexivity.
Defined.

Lemma getBaseDirectory_trailing_slash_witness :
  let registry := mkRegistry "r" "http://reg/a/" "http://reg/a" in
  getBaseDirectory registry = "http://reg/a/"
  /\ Js.endsWith (getBaseDirectory registry) "/" = true
  /\ Js.endsWith (getBaseDirectory registry) "//" = false.
Proof.
  apply (getBaseDirectory_trailing_slash
           (mkRegistry "r" "http://reg/a/" "http://reg/a"));
    reflexivity.
Defined.

(** C5 as stated fails: [getPlugins] returns an entry whose type is
    [editor]; the type it leaves out is [Che Editor]. *)
Lemma getPlugins_returns_type_editor :
  ~ (forall (F : PluginFilter) (cachedPlugins : list ChePluginMetadata)
            (filter : string),
        Forall (fun plugin => type plugin <> "editor")
               (getPlugins cachedPlugins filter)).
Proof.
  intros Hnever.
  pose (entry := mkMetadata "pub" "ed" "1.0" "editor" "" "" "" "" "" "" "" ""
                   "" "pub/ed/1.0" false).
  specialize (Hnever Sample.noFilter [entry] "").
  inversion Hnever as [|x l Htype _]. now apply Htype.
Qed.

(** A non-empty filter expression does not change that. *)
Example getPlugins_sample :
  @getPlugins Sample.noFilter
    [Sample.doc;
     mkMetadata "pub" "ed" "1.0" "Che Editor" "" "" "" "" "" "" "" "" ""
       "pub/ed/1.0" false]
    "pl"
  = [Sample.doc].
Proof. reflexivity. Qed.

(* ================================================================= *)
(** ** Cache builder: notifications and failures *)

Section Logs.
Local Open Scope list_scope.

Lemma Grew_refl st : Grew st st [] [].
Proof. unfold Grew. now rewrite !app_nil_r. Qed.

Lemma Grew_trans st1 st2 st3 e1 e2 q1 q2 :
  Grew st1 st2 e1 q1 -> Grew st2 st3 e2 q2 ->
  Grew st1 st3 (e1 ++ e2) (q1 ++ q2).
Proof.
  intros (Hn1 & He1 & Hq1) (Hn2 & He2 & Hq2). repeat split.
  - now rewrite Hn2, Hn1, List.app_assoc.
  - now apply Forall_app.
  - now rewrite Hq2, Hq1, List.app_assoc.
Qed.

Lemma Steady_ret {A} (a : A) : Steady (ret a).
Proof.
  intros st r st' Hrun. inversion Hrun; subst.
  exists [], []. apply Grew_refl.
Qed.

Lemma Steady_throw {A} (e : JsError) : Steady (@throw A e).
Proof.
  intros st r st' Hrun. inversion Hrun; subst.
  exists [], []. apply Grew_refl.
Qed.

Lemma Steady_liftResult {A} (res : Result A) : Steady (liftResult res).
Proof.
  intros st r st' Hrun. inversion Hrun; subst.
  exists [], []. apply Grew_refl.
Qed.

Lemma Steady_gets {A} (f : State -> A) : Steady (gets f).
Proof.
  intros st r st' Hrun. inversion Hrun; subst.
  exists [], []. apply Grew_refl.
Qed.

Lemma Steady_modify (f : State -> State) :
  (forall st, notifications (f st) = notifications st
              /\ requests (f st) = requests st) ->
  Steady (modify f).
Proof.
  intros Hf st r st' Hrun. inversion Hrun; subst.
  destruct (Hf st) as [Hn Hq].
  exists [], []. unfold Grew. now rewrite Hn, Hq, !app_nil_r.
Qed.

Lemma Steady_notify (n : Notification) :
  isCachingComplete n = false -> Steady (notify n).
Proof.
  intros Hn st r st' Hrun. inversion Hrun; subst.
  exists [n], []. unfold Grew. simpl. rewrite app_nil_r. auto.
Qed.

Lemma Steady_httpGet `{HttpService} (u : string) : Steady (httpGet u).
Proof.
  intros st r st' Hrun. inversion Hrun; subst.
  exists [], [u]. unfold Grew. simpl. rewrite app_nil_r. auto.
Qed.

Lemma Steady_bind {A B} (m : M A) (k : A -> M B) :
  Steady m -> (forall a, Steady (k a)) -> Steady (bind m k).
Proof.
  intros Hm Hk st r st' Hrun. unfold bind in Hrun.
  destruct (m st) as [[a|e] st1] eqn:Hfirst.
  - destruct (Hm _ _ _ Hfirst) as (e1 & q1 & H1).
    destruct (Hk a _ _ _ Hrun) as (e2 & q2 & H2).
    eexists. eexists. eapply Grew_trans; eassumption.
  - inversion Hrun; subst. eapply Hm; eassumption.
Qed.

Lemma Steady_try_catch {A} (m : M A) (handler : JsError -> M A) :
  Steady m -> (forall e, Steady (handler e)) -> Steady (try_catch m handler).
Proof.
  intros Hm Hh st r st' Hrun. unfold try_catch in Hrun.
  destruct (m st) as [[a|e] st1] eqn:Hfirst.
  - inversion Hrun; subst. eapply Hm; eassumption.
  - destruct (Hm _ _ _ Hfirst) as (e1 & q1 & H1).
    destruct (Hh e _ _ _ Hrun) as (e2 & q2 & H2).
    eexists. eexists. eapply Grew_trans; eassumption.
Qed.

Lemma RequestsFirst_httpGet `{HttpService} (u : string) :
  RequestsFirst u (httpGet u).
Proof.
  intros st r st' Hrun. inversion Hrun; subst.
  exists [], []. unfold Grew. simpl. rewrite app_nil_r. auto.
Qed.

Lemma RequestsFirst_bind {A B} u (m : M A) (k : A -> M B) :
  RequestsFirst u m -> (forall a, Steady (k a)) -> RequestsFirst u (bind m k).
Proof.
  intros Hm Hk st r st' Hrun. unfold bind in Hrun.
  destruct (m st) as [[a|e] st1] eqn:Hfirst.
  - destruct (Hm _ _ _ Hfirst) as (e1 & q1 & H1).
    destruct (Hk a _ _ _ Hrun) as (e2 & q2 & H2).
    exists (e1 ++ e2), (q1 ++ q2).
    apply (Grew_trans _ _ _ _ _ _ _ H1 H2).
  - inversion Hrun; subst. eapply Hm; eassumption.
Qed.

Lemma RequestsFirst_try_catch {A} u (m : M A) (handler : JsError -> M A) :
  RequestsFirst u m -> (forall e, Steady (handler e)) ->
  RequestsFirst u (try_catch m handler).
Proof.
  intros Hm Hh st r st' Hrun. unfold try_catch in Hrun.
  destruct (m st) as [[a|e] st1] eqn:Hfirst.
  - inversion Hrun; subst. eapply Hm; eassumption.
  - destruct (Hm _ _ _ Hfirst) as (e1 & q1 & H1).
    destruct (Hh e _ _ _ Hrun) as (e2 & q2 & H2).
    exists (e1 ++ e2), (q1 ++ q2).
    apply (Grew_trans _ _ _ _ _ _ _ H1 H2).
Qed.

Lemma Resolves_try_catch {A} (m : M A) (handler : JsError -> M A) :
  (forall e, Resolves (handler e)) -> Resolves (try_catch m handler).
Proof.
  intros Hh st. unfold try_catch.
  destruct (m st) as [[a|e] st1]; [eauto | apply Hh].
Qed.

Lemma Resolves_notify (n : Notification) : Resolves (notify n).
Proof. intros st. eexists. eexists. reflexivity. Qed.

End Logs.

(** Decomposes a goal [Steady m] along the structure of [m]. *)
Ltac steady :=
  repeat first
    [ assumption
    | match goal with
      | known : context [Steady] |- Steady _ => apply known
      end
    | apply Steady_ret
    | apply Steady_throw
    | apply Steady_liftResult
    | apply Steady_gets
    | apply Steady_httpGet
    | apply Steady_notify; reflexivity
    | apply Steady_modify; intros; split; reflexivity
    | apply Steady_bind; [| intros ?]
    | apply Steady_try_catch; [| intros ?]
    | match goal with
      | |- Steady (match ?x with _ => _ end) => destruct x
      end ].

Section CacheBuilder.
Context {http : HttpService} {workspace : WorkspaceService}
        {parsers : Parsers}.
Local Open Scope list_scope.

Lemma Steady_loadPluginMetadata yamlURI longKeyFormat pluginRegistryURI :
  Steady (loadPluginMetadata yamlURI longKeyFormat pluginRegistryURI).
Proof. unfold loadPluginMetadata, loadPluginYaml, fetchYaml. steady. Qed.

Lemma Steady_cachePlugin registry longKeyFormat metadataInternal :
  Steady (cachePlugin registry longKeyFormat metadataInternal).
Proof.
  unfold cachePlugin.
  pose proof Steady_loadPluginMetadata. steady.
Qed.

Lemma Steady_cachePlugins registry longKeyFormat registryPlugins :
  Steady (cachePlugins registry longKeyFormat registryPlugins).
Proof.
  induction registryPlugins as [|metadataInternal rest IH]; simpl.
  - steady.
  - pose proof Steady_cachePlugin. steady.
Qed.

Lemma RequestsFirst_cacheRegistry registry :
  RequestsFirst (uri registry ++ "/plugins/")%string (cacheRegistry registry).
Proof.
  unfold cacheRegistry, loadPluginList.
  pose proof Steady_cachePlugins.
  apply RequestsFirst_try_catch; [|intros ?; steady].
  apply RequestsFirst_bind; [|intros ?; steady].
  apply RequestsFirst_bind; [|intros ?; steady].
  apply RequestsFirst_httpGet.
Qed.

Lemma Resolves_cacheRegistry registry : Resolves (cacheRegistry registry).
Proof.
  unfold cacheRegistry. apply Resolves_try_catch.
  intros e. apply Resolves_notify.
Qed.

Lemma ownKey_In registries registryName (registry : ChePluginRegistry) :
  In (registryName, registry) registries ->
  ownKey registries registryName = true.
Proof.
  intros Hin. unfold ownKey. apply existsb_exists.
  exists (registryName, registry). split; [exact Hin|]. apply String.eqb_refl.
Qed.

Lemma hasOwnProperty_own registries registryName (registry : ChePluginRegistry) st :
  ownKey registries "hasOwnProperty" = false ->
  In (registryName, registry) registries ->
  hasOwnProperty registries registryName st = (Resolved true, st).
Proof.
  intros Hmethod Hin. unfold hasOwnProperty. rewrite Hmethod.
  now rewrite (ownKey_In _ _ _ Hin).
Qed.

(** Unless a registry is named [hasOwnProperty], the loop over the
    registries never rejects, asks every registry for its index, and sends
    no [CachingComplete]. *)
Lemma cacheRegistries_run registries remaining st :
  ownKey registries "hasOwnProperty" = false ->
  incl remaining registries ->
  exists st' events asked,
    cacheRegistries registries remaining st = (Resolved tt, st')
    /\ Grew st st' events asked
    /\ forall registryName registry,
         In (registryName, registry) remaining ->
         In (uri registry ++ "/plugins/")%string asked.
Proof.
  intros Hmethod. revert st.
  induction remaining as [|[registryName registry] rest IH];
    intros st Hincl; cbn [cacheRegistries].
  - exists st, [], []. split; [reflexivity|]. split; [apply Grew_refl|].
    intros ? ? [].
  - unfold bind at 1.
    rewrite (hasOwnProperty_own registries registryName registry st Hmethod)
      by (apply Hincl; now left).
    cbn [negb]. unfold bind at 1.
    destruct (Resolves_cacheRegistry registry st) as ([] & st1 & Hfirst).
    rewrite Hfirst.
    destruct (RequestsFirst_cacheRegistry registry _ _ _ Hfirst)
      as (e1 & q1 & Hgrew1).
    destruct (IH st1) as (st2 & e2 & q2 & Hrest & Hgrew2 & Hasked).
    { intros x Hx. apply Hincl. now right. }
    exists st2, (e1 ++ e2), ((uri registry ++ "/plugins/")%string :: q1 ++ q2).
    split; [exact Hrest|]. split.
    + apply (Grew_trans _ _ _ _ _ _ _ Hgrew1 Hgrew2).
    + intros n r [Heq|Hin].
      * inversion Heq; subst. now left.
      * right. apply in_or_app. right. eapply Hasked; eassumption.
Qed.

Lemma getDefaultRegistry_resolves st :
  defaultRegistryAvailable st ->
  exists registry st',
    getDefaultRegistry st = (Resolved registry, st')
    /\ notifications st' = notifications st
    /\ requests st' = requests st.
Proof.
  intros Havailable. unfold getDefaultRegistry, bind, gets.
  destruct (defaultRegistry st) as [known|] eqn:Hknown.
  - exists known, st. now split.
  - destruct Havailable as [Hsome|(settings & publicUri & Hsettings & Hpublic)];
      [congruence|].
    rewrite Hsettings, Hpublic.
    destruct (Js.truthy (settings PLUGIN_REGISTRY_INTERNAL_URL)) eqn:Hinternal.
    + destruct (settings PLUGIN_REGISTRY_INTERNAL_URL) as [internal|];
        [|discriminate].
      eexists. eexists. split; [reflexivity|]. now split.
    + eexists. eexists. split; [reflexivity|]. now split.
Qed.

Lemma no_CachingComplete (events : list Notification) :
  Forall (fun n => isCachingComplete n = false) events ->
  ~ In CachingComplete events.
Proof.
  intros Hall Hin. rewrite Forall_forall in Hall.
  apply Hall in Hin. discriminate.
Qed.

(** The part of [updateCache] that follows the resolution of the default
    registry. *)
Lemma updateCache_cycle registries st :
  ownKey registries "hasOwnProperty" = false ->
  exists before events asked,
    (modify (set_availablePlugins 0) ;;
     notify (PluginCacheSizeChanged 0) ;;
     cacheRegistries registries registries ;;
     notify CachingComplete) st
    = (Resolved tt, log_notification CachingComplete before)
    /\ notifications before = notifications st ++ events
    /\ ~ In CachingComplete events
    /\ requests before = requests st ++ asked
    /\ forall registryName registry,
         In (registryName, registry) registries ->
         In (uri registry ++ "/plugins/")%string asked.
Proof.
  intros Hmethod.
  unfold bind at 1. unfold modify at 1. unfold bind at 1. unfold notify at 1.
  unfold modify at 1. unfold bind at 1.
  destruct (cacheRegistries_run registries registries
              (log_notification (PluginCacheSizeChanged 0)
                 (set_availablePlugins 0 st)) Hmethod (incl_refl _))
    as (st1 & events & asked & Hrun & (Hn & Hevents & Hq) & Hasked).
  rewrite Hrun.
  exists st1, (PluginCacheSizeChanged 0 :: events), asked.
  split; [reflexivity|]. simpl in *. repeat split.
  - rewrite Hn, <- !List.app_assoc. reflexivity.
  - intros [Hhead|Htail]; [discriminate|].
    now apply (no_CachingComplete events).
  - exact Hq.
  - exact Hasked.
Qed.

(** C3, amended. When a client is attached, the default registry is known
    or can be resolved from the workspace settings, and no registry is
    named [hasOwnProperty], [updateCache] resolves, whatever the registries
    answer and however many index and document requests fail. Its last step
    is the notification [CachingComplete]; before it every registry has been
    asked for its index, and no other notification of the run is
    [CachingComplete]: the client receives it exactly once, last. *)
Theorem updateCache_completes registries st :
  client st = true ->
  defaultRegistryAvailable st ->
  ownKey registries "hasOwnProperty" = false ->
  exists before events asked,
    updateCache registries st
    = (Resolved tt, log_notification CachingComplete before)
    /\ notifications before = notifications st ++ events
    /\ notifications (log_notification CachingComplete before)
       = notifications st ++ events ++ [CachingComplete]
    /\ ~ In CachingComplete events
    /\ requests before = requests st ++ asked
    /\ forall registryName registry,
         In (registryName, registry) registries ->
         In (uri registry ++ "/plugins/")%string asked.
Proof.
  intros Hclient Havailable Hmethod.
  assert (Hcycle : forall st1,
    notifications st1 = notifications st -> requests st1 = requests st ->
    exists before events asked,
      (modify (set_availablePlugins 0) ;;
       notify (PluginCacheSizeChanged 0) ;;
       cacheRegistries registries registries ;;
       notify CachingComplete) st1
      = (Resolved tt, log_notification CachingComplete before)
      /\ notifications before = notifications st ++ events
      /\ notifications (log_notification CachingComplete before)
         = notifications st ++ events ++ [CachingComplete]
      /\ ~ In CachingComplete events
      /\ requests before = requests st ++ asked
      /\ forall registryName registry,
           In (registryName, registry) registries ->
           In (uri registry ++ "/plugins/")%string asked).
  { intros st1 Hn Hq.
    destruct (updateCache_cycle registries st1 Hmethod)
      as (before & events & asked & Hrun & Hnb & Hno & Hqb & Hasked).
    exists before, events, asked. rewrite Hn in Hnb. rewrite Hq in Hqb.
    repeat (split; [assumption|]). split; [|now repeat split].
    cbn [notifications log_notification]. now rewrite Hnb, List.app_assoc. }
  unfold updateCache. unfold bind at 1. unfold gets at 1.
  rewrite Hclient. cbn [negb].
  unfold bind at 1. unfold modify at 1.
  unfold bind at 1. unfold bind at 1. unfold gets at 1.
  cbn [defaultRegistry set_cachedPlugins].
  destruct (defaultRegistry st) as [known|] eqn:Hknown.
  - unfold ret at 1. now apply Hcycle.
  - unfold bind at 1.
    destruct (getDefaultRegistry_resolves (set_cachedPlugins [] st))
      as (registry & st1 & Hresolved & Hn & Hq).
    { destruct Havailable as [Hsome|Hsettings]; [congruence|].
      right. exact Hsettings. }
    rewrite Hresolved. unfold ret at 1. now apply Hcycle.
Qed.

End CacheBuilder.

Lemma updateCache_completes_witness :
  exists before events asked,
    @updateCache Sample.http Sample.settings Sample.parsers
      Sample.registries Sample.attached
    = (Resolved tt, log_notification CachingComplete before)
    /\ notifications before = (notifications Sample.attached ++ events)%list
    /\ notifications (log_notification CachingComplete before)
       = (notifications Sample.attached ++ events ++ [CachingComplete])%list
    /\ ~ In CachingComplete events
    /\ requests before = (requests Sample.attached ++ asked)%list
    /\ forall registryName registry,
         In (registryName, registry) Sample.registries ->
         In (uri registry ++ "/plugins/") asked.
Proof.
  apply (@updateCache_completes Sample.http Sample.settings Sample.parsers
           Sample.registries Sample.attached).
  - reflexivity.
  - right. eexists. exists "http://pub/a/". split; reflexivity.
  - reflexivity.
Defined.

(** C3 as stated fails: with a client attached, a failure to read the
    workspace settings rejects [updateCache] before any registry is
    processed, and the client receives no [CachingComplete]. *)
Lemma updateCache_rejects_without_settings :
  client Sample.attached = true
  /\ exists st',
       @updateCache Sample.http Sample.noSettings Sample.parsers
         Sample.registries Sample.attached
       = (Rejected (ThrownString
            "Unable to get default plugin registry URI. Workspace is stopped"),
          st')
       /\ ~ In CachingComplete (notifications st')
       /\ requests st' = [].
Proof.
  split; [reflexivity|]. eexists. split; [reflexivity|].
  split; [intros [] | reflexivity].
Qed.

(** A registry named [hasOwnProperty] ends the run at the first turn of the
    loop: [updateCache] rejects with the [TypeError], after the first size
    notification, and the client receives no [CachingComplete]. *)
Example updateCache_registry_named_hasOwnProperty :
  let registries := [("hasOwnProperty", Sample.regA)] in
  exists st',
    @updateCache Sample.http Sample.settings Sample.parsers registries
      Sample.attached
    = (Rejected (ErrorObject "registries.hasOwnProperty is not a function"),
       st')
    /\ notifications st' = [PluginCacheSizeChanged 0]
    /\ requests st' = [].
Proof. eexists. split; [reflexivity|]. split; reflexivity. Qed.

(** The scenario of the design: the index of one registry cannot be fetched,
    the other registry lists one plugin. *)
Example updateCache_sample_notifications :
  notifications
    (snd (@updateCache Sample.http Sample.settings Sample.parsers
            Sample.registries Sample.attached))
  = [PluginCacheSizeChanged 0; InvalidRegistryFound Sample.regB;
     PluginCacheSizeChanged 1; PluginCached 1; CachingComplete].
Proof. reflexivity. Qed.

(* ================================================================= *)
(** ** Devfile reconciler: further properties *)

Section ReconcilerMore.
Local Open Scope list_scope.

Lemma normalizeId_nonempty (id : string) :
  id <> ""%string -> normalizeId id <> ""%string.
Proof.
  intros Hid. unfold normalizeId.
  destruct (isAbsoluteUrl id && Js.endsWith id meta_yaml) eqn:Hstrip;
    [|exact Hid].
  apply andb_true_iff in Hstrip. destruct Hstrip as [Habs Hends].
  apply JsFacts.endsWith_iff in Hends. destruct Hends as [pre ->].
  rewrite JsFacts.substring_cut. intros ->. discriminate.
Qed.

(** What [getWorkspacePlugins] reads from a component is its reference id,
    when that is a string that is not empty, and nothing otherwise. *)
Lemma listedKeys_cases (c : DevfileComponent) :
  (listedKeys c = []
   /\ forall p k, plugin c = Some p -> referenceId p = Some k -> k = ""%string)
  \/ exists p k, plugin c = Some p /\ referenceId p = Some k
                 /\ k <> ""%string /\ listedKeys c = [k].
Proof.
  unfold listedKeys, pushPlugin.
  destruct (plugin c) as [p|]; [|left; split; [reflexivity | discriminate]].
  destruct (Js.truthy (plugin_url p)) eqn:Hurl.
  - destruct (plugin_url p) as [u|] eqn:Hu; [|discriminate].
    right. exists p, (normalizeId u).
    split; [reflexivity|]. split; [|split; [|reflexivity]].
    + unfold referenceId. now rewrite Hu, Hurl.
    + apply normalizeId_nonempty. now apply JsFacts.truthy_Some.
  - destruct (Js.truthy (plugin_id p)) eqn:Hid.
    + destruct (plugin_id p) as [i|] eqn:Hi; [|discriminate].
      right. exists p, i.
      split; [reflexivity|]. split; [|split; [|reflexivity]].
      * unfold referenceId. now rewrite Hurl.
      * now apply JsFacts.truthy_Some.
    + left. split; [reflexivity|].
      intros p' k Hp Hk. inversion Hp; subst p'.
      unfold referenceId in Hk. rewrite Hurl in Hk.
      rewrite Hk in Hid. simpl in Hid.
      apply negb_false_iff, String.eqb_eq in Hid. exact Hid.
Qed.

Lemma listedKeys_wellFormed (c : DevfileComponent) p :
  plugin c = Some p -> exactlyOnePopulated p = true ->
  exists k, referenceId p = Some k /\ k <> ""%string /\ listedKeys c = [k].
Proof.
  intros Hc Hone.
  destruct (listedKeys_cases c) as [[Hnone _]|(p' & k & Hp' & Hk & Hne & Hl)].
  - exfalso. unfold listedKeys, pushPlugin in Hnone. rewrite Hc in Hnone.
    unfold exactlyOnePopulated in Hone.
    destruct (Js.truthy (plugin_url p)) eqn:Hurl.
    + destruct (plugin_url p); [discriminate Hnone | discriminate Hurl].
    + destruct (Js.truthy (plugin_id p)) eqn:Hid; [|discriminate Hone].
      destruct (plugin_id p); [discriminate Hnone | discriminate Hid].
  - rewrite Hc in Hp'. inversion Hp'; subst p'. eauto.
Qed.

(** X4. [getWorkspacePlugins] never lists the empty key, lists at most one
    key for each plugin component of the devfile, and reads the same from
    the devfile it hands back, in which the components are materialised. *)
Theorem getWorkspacePlugins_keys (devfile : Devfile) :
  ~ In ""%string (fst (getWorkspacePlugins devfile))
  /\ List.length (fst (getWorkspacePlugins devfile))
     <= List.length (filter hasPlugin (devfileComponentsOf devfile))
  /\ getWorkspacePlugins (snd (getWorkspacePlugins devfile))
     = getWorkspacePlugins devfile.
Proof.
  split; [|split]; [| |reflexivity];
    unfold getWorkspacePlugins; cbn [fst snd]; rewrite fold_pushPlugin;
    cbn [app].
  - induction (devfileComponentsOf devfile) as [|c cs IH]; simpl; [tauto|].
    rewrite in_app_iff. intros [Hin|Hin]; [|now apply IH].
    destruct (listedKeys_cases c) as [[Hnone _]|(p & k & _ & _ & Hne & Hl)].
    + rewrite Hnone in Hin. contradiction.
    + rewrite Hl in Hin. destruct Hin as [Hin|[]]. now apply Hne.
  - induction (devfileComponentsOf devfile) as [|c cs IH]; simpl; [lia|].
    rewrite length_app.
    destruct (listedKeys_cases c) as [[Hnone _]|(p & k & Hp & _ & _ & Hl)].
    + rewrite Hnone. simpl. destruct (hasPlugin c); simpl; lia.
    + rewrite Hl. unfold hasPlugin at 1. rewrite Hp. simpl. lia.
Qed.

Lemma wanted_head k plugins : wanted (k :: plugins) (Some k) = true.
Proof. simpl. now rewrite String.eqb_refl. Qed.

Lemma consume_head k plugins : consume (k :: plugins) (Some k) = plugins.
Proof. simpl. now rewrite String.eqb_refl. Qed.

Lemma not_wanted plugins k :
  ~ In k plugins -> wanted plugins (Some k) = false.
Proof.
  intros Hout. destruct (wanted plugins (Some k)) eqn:Hw; [|reflexivity].
  apply wanted_In in Hw. destruct Hw as (k' & Heq & Hin).
  inversion Heq; subst. contradiction.
Qed.

(** The heart of the three operations on one plugin: when the wanted keys are
    the listed keys that satisfy [keep], followed by keys [extra] that
    satisfy it too, the reference algorithm keeps the components that
    [keepsComponent] selects and leaves [extra]. *)
Lemma reconcile_selected (keep : string -> bool) (extra : list string)
  (cs : list DevfileComponent) :
  (forall c p, In c cs -> plugin c = Some p -> exactlyOnePopulated p = true) ->
  (forall k, In k extra -> keep k = true) ->
  reconcile (fun c => c) cs (filter keep (flat_map listedKeys cs) ++ extra)
  = (filter (keepsComponent keep) cs, extra).
Proof.
  intros Hwf Hextra. induction cs as [|c cs IH]; [reflexivity|].
  assert (IH' := IH (fun c' p Hin => Hwf c' p (or_intror Hin))). clear IH.
  cbn [reconcile flat_map filter]. unfold keepsComponent at 1.
  destruct (plugin c) as [p|] eqn:Hc.
  - destruct (listedKeys_wellFormed c p Hc (Hwf c p (or_introl eq_refl) Hc))
      as (k & Hk & _ & Hl).
    rewrite Hl, Hk. cbn [app filter].
    destruct (keep k) eqn:Hkeep.
    + cbn [app]. rewrite wanted_head, consume_head, IH'. reflexivity.
    + rewrite not_wanted; [exact IH'|].
      rewrite in_app_iff, filter_In. intros [[_ Hin]|Hin]; [congruence|].
      apply Hextra in Hin. congruence.
  - rewrite (listedKeys_other c Hc). cbn [app]. rewrite IH'. reflexivity.
Qed.

Lemma setWorkspacePlugins_selected (keep : string -> bool)
  (extra : list string) (devfile : Devfile) :
  wellFormedDevfile devfile ->
  (forall k, In k extra -> keep k = true) ->
  setWorkspacePlugins devfile
    (filter keep (fst (getWorkspacePlugins devfile)) ++ extra)
  = (mkDevfile
       (Some (filter (keepsComponent keep) (devfileComponentsOf devfile)
              ++ map createPluginComponent extra))
       (metadata devfile),
     extra).
Proof.
  intros Hwf Hextra. rewrite setWorkspacePlugins_reconcile.
  unfold getWorkspacePlugins. cbn [fst]. rewrite fold_pushPlugin. cbn [app].
  now rewrite (reconcile_selected keep extra _ Hwf Hextra).
Qed.

Lemma filter_all {A} (xs : list A) : filter (fun _ => true) xs = xs.
Proof. induction xs as [|x xs IH]; simpl; [reflexivity | now rewrite IH]. Qed.

Lemma keepsComponent_all (cs : list DevfileComponent) :
  (forall c p, In c cs -> plugin c = Some p -> exactlyOnePopulated p = true) ->
  filter (keepsComponent (fun _ => true)) cs = cs.
Proof.
  induction cs as [|c cs IH]; intros Hwf; simpl; [reflexivity|].
  rewrite IH by (intros c' p Hin; apply Hwf; now right).
  unfold keepsComponent. destruct (plugin c) as [p|] eqn:Hc; [|reflexivity].
  destruct (listedKeys_wellFormed c p Hc (Hwf c p (or_introl eq_refl) Hc))
    as (k & -> & _). reflexivity.
Qed.

(** X2. Writing back the plugin list that was just read changes nothing: for
    a devfile whose plugin components each have exactly one of [url] and
    [id] populated, [setWorkspacePlugins] with the result of
    [getWorkspacePlugins] hands the same components to [updateDevfile], in
    the same order, and empties the array it was given. *)
Theorem setWorkspacePlugins_of_getWorkspacePlugins (devfile : Devfile) :
  wellFormedDevfile devfile ->
  setWorkspacePlugins devfile (fst (getWorkspacePlugins devfile))
  = (mkDevfile (Some (devfileComponentsOf devfile)) (metadata devfile), []).
Proof.
  intros Hwf.
  pose proof (setWorkspacePlugins_selected (fun _ => true) [] devfile Hwf)
    as Hsel.
  rewrite filter_all, !app_nil_r, (keepsComponent_all _ Hwf) in Hsel.
  apply Hsel. intros k [].
Qed.

Lemma setWorkspacePlugins_of_getWorkspacePlugins_witness :
  setWorkspacePlugins Workspace.devfile
    (fst (getWorkspacePlugins Workspace.devfile))
  = (Workspace.devfile, []).
Proof.
  apply (setWorkspacePlugins_of_getWorkspacePlugins Workspace.devfile).
  intros c p Hin Hp. simpl in Hin.
  destruct Hin as [<-|[<-|[<-|[]]]]; simpl in Hp;
    inversion Hp; subst; reflexivity.
Defined.

Lemma reconcile_nothing_wanted (cs : list DevfileComponent) :
  reconcile (fun c => c) cs [] = (filter (fun c => negb (hasPlugin c)) cs, []).
Proof.
  induction cs as [|c cs IH]; simpl; [reflexivity|].
  unfold hasPlugin at 1. destruct (plugin c) as [p|].
  - destruct (referenceId p); simpl; exact IH.
  - rewrite IH. reflexivity.
Qed.

(** X3. With an empty list of plugins, [setWorkspacePlugins] removes every
    plugin component, whatever its reference, keeps all other components in
    their order, and appends nothing. *)
Theorem setWorkspacePlugins_no_plugins (devfile : Devfile) :
  setWorkspacePlugins devfile []
  = (mkDevfile
       (Some (filter (fun c => negb (hasPlugin c)) (devfileComponentsOf devfile)))
       (metadata devfile),
     []).
Proof.
  rewrite setWorkspacePlugins_reconcile, reconcile_nothing_wanted.
  cbn [fst snd map]. now rewrite app_nil_r.
Qed.

Lemma reconcile_kept_wanted cs plugins c p :
  In c (fst (reconcile (fun c => c) cs plugins)) -> plugin c = Some p ->
  exists k, referenceId p = Some k /\ In k plugins.
Proof.
  revert plugins. induction cs as [|c0 cs IH]; intros plugins Hin Hp;
    cbn [reconcile] in Hin.
  - destruct Hin.
  - destruct (plugin c0) as [p0|] eqn:Hc0.
    + destruct (wanted plugins (referenceId p0)) eqn:Hw.
      * pose proof (IH (consume plugins (referenceId p0))) as IH'.
        destruct (reconcile _ cs (consume plugins (referenceId p0)))
          as [kept rest]. cbn [fst] in *.
        destruct Hin as [->|Hin].
        -- rewrite Hc0 in Hp. inversion Hp; subst p0.
           now apply wanted_In.
        -- destruct (IH' Hin Hp) as (k & Hk & Hin').
           exists k. split; [exact Hk|].
           eapply Subsequence_In; [apply consume_Subsequence | exact Hin'].
      * now apply IH.
    + pose proof (IH plugins) as IH'.
      destruct (reconcile _ cs plugins) as [kept rest]. cbn [fst] in *.
      destruct Hin as [->|Hin]; [congruence | now apply IH'].
Qed.

(** X5. After [setWorkspacePlugins], every plugin component of the document
    has a reference id, and that id is one of the given plugins: a plugin
    component without [url] and [id], or with any other reference, does not
    survive. This holds for every devfile and every list. *)
Theorem setWorkspacePlugins_only_wanted_survive
  (devfile : Devfile) (plugins : list string) (c : DevfileComponent) p :
  In c (devfileComponentsOf (fst (setWorkspacePlugins devfile plugins))) ->
  plugin c = Some p ->
  exists k, referenceId p = Some k /\ In k plugins.
Proof.
  rewrite setWorkspacePlugins_reconcile.
  unfold devfileComponentsOf at 1. cbn [fst components].
  rewrite in_app_iff, in_map_iff. intros [Hin|(k & <- & Hin)] Hp.
  - eapply reconcile_kept_wanted; eassumption.
  - exists k. split.
    + pose proof (referenceId_createPluginComponent k) as Hid.
      rewrite Hp in Hid. cbn [option_map] in Hid. now inversion Hid.
    + eapply Subsequence_In; [apply reconcile_rest_Subsequence | exact Hin].
Qed.

Lemma setWorkspacePlugins_only_wanted_survive_witness :
  exists k,
    referenceId (mkPlugin (Some "https://x/y/meta.yaml") None) = Some k
    /\ In k ["https://x/y"; "pub/new/1"].
Proof.
  apply (setWorkspacePlugins_only_wanted_survive Workspace.devfile
           ["https://x/y"; "pub/new/1"]
           (mkComponent (Some (mkPlugin (Some "https://x/y/meta.yaml") None)) [])).
  - simpl. right. now left.
  - reflexivity.
Defined.

Lemma reconcile_counts cs plugins k :
  ~ In ""%string plugins ->
  count_occ string_dec
    (flat_map listedKeys (fst (reconcile (fun c => c) cs plugins))) k
  + count_occ string_dec (snd (reconcile (fun c => c) cs plugins)) k
  = count_occ string_dec plugins k.
Proof.
  revert plugins. induction cs as [|c cs IH]; intros plugins Hne;
    cbn [reconcile].
  - reflexivity.
  - destruct (plugin c) as [p|] eqn:Hc.
    + destruct (wanted plugins (referenceId p)) eqn:Hwanted.
      * apply wanted_In in Hwanted. destruct Hwanted as (k0 & Hid & Hin).
        assert (Hk0 : k0 <> ""%string) by (intros ->; contradiction).
        rewrite Hid. cbn [consume].
        assert (Hne' : ~ In ""%string (removeFirst k0 plugins)).
        { intros Hempty. apply Hne.
          eapply Subsequence_In; [apply removeFirst_Subsequence | exact Hempty]. }
        specialize (IH (removeFirst k0 plugins) Hne').
        destruct (reconcile _ cs (removeFirst k0 plugins)) as [kept rest].
        cbn [fst snd flat_map] in *.
        rewrite (listedKeys_referenceId c p k0 Hc Hid Hk0).
        rewrite count_removeFirst in IH.
        apply (count_occ_In string_dec) in Hin.
        cbn [app count_occ].
        destruct (string_dec k0 k) as [->|_]; lia.
      * now apply IH.
    + specialize (IH plugins Hne).
      destruct (reconcile _ cs plugins) as [kept rest].
      cbn [fst snd flat_map] in *.
      now rewrite (listedKeys_other c Hc).
Qed.

(** X1. [setWorkspacePlugins] neither merges nor multiplies keys: for a list
    of plugins without the empty key, the plugins read back by
    [getWorkspacePlugins] are the given ones, each as many times as it was
    given, up to order. A key given twice is referenced twice; a key
    referenced twice and given once is referenced once afterwards. *)
Theorem setWorkspacePlugins_keeps_multiplicity
  (devfile : Devfile) (plugins : list string) :
  ~ In ""%string plugins ->
  Permutation
    (fst (getWorkspacePlugins (fst (setWorkspacePlugins devfile plugins))))
    plugins.
Proof.
  intros Hne. apply (Permutation_count_occ string_dec). intros k.
  rewrite setWorkspacePlugins_reconcile.
  unfold getWorkspacePlugins, devfileComponentsOf at 1.
  cbn [fst components].
  rewrite fold_pushPlugin. cbn [app]. rewrite flat_map_app, count_occ_app.
  rewrite listedKeys_all_created.
  - now apply reconcile_counts.
  - intros Hempty. apply Hne.
    eapply Subsequence_In; [apply reconcile_rest_Subsequence | exact Hempty].
Qed.

Lemma setWorkspacePlugins_keeps_multiplicity_witness :
  Permutation
    (fst (getWorkspacePlugins
            (fst (setWorkspacePlugins Workspace.devfile
                    ["pub/new/1"; "https://x/y"; "pub/new/1"]))))
    ["pub/new/1"; "https://x/y"; "pub/new/1"].
Proof.
  apply (setWorkspacePlugins_keeps_multiplicity Workspace.devfile
           ["pub/new/1"; "https://x/y"; "pub/new/1"]).
  simpl. intros [H|[H|[H|[]]]]; discriminate.
Defined.

End ReconcilerMore.

(* ================================================================= *)
(** ** Operations on one plugin *)

Section PluginOperationsFacts.
Context {workspace : DevfileService}.
Local Open Scope list_scope.

(** Unfolds an operation down to the answers of the service. *)
Ltac run_calls :=
  cbv beta zeta delta [addPlugin removePlugin updatePlugin Calls_catch Calls_bind
    Calls_reject getWorkspacePlugins_async setWorkspacePlugins_async
    devfileGet devfileUpdate].

Lemma keepsComponent_other_key (k : string) (cs : list DevfileComponent) :
  (forall c p, In c cs -> plugin c = Some p -> referenceId p <> Some k) ->
  (forall c p, In c cs -> plugin c = Some p -> exactlyOnePopulated p = true) ->
  filter (keepsComponent (fun p => negb (String.eqb p k))) cs = cs.
Proof.
  induction cs as [|c cs IH]; intros Hout Hwf; simpl; [reflexivity|].
  rewrite IH;
    [| intros c' p Hin; apply Hout; now right
     | intros c' p Hin; apply Hwf; now right].
  unfold keepsComponent. destruct (plugin c) as [p|] eqn:Hc; [|reflexivity].
  destruct (listedKeys_wellFormed c p Hc (Hwf c p (or_introl eq_refl) Hc))
    as (k0 & Hk0 & _).
  rewrite Hk0. destruct (String.eqb_spec k0 k) as [->|_]; [|reflexivity].
  exfalso. now apply (Hout c p (or_introl eq_refl) Hc).
Qed.

(** X6. On a devfile whose plugin components each have exactly one of [url]
    and [id] populated, and with a service that answers, [addPlugin] reads
    the devfile twice and writes it once: with all its components as they
    were, followed by one new reference to the plugin. It does so also when
    the plugin is referenced already. *)
Theorem addPlugin_appends_one (devfile : Devfile) (k : string)
  (calls : list DevfileCall) :
  wellFormedDevfile devfile ->
  devfile_get calls = Resolved devfile ->
  devfile_get (calls ++ [DevfileGet]) = Resolved devfile ->
  (forall updated,
     devfile_update (calls ++ [DevfileGet; DevfileGet]) updated = Resolved tt) ->
  addPlugin k calls
  = (Resolved tt,
     calls ++ [DevfileGet; DevfileGet;
               DevfileUpdate
                 (mkDevfile
                    (Some (devfileComponentsOf devfile
                           ++ [createPluginComponent k]))
                    (metadata devfile))]).
Proof.
  intros Hwf Hget1 Hget2 Hupdate. run_calls.
  rewrite Hget1, Hget2.
  pose proof (setWorkspacePlugins_selected (fun _ => true) [k] devfile Hwf)
    as Hsel.
  rewrite filter_all, (keepsComponent_all _ Hwf) in Hsel.
  rewrite Hsel by reflexivity. cbn [fst snd map].
  rewrite <- !List.app_assoc. cbn [app]. now rewrite Hupdate.
Qed.

(** X7. Under the same conditions [removePlugin] writes the devfile without
    the plugin components whose reference id is the key, all of them, and
    with every other component in place; when no component references the
    key, the components written are the ones read. *)
Theorem removePlugin_drops_references (devfile : Devfile) (k : string)
  (calls : list DevfileCall) :
  wellFormedDevfile devfile ->
  devfile_get calls = Resolved devfile ->
  devfile_get (calls ++ [DevfileGet]) = Resolved devfile ->
  (forall updated,
     devfile_update (calls ++ [DevfileGet; DevfileGet]) updated = Resolved tt) ->
  removePlugin k calls
  = (Resolved tt,
     calls ++ [DevfileGet; DevfileGet;
               DevfileUpdate
                 (mkDevfile
                    (Some (filter
                             (keepsComponent
                                (fun p => negb (String.eqb p k)))
                             (devfileComponentsOf devfile)))
                    (metadata devfile))])
  /\ ((forall c p, In c (devfileComponentsOf devfile) -> plugin c = Some p ->
                   referenceId p <> Some k) ->
      filter (keepsComponent (fun p => negb (String.eqb p k)))
             (devfileComponentsOf devfile)
      = devfileComponentsOf devfile).
Proof.
  intros Hwf Hget1 Hget2 Hupdate. split.
  - run_calls. rewrite Hget1, Hget2.
    pose proof (setWorkspacePlugins_selected
                  (fun p => negb (String.eqb p k)) [] devfile Hwf) as Hsel.
    rewrite !app_nil_r in Hsel. rewrite Hsel by (intros k0 []).
    cbn [fst snd]. rewrite <- !List.app_assoc. cbn [app]. now rewrite Hupdate.
  - intros Hout. now apply keepsComponent_other_key.
Qed.

(** X8. Under the same conditions [updatePlugin], for two different keys,
    writes the devfile without the components that reference the old key
    and with one new reference to the new key at the end; the old key need
    not be referenced. *)
Theorem updatePlugin_replaces (devfile : Devfile) (oldKey newKey : string)
  (calls : list DevfileCall) :
  wellFormedDevfile devfile ->
  oldKey <> newKey ->
  devfile_get calls = Resolved devfile ->
  devfile_get (calls ++ [DevfileGet]) = Resolved devfile ->
  (forall updated,
     devfile_update (calls ++ [DevfileGet; DevfileGet]) updated = Resolved tt) ->
  updatePlugin oldKey newKey calls
  = (Resolved tt,
     calls ++ [DevfileGet; DevfileGet;
               DevfileUpdate
                 (mkDevfile
                    (Some (filter
                             (keepsComponent
                                (fun p => negb (String.eqb p oldKey)))
                             (devfileComponentsOf devfile)
                           ++ [createPluginComponent newKey]))
                    (metadata devfile))]).
Proof.
  intros Hwf Hdiff Hget1 Hget2 Hupdate. run_calls. rewrite Hget1, Hget2.
  rewrite (setWorkspacePlugins_selected
             (fun p => negb (String.eqb p oldKey)) [newKey] devfile Hwf).
  - cbn [fst snd map]. rewrite <- !List.app_assoc. cbn [app].
    now rewrite Hupdate.
  - intros k [<-|[]]. apply negb_true_iff, String.eqb_neq. congruence.
Qed.

(** X9. When the devfile cannot be read, each of the three operations
    rejects with its own sentence, the key or keys, and the message of the
    error of the service, and asks for no update. *)
Theorem plugin_operations_read_failure (error : JsError)
  (calls : list DevfileCall) (k k' : string) :
  devfile_get calls = Rejected error ->
  addPlugin k calls
  = (Rejected (ThrownString ("Unable to install plugin " ++ k ++ " "
                             ++ messageOf error)),
     calls ++ [DevfileGet])
  /\ removePlugin k calls
     = (Rejected (ThrownString ("Unable to remove plugin " ++ k ++ " "
                                ++ messageOf error)),
        calls ++ [DevfileGet])
  /\ updatePlugin k k' calls
     = (Rejected (ThrownString ("Unable to update plugin from " ++ k ++ " to "
                                ++ k' ++ ": " ++ messageOf error)),
        calls ++ [DevfileGet]).
Proof.
  intros Hget. split; [|split]; run_calls; now rewrite Hget.
Qed.

(** X10. Whatever the service answers, an operation asks for at most one
    update, as its last call and after two reads, and a rejected operation
    has written nothing that the service accepted: it rejects exactly when
    one of the two reads or the update is rejected. *)
Theorem addPlugin_calls (k : string) (calls : list DevfileCall) :
  exists made,
    snd (addPlugin k calls) = calls ++ made
    /\ (made = [DevfileGet]
        \/ made = [DevfileGet; DevfileGet]
        \/ exists updated, made = [DevfileGet; DevfileGet; DevfileUpdate updated])
    /\ (fst (addPlugin k calls) = Resolved tt <->
        exists devfile devfile' updated,
          devfile_get calls = Resolved devfile
          /\ devfile_get (calls ++ [DevfileGet]) = Resolved devfile'
          /\ made = [DevfileGet; DevfileGet; DevfileUpdate updated]
          /\ devfile_update (calls ++ [DevfileGet; DevfileGet]) updated
             = Resolved tt).
Proof.
  run_calls.
  destruct (devfile_get calls) as [devfile|e1] eqn:Hget1.
  - destruct (devfile_get (calls ++ [DevfileGet])) as [devfile'|e2] eqn:Hget2.
    + rewrite <- !List.app_assoc. cbn [app].
      destruct (devfile_update (calls ++ [DevfileGet; DevfileGet]) _)
        as [[]|e3] eqn:Hupdate.
      * eexists. split; [reflexivity|]. split; [right; right; eauto|].
        split; [intros _ | reflexivity].
        do 3 eexists. repeat (split; [reflexivity|]). exact Hupdate.
      * eexists. split; [reflexivity|]. split; [right; right; eauto|].
        split; [discriminate|].
        intros (d & d' & u & _ & Hd' & Hmade & Hu).
        injection Hmade as Hsame.
        change (fst (getWorkspacePlugins devfile))
          with (fold_left pushPlugin (devfileComponentsOf devfile) [])
          in Hupdate.
        congruence.
    + exists [DevfileGet; DevfileGet]. rewrite <- !List.app_assoc.
      split; [reflexivity|]. split; [auto|].
      split; [discriminate|]. intros (d & d' & u & _ & _ & Hmade & _).
      discriminate.
  - exists [DevfileGet]. split; [reflexivity|]. split; [auto|].
    split; [discriminate|]. intros (d & d' & u & Hd & _). discriminate.
Qed.

End PluginOperationsFacts.

Lemma addPlugin_appends_one_witness :
  @addPlugin (Workspace.serving Workspace.devfile) "https://x/y" []
  = (Resolved tt,
     [DevfileGet; DevfileGet;
      DevfileUpdate
        (mkDevfile
           (Some (devfileComponentsOf Workspace.devfile
                  ++ [createPluginComponent "https://x/y"])%list)
           "workspace")]).
Proof.
  apply (@addPlugin_appends_one (Workspace.serving Workspace.devfile)
           Workspace.devfile "https://x/y" []); try reflexivity.
  intros c p Hin Hp. simpl in Hin.
  destruct Hin as [<-|[<-|[<-|[]]]]; simpl in Hp;
    inversion Hp; subst; reflexivity.
Defined.

Lemma removePlugin_drops_references_witness :
  @removePlugin (Workspace.serving Workspace.devfile) "https://x/y" []
  = (Resolved tt,
     [DevfileGet; DevfileGet;
      DevfileUpdate
        (mkDevfile
           (Some [ mkComponent (Some (mkPlugin None (Some "pub/old/0.1"))) [];
                   mkComponent None [("container", "tools")] ])
           "workspace")]).
Proof.
  apply (@removePlugin_drops_references (Workspace.serving Workspace.devfile)
           Workspace.devfile "https://x/y" []); try reflexivity.
  intros c p Hin Hp. simpl in Hin.
  destruct Hin as [<-|[<-|[<-|[]]]]; simpl in Hp;
    inversion Hp; subst; reflexivity.
Defined.

Lemma updatePlugin_replaces_witness :
  @updatePlugin (Workspace.serving Workspace.devfile)
    "pub/old/0.1" "pub/old/0.2" []
  = (Resolved tt,
     [DevfileGet; DevfileGet;
      DevfileUpdate
        (mkDevfile
           (Some [ mkComponent None [("container", "tools")];
                   mkComponent
                     (Some (mkPlugin (Some "https://x/y/meta.yaml") None)) [];
                   mkComponent (Some (mkPlugin None (Some "pub/old/0.2"))) [] ])
           "workspace")]).
Proof.
  apply (@updatePlugin_replaces (Workspace.serving Workspace.devfile)
           Workspace.devfile "pub/old/0.1" "pub/old/0.2" []);
    try reflexivity.
  - intros c p Hin Hp. simpl in Hin.
    destruct Hin as [<-|[<-|[<-|[]]]]; simpl in Hp;
      inversion Hp; subst; reflexivity.
  - discriminate.
Defined.

Lemma plugin_operations_read_failure_witness :
  @addPlugin Workspace.down "pub/pl/1.0" []
  = (Rejected (ThrownString
       "Unable to install plugin pub/pl/1.0 Workspace is stopped"),
     [DevfileGet])
  /\ @removePlugin Workspace.down "pub/pl/1.0" []
     = (Rejected (ThrownString
          "Unable to remove plugin pub/pl/1.0 Workspace is stopped"),
        [DevfileGet])
  /\ @updatePlugin Workspace.down "pub/pl/1.0" "pub/pl/1.1" []
     = (Rejected (ThrownString
          "Unable to update plugin from pub/pl/1.0 to pub/pl/1.1: Workspace is stopped"),
        [DevfileGet]).
Proof.
  apply (@plugin_operations_read_failure Workspace.down
           (ErrorObject "Workspace is stopped") [] "pub/pl/1.0" "pub/pl/1.1").
  reflexivity.
Defined.

(* ================================================================= *)
(** ** Registry client: further properties of the addresses *)

Module BaseDirectoryFacts.

Lemma prefix_empty (s : string) : String.prefix "" s = true.
Proof. now destruct s. Qed.

Lemma lastIndexOf_from_none (s pat : string) (i k : nat) :
  Js.lastIndexOf_from s pat i = None -> Js.lastIndexOf_from s pat k = None.
Proof.
  revert i k. induction s as [|c s IH]; intros i k;
    cbn [Js.lastIndexOf_from].
  - destruct (String.prefix pat ""); [discriminate | reflexivity].
  - destruct (Js.lastIndexOf_from s pat (S i)) eqn:Hin; [discriminate|].
    rewrite (IH _ (S k) Hin).
    destruct (String.prefix pat (String c s)); [discriminate | reflexivity].
Qed.

(** The position [lastIndexOf] finds splits the string at its last [/]. *)
Lemma lastIndexOf_from_slash (s : string) (i j : nat) :
  Js.lastIndexOf_from s "/" i = Some j ->
  exists pre file,
    s = pre ++ "/" ++ file /\ j = i + String.length pre
    /\ Js.lastIndexOf file "/" = (-1)%Z.
Proof.
  revert i j. induction s as [|c s IH]; intros i j;
    cbn [Js.lastIndexOf_from].
  - discriminate.
  - destruct (Js.lastIndexOf_from s "/" (S i)) as [j'|] eqn:Hin.
    + intros Hj. inversion Hj; subst j'.
      destruct (IH _ _ Hin) as (pre & file & -> & -> & Hfile).
      exists (String c pre), file. simpl. repeat split; [lia | exact Hfile].
    + cbn [String.prefix]. rewrite prefix_empty.
      destruct (Ascii.ascii_dec "/" c) as [<-|]; [|discriminate].
      intros Hj. exists "", s. simpl.
      split; [reflexivity|]. split; [inversion Hj; lia|].
      unfold Js.lastIndexOf. now rewrite (lastIndexOf_from_none _ _ _ 0 Hin).
Qed.

Lemma substring_prefix (a b : string) :
  Js.substring (a ++ b) 0 (String.length a) = a.
Proof.
  unfold Js.substring. rewrite JsFacts.length_app.
  rewrite Nat.min_0_l, Nat.min_0_l, Nat.max_0_l, Nat.sub_0_r.
  rewrite Nat.min_l by lia. apply JsFacts.substring_take.
Qed.

Lemma substring_nothing (s : string) : Js.substring s 0 0 = "".
Proof. unfold Js.substring. simpl. now destruct s. Qed.

(** The parent of an index file. *)
Lemma parent_directory (u : string) :
  exists file,
    u = Js.substring u 0 (Z.to_nat (Js.lastIndexOf u "/" + 1)) ++ file
    /\ Js.lastIndexOf file "/" = (-1)%Z
    /\ (Js.substring u 0 (Z.to_nat (Js.lastIndexOf u "/" + 1)) = ""
        /\ Js.lastIndexOf u "/" = (-1)%Z
        \/ Js.endsWith
             (Js.substring u 0 (Z.to_nat (Js.lastIndexOf u "/" + 1))) "/"
           = true).
Proof.
  unfold Js.lastIndexOf at 1 3 5.
  destruct (Js.lastIndexOf_from u "/" 0) as [j|] eqn:Hlast.
  - destruct (lastIndexOf_from_slash _ _ _ Hlast)
      as (pre & file & Hu & Hj & Hfile).
    simpl in Hj. subst j.
    replace (Z.to_nat (Z.of_nat (String.length pre) + 1))
      with (String.length (pre ++ "/"))
      by (rewrite JsFacts.length_app; simpl; lia).
    exists file. clear Hlast. subst u.
    rewrite <- (JsFacts.app_assoc pre "/" file), substring_prefix.
    split; [reflexivity|]. split; [exact Hfile|].
    right. apply JsFacts.endsWith_app.
  - exists u. simpl Z.to_nat. rewrite substring_nothing.
    split; [reflexivity|]. split.
    + unfold Js.lastIndexOf. now rewrite Hlast.
    + left. unfold Js.lastIndexOf. now rewrite Hlast.
Qed.

End BaseDirectoryFacts.

(** X11. For a registry whose [uri] ends with [.json], [getBaseDirectory]
    is the [uri] without its last path segment: the [uri] is the result
    followed by a file name that holds no [/], and the result ends with [/],
    or is empty when the [uri] holds no [/] at all. *)
Theorem getBaseDirectory_of_index_file (registry : ChePluginRegistry) :
  Js.endsWith (uri registry) ".json" = true ->
  exists file,
    uri registry = getBaseDirectory registry ++ file
    /\ Js.lastIndexOf file "/" = (-1)%Z
    /\ (getBaseDirectory registry = "" /\ Js.lastIndexOf (uri registry) "/" = (-1)%Z
        \/ Js.endsWith (getBaseDirectory registry) "/" = true).
Proof.
  intros Hjson. unfold getBaseDirectory. rewrite Hjson.
  apply BaseDirectoryFacts.parent_directory.
Qed.

Lemma getBaseDirectory_of_index_file_witness :
  exists file,
    "http://reg/v3/index.json"
    = getBaseDirectory (mkRegistry "r" "http://reg/v3/index.json" "") ++ file
    /\ Js.lastIndexOf file "/" = (-1)%Z
    /\ (getBaseDirectory (mkRegistry "r" "http://reg/v3/index.json" "") = ""
        /\ Js.lastIndexOf "http://reg/v3/index.json" "/" = (-1)%Z
        \/ Js.endsWith
             (getBaseDirectory (mkRegistry "r" "http://reg/v3/index.json" ""))
             "/" = true).
Proof.
  apply (getBaseDirectory_of_index_file
           (mkRegistry "r" "http://reg/v3/index.json" "")).
  reflexivity.
Defined.

(** X12. [getBaseDirectory] always ends with [/], with one exception: it is
    empty for a [uri] that ends with [.json] and holds no [/]. *)
Theorem getBaseDirectory_ends_with_slash (registry : ChePluginRegistry) :
  Js.endsWith (getBaseDirectory registry) "/" = true
  \/ (getBaseDirectory registry = ""
      /\ Js.endsWith (uri registry) ".json" = true
      /\ Js.lastIndexOf (uri registry) "/" = (-1)%Z).
Proof.
  destruct (Js.endsWith (uri registry) ".json") eqn:Hjson.
  - unfold getBaseDirectory. rewrite Hjson.
    destruct (BaseDirectoryFacts.parent_directory (uri registry))
      as (file & _ & _ & [[Hempty Hnone]|Hslash]); auto.
  - left. unfold getBaseDirectory. rewrite Hjson.
    destruct (Js.endsWith (uri registry) "/") eqn:Hslash; simpl.
    + exact Hslash.
    + apply JsFacts.endsWith_app.
Qed.

Section AddressFacts.
Context {parsers : Parsers}.

(** X13. For a plugin listed without a usable [links.self] (no [links], no
    [self], or an empty one), by a registry whose [uri] does not end with
    [.json], the address computed has two slashes before the plugin id: it
    is the [uri] without its trailing [/], if it has one, followed by
    [//{id}/meta.yaml]. The default registry plays no part. *)
Theorem getPluginYamlURI_without_self
  (known : option ChePluginRegistry) (registry : ChePluginRegistry)
  (plugin : ChePluginMetadataInternal) :
  selfLink plugin = None ->
  Js.endsWith (uri registry) ".json" = false ->
  exists stem,
    (Js.endsWith (uri registry) "/" = false /\ uri registry = stem
     \/ uri registry = stem ++ "/")
    /\ getPluginYamlURI known registry plugin
       = Resolved (stem ++ "//" ++ summary_id plugin ++ "/meta.yaml").
Proof.
  intros Hself Hjson. unfold getPluginYamlURI, getBaseDirectory.
  rewrite Hself, Hjson.
  destruct (Js.endsWith (uri registry) "/") eqn:Hslash; simpl negb; cbv iota.
  - apply JsFacts.endsWith_iff in Hslash. destruct Hslash as [stem Hstem].
    exists stem. rewrite Hstem. split; [now right|].
    now rewrite JsFacts.app_assoc.
  - exists (uri registry). split; [now left|].
    now rewrite JsFacts.app_assoc.
Qed.


End AddressFacts.

Lemma getPluginYamlURI_without_self_witness :
  exists stem,
    (Js.endsWith "http://reg/a/" "/" = false /\ "http://reg/a/" = stem
     \/ "http://reg/a/" = stem ++ "/")
    /\ @getPluginYamlURI Sample.parsers None
         (mkRegistry "A" "http://reg/a/" "")
         (mkSummary "pub/pl/1.0" "" "" "" "" "" "" None)
       = Resolved (stem ++ "//" ++ "pub/pl/1.0" ++ "/meta.yaml").
Proof.
  apply (@getPluginYamlURI_without_self Sample.parsers None
           (mkRegistry "A" "http://reg/a/" "")
           (mkSummary "pub/pl/1.0" "" "" "" "" "" "" None));
    reflexivity.
Defined.


(* ================================================================= *)
(** ** Loading a plugin: icon, key and failure *)

Lemma startsWith_slash_inv (s : string) :
  Js.startsWith s "/" = true -> exists path, s = "/" ++ path.
Proof.
  unfold Js.startsWith. destruct s as [|c s]; [simpl; discriminate|].
  cbn [String.prefix].
  destruct (Ascii.ascii_dec "/" c) as [<-|]; [|discriminate].
  intros _. now exists s.
Qed.

Lemma pluginIcon_cases (propsIcon pluginRegistryURI : string) :
  (isAbsoluteUrl propsIcon = true
   /\ pluginIcon propsIcon pluginRegistryURI = propsIcon)
  \/ (isAbsoluteUrl propsIcon = false
      /\ exists path,
           pluginIcon propsIcon pluginRegistryURI
           = pluginRegistryURI ++ "/" ++ path
           /\ (propsIcon = path /\ Js.startsWith path "/" = false
               \/ propsIcon = "/" ++ path)).
Proof.
  unfold pluginIcon. fold (isAbsoluteUrl propsIcon).
  destruct (isAbsoluteUrl propsIcon); [left; now split | right].
  split; [reflexivity|].
  destruct (Js.startsWith propsIcon "/") eqn:Hslash.
  - destruct (startsWith_slash_inv _ Hslash) as [path Hpath].
    exists path. rewrite Hpath. split; [reflexivity | now right].
  - exists propsIcon. split; [reflexivity | now left].
Qed.

Section LoadedPlugin.
Context {http : HttpService} {parsers : Parsers}.

(** X15. The metadata [loadPluginMetadata] resolves with is never built in,
    and its icon is the icon of the document when that starts with
    [http://] or [https://]; otherwise it is the registry address given,
    one [/], and the icon path, whether or not the document wrote the
    path with a leading [/]. *)
Theorem loadPluginMetadata_icon yamlURI longKeyFormat pluginRegistryURI
  (st st' : State) (pluginMetadata : ChePluginMetadata) :
  loadPluginMetadata yamlURI longKeyFormat pluginRegistryURI st
  = (Resolved pluginMetadata, st') ->
  builtIn pluginMetadata = false
  /\ exists props propsIcon,
       loadPluginYaml yamlURI st = (Resolved (Some props), st')
       /\ yaml_icon props = Some propsIcon
       /\ type pluginMetadata = yaml_type props
       /\ (isAbsoluteUrl propsIcon = true
           /\ icon pluginMetadata = propsIcon
           \/ isAbsoluteUrl propsIcon = false
              /\ exists path,
                   icon pluginMetadata = pluginRegistryURI ++ "/" ++ path
                   /\ (propsIcon = path /\ Js.startsWith path "/" = false
                       \/ propsIcon = "/" ++ path)).
Proof.
  unfold loadPluginMetadata, try_catch, bind, ret, throw.
  destruct (loadPluginYaml yamlURI st) as [[[props|]|error] st1];
    [destruct (yaml_icon props) as [propsIcon|] eqn:Hicon| |];
    intros Hrun; inversion Hrun; subst.
  split; [reflexivity|]. exists props, propsIcon.
  split; [reflexivity|]. split; [exact Hicon|].
  split; [reflexivity|]. cbn [icon]. apply pluginIcon_cases.
Qed.

(** X17. When both attempts to fetch the document fail, [loadPluginMetadata]
    rejects with the sentence [Unable to load plugin metadata.] followed by
    the word [undefined]: what [loadPluginYaml] rejects with is a string,
    which has no [message], so the cause named by [loadPluginYaml] is lost. *)
Theorem loadPluginMetadata_loses_cause yamlURI longKeyFormat pluginRegistryURI
  (st : State) (err err' : JsError) :
  parsedAt (requests st) yamlURI = Rejected err ->
  parsedAt (requests st ++ [yamlURI]) (metaYamlOf yamlURI) = Rejected err' ->
  loadPluginYaml yamlURI st
  = (Rejected (ThrownString
                 ("Unable to load plugin metadata. " ++ messageOf err)),
     log_request (metaYamlOf yamlURI) (log_request yamlURI st))
  /\ loadPluginMetadata yamlURI longKeyFormat pluginRegistryURI st
     = (Rejected (ThrownString "Unable to load plugin metadata. undefined"),
        log_request (metaYamlOf yamlURI) (log_request yamlURI st)).
Proof.
  intros Hfirst Hretry.
  assert (Hyaml : loadPluginYaml yamlURI st
                  = (Rejected (ThrownString
                       ("Unable to load plugin metadata. " ++ messageOf err)),
                     log_request (metaYamlOf yamlURI) (log_request yamlURI st))).
  { unfold loadPluginYaml, try_catch. rewrite !fetchYaml_run, Hfirst.
    simpl requests. now rewrite Hretry. }
  split; [exact Hyaml|].
  unfold loadPluginMetadata, try_catch, bind. now rewrite Hyaml.
Qed.

End LoadedPlugin.

Lemma loadPluginMetadata_icon_witness :
  builtIn
    (mkMetadata "pub" "pl" "1.0" "VS Code extension" "Plugin" "Plugin"
       "A plugin" "http://pub/b/images/pl.svg" "" "https://src/pl"
       "2019-01-01" "Other" "2020-01-01"
       "http://reg/b/v3/plugins/pub/pl/1.0" false)
  = false.
Proof.
  apply (@loadPluginMetadata_icon Sample.http Sample.parsers
           "http://reg/b/v3/plugins/pub/pl/1.0/meta.yaml" true "http://pub/b"
           Sample.attached
           (log_request "http://reg/b/v3/plugins/pub/pl/1.0/meta.yaml"
              Sample.attached)).
  reflexivity.
Defined.

Lemma loadPluginMetadata_loses_cause_witness :
  fst (@loadPluginMetadata Sample.http Sample.parsers "http://reg/c/" false
         "http://pub/c" Sample.attached)
  = Rejected (ThrownString "Unable to load plugin metadata. undefined").
Proof.
  rewrite (proj2 (@loadPluginMetadata_loses_cause Sample.http Sample.parsers
                    "http://reg/c/" false "http://pub/c" Sample.attached
                    (ErrorObject "Network Error") (ErrorObject "Network Error")
                    eq_refl eq_refl)).
  reflexivity.
Defined.

(** X16. A long key leads back to the document it was computed from. For a
    document address under an [http://] or [https://] prefix, the component
    that [createPluginComponent] builds for the long key refers to an
    address [loadPluginYaml] fetches: the document address itself when that
    ends with [{short key}/meta.yaml] and does not end with the short key as
    well, and the retry address when it ends with the short key and not
    with [/]. *)
Theorem long_key_refers_to_document (props : PluginYaml) (pre : string) :
  isAbsoluteUrl pre = true ->
  (Js.endsWith (pre ++ shortKey props ++ "/meta.yaml") (shortKey props) = false ->
   createPluginComponent
     (pluginKey props (pre ++ shortKey props ++ "/meta.yaml") true)
   = mkComponent
       (Some (mkPlugin (Some (pre ++ shortKey props ++ "/meta.yaml")) None)) [])
  /\ (Js.endsWith (pre ++ shortKey props) "/" = false ->
      createPluginComponent (pluginKey props (pre ++ shortKey props) true)
      = mkComponent
          (Some (mkPlugin (Some (metaYamlOf (pre ++ shortKey props))) None)) []).
Proof.
  intros Habs. split.
  - intros Hno. rewrite (pluginKey_suffix_meta_yaml props pre Hno).
    unfold createPluginComponent.
    rewrite (isAbsoluteUrl_app pre (shortKey props) Habs).
    unfold meta_yaml. now rewrite JsFacts.app_assoc.
  - intros Hslash. rewrite pluginKey_suffix_key.
    unfold createPluginComponent, metaYamlOf.
    rewrite (isAbsoluteUrl_app pre (shortKey props) Habs), Hslash.
    unfold meta_yaml. simpl negb. cbv iota.
    now rewrite (JsFacts.app_assoc (pre ++ shortKey props) "/" "meta.yaml").
Qed.

Lemma long_key_refers_to_document_witness :
  createPluginComponent
    (pluginKey Sample.document "http://reg/b/v3/plugins/pub/pl/1.0/meta.yaml"
       true)
  = mkComponent
      (Some (mkPlugin (Some "http://reg/b/v3/plugins/pub/pl/1.0/meta.yaml")
                      None)) [].
Proof.
  apply (proj1 (long_key_refers_to_document Sample.document
                  "http://reg/b/v3/plugins/" eq_refl)).
  reflexivity.
Defined.

(* ================================================================= *)
(** ** Cache builder: the progress of a build *)

Section ProgressFacts.
Local Open Scope list_scope.

Lemma last_cons {A} (a d : A) (l : list A) : last (a :: l) d = last l a.
Proof.
  revert a d. induction l as [|b l IH]; intros a d; [reflexivity|].
  change (last (a :: b :: l) d) with (last (b :: l) d).
  now rewrite !IH.
Qed.

Lemma last_app_chain {A} (l1 l2 : list A) (d : A) :
  last (l1 ++ l2) d = last l2 (last l1 d).
Proof.
  revert d. induction l1 as [|a l1 IH]; intros d; [reflexivity|].
  cbn [app]. now rewrite !last_cons, IH.
Qed.

Lemma last_lower_bound (lo : nat) (l : list nat) (d : nat) :
  Forall (fun t => lo <= t) l -> lo <= d -> lo <= last l d.
Proof.
  revert d. induction l as [|a l IH]; intros d Hall Hd; [exact Hd|].
  rewrite last_cons. inversion Hall; subst. now apply IH.
Qed.

Lemma StronglySorted_app (l1 l2 : list nat) :
  StronglySorted le l1 -> StronglySorted le l2 ->
  (forall x y, In x l1 -> In y l2 -> x <= y) ->
  StronglySorted le (l1 ++ l2).
Proof.
  induction l1 as [|a l1 IH]; intros H1 H2 Hcross; [exact H2|].
  apply StronglySorted_inv in H1. destruct H1 as [Hsorted Hall].
  cbn [app]. constructor.
  - apply IH; [assumption.. |]. intros x y Hx. apply Hcross. now right.
  - apply Forall_app. split; [exact Hall|].
    apply Forall_forall. intros y Hy. apply Hcross; [now left | exact Hy].
Qed.

Lemma Progress_available c st st' :
  Progress c st st' -> availablePlugins st <= availablePlugins st'.
Proof.
  intros (_ & _ & added & events & _ & _ & _ & _ & _ & Hbounds & _ & ->).
  apply last_lower_bound; [|lia].
  eapply Forall_impl; [|exact Hbounds]. simpl. intros t Ht. lia.
Qed.

(** Nothing but the log of requests changed. *)
Lemma Progress_still st st' :
  client st' = client st -> defaultRegistry st' = defaultRegistry st ->
  cachedPlugins st' = cachedPlugins st ->
  availablePlugins st' = availablePlugins st ->
  notifications st' = notifications st ->
  Progress 0 st st'.
Proof.
  intros Hc Hd Hp Ha Hn. split; [exact Hc|]. split; [exact Hd|].
  exists [], []. rewrite Hp, Ha, Hn, !app_nil_r. simpl.
  repeat split; try constructor. lia.
Qed.

Lemma Progress_weaken c c' st st' :
  (c <= c')%Z -> Progress c st st' -> Progress c' st st'.
Proof.
  intros Hle (Hc & Hd & added & events & Hp & Hb & Hn & Hs & Hcredit & Hrest).
  split; [exact Hc|]. split; [exact Hd|]. exists added, events.
  repeat (split; [assumption|]). split; [lia | exact Hrest].
Qed.

Lemma Progress_trans c1 c2 st1 st2 st3 :
  Progress c1 st1 st2 -> Progress c2 st2 st3 -> Progress (c1 + c2) st1 st3.
Proof.
  intros P1 P2.
  pose proof (Progress_available _ _ _ P1) as Hle1.
  pose proof (Progress_available _ _ _ P2) as Hle2.
  destruct P1 as (Hc1 & Hd1 & a1 & e1 & Hp1 & Hb1 & Hn1 & Hs1 & Hcr1
                  & Hbd1 & Hso1 & Hl1).
  destruct P2 as (Hc2 & Hd2 & a2 & e2 & Hp2 & Hb2 & Hn2 & Hs2 & Hcr2
                  & Hbd2 & Hso2 & Hl2).
  split; [congruence|]. split; [congruence|].
  exists (a1 ++ a2), (e1 ++ e2).
  unfold cachedSizes, announcedTotals in *. rewrite !flat_map_app.
  split; [now rewrite Hp2, Hp1, List.app_assoc|].
  split; [now apply Forall_app|].
  split; [now rewrite Hn2, Hn1, List.app_assoc|].
  split.
  { rewrite Hs1, Hs2, Hp1, !length_app, seq_app. reflexivity. }
  split; [rewrite length_app; lia|].
  split.
  { apply Forall_app. split; (eapply Forall_impl; [|eassumption]);
      simpl; intros t Ht; lia. }
  split.
  { apply StronglySorted_app; [assumption..|]. intros x y Hx Hy.
    rewrite Forall_forall in Hbd1, Hbd2.
    specialize (Hbd1 x Hx). specialize (Hbd2 y Hy). simpl in *. lia. }
  now rewrite last_app_chain, <- Hl1.
Qed.

Lemma Progresses_weaken {A} c c' (m : M A) :
  (c <= c')%Z -> Progresses c m -> Progresses c' m.
Proof. intros Hle Hm st r st' Hrun. eapply Progress_weaken; eauto. Qed.

Lemma Progresses_ret {A} (a : A) : Progresses 0 (ret a).
Proof. intros st r st' Hrun. inversion Hrun; subst. now apply Progress_still. Qed.

Lemma Progresses_throw {A} (e : JsError) : Progresses 0 (@throw A e).
Proof. intros st r st' Hrun. inversion Hrun; subst. now apply Progress_still. Qed.

Lemma Progresses_liftResult {A} (res : Result A) : Progresses 0 (liftResult res).
Proof. intros st r st' Hrun. inversion Hrun; subst. now apply Progress_still. Qed.

Lemma Progresses_gets {A} (f : State -> A) : Progresses 0 (gets f).
Proof. intros st r st' Hrun. inversion Hrun; subst. now apply Progress_still. Qed.

Lemma Progresses_httpGet `{HttpService} (u : string) : Progresses 0 (httpGet u).
Proof. intros st r st' Hrun. inversion Hrun; subst. now apply Progress_still. Qed.

(** A notification that is neither a cache size nor a total. *)
Lemma Progresses_notify (n : Notification) :
  cachedSizes [n] = [] -> announcedTotals [n] = [] ->
  Progresses 0 (notify n).
Proof.
  intros Hsizes Htotals st r st' Hrun. inversion Hrun; subst.
  split; [reflexivity|]. split; [reflexivity|]. exists [], [n].
  rewrite Hsizes, Htotals. cbn [cachedPlugins log_notification notifications
    availablePlugins]. rewrite app_nil_r. simpl.
  repeat split; try constructor. lia.
Qed.

Lemma Progresses_bind_post {A B} c1 c2 (Q : A -> Prop) (m : M A)
  (k : A -> M B) :
  (0 <= c2)%Z ->
  Progresses c1 m ->
  (forall st a st', m st = (Resolved a, st') -> Q a) ->
  (forall a, Q a -> Progresses c2 (k a)) ->
  Progresses (c1 + c2) (bind m k).
Proof.
  intros Hc2 Hm Hpost Hk st r st' Hrun. unfold bind in Hrun.
  destruct (m st) as [[a|e] st1] eqn:Hfirst.
  - eapply Progress_trans; [eapply Hm; eassumption|].
    eapply (Hk a); [eapply Hpost; eassumption | eassumption].
  - inversion Hrun; subst.
    apply (Progress_weaken c1); [lia | eapply Hm; eassumption].
Qed.

Lemma Progresses_bind {A B} c1 c2 (m : M A) (k : A -> M B) :
  (0 <= c2)%Z ->
  Progresses c1 m -> (forall a, Progresses c2 (k a)) ->
  Progresses (c1 + c2) (bind m k).
Proof.
  intros Hc2 Hm Hk.
  apply (Progresses_bind_post c1 c2 (fun _ => True)); auto.
Qed.

Lemma Progresses_try_catch {A} c1 c2 (m : M A) (handler : JsError -> M A) :
  (0 <= c2)%Z ->
  Progresses c1 m -> (forall e, Progresses c2 (handler e)) ->
  Progresses (c1 + c2) (try_catch m handler).
Proof.
  intros Hc2 Hm Hh st r st' Hrun. unfold try_catch in Hrun.
  destruct (m st) as [[a|e] st1] eqn:Hfirst.
  - inversion Hrun; subst.
    apply (Progress_weaken c1); [lia | eapply Hm; eassumption].
  - eapply Progress_trans; [eapply Hm; eassumption | eapply Hh; eassumption].
Qed.

(** [this.cachedPlugins.push(pluginMetadata)] followed by
    [notifyPluginCached(this.cachedPlugins.length)]. *)
Lemma Progresses_push (pluginMetadata : ChePluginMetadata) :
  builtIn pluginMetadata = false ->
  Progresses 1
    (modify (fun st =>
               set_cachedPlugins (cachedPlugins st ++ [pluginMetadata]) st) ;;
     size <- gets (fun st => List.length (cachedPlugins st)) ;;
     notify (PluginCached size)).
Proof.
  intros Hbuilt st r st' Hrun. inversion Hrun; subst. clear Hrun.
  split; [reflexivity|]. split; [reflexivity|].
  exists [pluginMetadata],
         [PluginCached (List.length (cachedPlugins st ++ [pluginMetadata]))].
  cbn [cachedPlugins set_cachedPlugins log_notification notifications
       availablePlugins].
  split; [reflexivity|]. split; [now constructor|]. split; [reflexivity|].
  split; [simpl; rewrite length_app; simpl; f_equal; lia|].
  simpl. repeat split; try constructor. lia.
Qed.

(** [availablePlugins += n] followed by
    [notifyPluginCacheSizeChanged(availablePlugins)] and by [rest]. *)
Lemma Progresses_announce {A} (n : nat) c (rest : M A) :
  Progresses c rest ->
  Progresses (c - Z.of_nat n)
    (modify (fun st => set_availablePlugins (availablePlugins st + n) st) ;;
     total <- gets availablePlugins ;;
     notify (PluginCacheSizeChanged total) ;;
     rest).
Proof.
  intros Hrest st r st' Hrun.
  unfold bind at 1 in Hrun. unfold modify at 1 in Hrun.
  unfold bind at 1 in Hrun. unfold gets at 1 in Hrun.
  unfold bind at 1 in Hrun. unfold notify, modify in Hrun.
  replace (c - Z.of_nat n)%Z with (- Z.of_nat n + c)%Z by lia.
  eapply Progress_trans; [|eapply Hrest; exact Hrun].
  split; [reflexivity|]. split; [reflexivity|].
  exists [], [PluginCacheSizeChanged (availablePlugins st + n)].
  cbn [cachedPlugins set_availablePlugins log_notification notifications
       availablePlugins].
  rewrite app_nil_r. simpl.
  repeat split; repeat constructor; lia.
Qed.

End ProgressFacts.

Section DefaultRegistryFacts.
Context {workspace : WorkspaceService} {parsers : Parsers}.

(** Every way [getDefaultRegistry] can end. *)
Lemma getDefaultRegistry_outcome (st : State) :
  (exists registry,
     getDefaultRegistry st
     = (Resolved registry,
        match defaultRegistry st with
        | Some _ => st
        | None => set_defaultRegistry registry st
        end)
     /\ defaultRegistryAvailable st
     /\ (defaultRegistry st = Some registry
         \/ defaultRegistry st = None
            /\ exists workspaceSettings publicUri,
                 getWorkspaceSettings = Resolved (Some workspaceSettings)
                 /\ workspaceSettings PLUGIN_REGISTRY_URL = Some publicUri
                 /\ registry
                    = mkRegistry "Eclipse Che plugins"
                        (normalizeEnding
                           (match workspaceSettings PLUGIN_REGISTRY_INTERNAL_URL
                            with
                            | Some internal =>
                                if String.eqb internal "" then publicUri
                                else internal
                            | None => publicUri
                            end))
                        (normalizeEnding publicUri)))
  \/ (exists message,
        getDefaultRegistry st = (Rejected (ThrownString message), st)
        /\ ~ defaultRegistryAvailable st
        /\ defaultRegistry st = None).
Proof.
  unfold getDefaultRegistry, bind, gets, defaultRegistryAvailable.
  destruct (defaultRegistry st) as [known|] eqn:Hknown.
  - left. exists known. split; [reflexivity|]. split; [left; congruence|].
    now left.
  - destruct getWorkspaceSettings as [[settings|]|error] eqn:Hsettings.
    + destruct (settings PLUGIN_REGISTRY_URL) as [publicUri|] eqn:Hpublic.
      * left.
        destruct (settings PLUGIN_REGISTRY_INTERNAL_URL) as [internal|]
          eqn:Hinternal; cbn [Js.truthy].
        -- destruct (String.eqb internal "") eqn:Hempty; cbn [negb].
           ++ eexists. split; [reflexivity|]. split; [right; eauto|].
              right. split; [reflexivity|]. exists settings, publicUri.
              rewrite Hinternal, Hempty. auto.
           ++ eexists. split; [reflexivity|]. split; [right; eauto|].
              right. split; [reflexivity|]. exists settings, publicUri.
              rewrite Hinternal, Hempty. auto.
        -- eexists. split; [reflexivity|]. split; [right; eauto|].
           right. split; [reflexivity|]. exists settings, publicUri.
           rewrite Hinternal. auto.
      * right.
        exists ("Unable to get default plugin registry URI. "
                ++ typeErrorMessage).
        split; [|split; [|reflexivity]].
        -- destruct (if Js.truthy (settings PLUGIN_REGISTRY_INTERNAL_URL)
                     then settings PLUGIN_REGISTRY_INTERNAL_URL else None);
             reflexivity.
        -- intros [Hsome|(ws & pub & Hws & Hpub)]; [congruence|].
           inversion Hws; subst ws. congruence.
    + right. eexists. split; [reflexivity|]. split; [|reflexivity].
      intros [Hsome|(ws & pub & Hws & _)]; [congruence | discriminate].
    + right. eexists. split; [reflexivity|]. split; [|reflexivity].
      intros [Hsome|(ws & pub & Hws & _)]; [congruence | discriminate].
Qed.

End DefaultRegistryFacts.

Section DefaultRegistryClaims.
Context {workspace : WorkspaceService} {parsers : Parsers}.

(** X18. When the default registry is known or the settings can be read and
    hold the public address, [getDefaultRegistry] resolves and the registry
    it resolves with is then the known one: a second call resolves with the
    same registry and changes nothing. A registry resolved from the settings
    is named [Eclipse Che plugins]; its [uri] is the internal address when
    that is set and not empty, the public one otherwise, and its
    [publicUri] the public address, each without one trailing [/]. Only the
    field [defaultRegistry] is written. *)
Theorem getDefaultRegistry_resolves_once (st : State) :
  defaultRegistryAvailable st ->
  exists registry st',
    getDefaultRegistry st = (Resolved registry, st')
    /\ defaultRegistry st' = Some registry
    /\ getDefaultRegistry st' = (Resolved registry, st')
    /\ (st' = st \/ st' = set_defaultRegistry registry st)
    /\ (defaultRegistry st = None ->
        exists workspaceSettings publicUri,
          getWorkspaceSettings = Resolved (Some workspaceSettings)
          /\ workspaceSettings PLUGIN_REGISTRY_URL = Some publicUri
          /\ registry
             = mkRegistry "Eclipse Che plugins"
                 (normalizeEnding
                    (match workspaceSettings PLUGIN_REGISTRY_INTERNAL_URL with
                     | Some internal =>
                         if String.eqb internal "" then publicUri else internal
                     | None => publicUri
                     end))
                 (normalizeEnding publicUri)).
Proof.
  intros Havailable.
  destruct (getDefaultRegistry_outcome st)
    as [(registry & Hrun & _ & Hwhich)|(message & _ & Hnot & _)];
    [|contradiction].
  exists registry. eexists. split; [exact Hrun|].
  destruct (defaultRegistry st) as [known|] eqn:Hknown.
  - destruct Hwhich as [Hsame|[Hnone _]]; [|discriminate].
    inversion Hsame; subst known.
    split; [exact Hknown|]. split; [exact Hrun|]. split; [now left|].
    discriminate.
  - destruct Hwhich as [Hsame|[_ Hsettings]]; [discriminate|].
    split; [reflexivity|]. split; [reflexivity|]. split; [now right|].
    intros _. exact Hsettings.
Qed.

(** X19. [getDefaultRegistry] rejects exactly when no default registry is
    known and the settings cannot be read, are absent, or lack the public
    address. It rejects for a missing public address also when the internal
    address is set. A rejection is a string and leaves the service as it
    was. *)
Theorem getDefaultRegistry_rejects (st : State) :
  (~ defaultRegistryAvailable st <->
   exists message,
     getDefaultRegistry st = (Rejected (ThrownString message), st))
  /\ (forall workspaceSettings,
        defaultRegistry st = None ->
        getWorkspaceSettings = Resolved (Some workspaceSettings) ->
        workspaceSettings PLUGIN_REGISTRY_URL = None ->
        getDefaultRegistry st
        = (Rejected (ThrownString
                       ("Unable to get default plugin registry URI. "
                        ++ typeErrorMessage)),
           st)).
Proof.
  split.
  - destruct (getDefaultRegistry_outcome st)
      as [(registry & Hrun & Havailable & _)|(message & Hrun & Hnot & _)].
    + split; [contradiction|]. intros [message Hrej]. congruence.
    + split; [eauto | intros _; exact Hnot].
  - intros settings Hnone Hsettings Hpublic.
    unfold getDefaultRegistry, bind, gets. rewrite Hnone, Hsettings, Hpublic.
    destruct (if Js.truthy (settings PLUGIN_REGISTRY_INTERNAL_URL)
              then settings PLUGIN_REGISTRY_INTERNAL_URL else None);
      reflexivity.
Qed.

End DefaultRegistryClaims.

Lemma getDefaultRegistry_resolves_once_witness :
  let registry :=
    mkRegistry "Eclipse Che plugins" "http://reg/a" "http://pub/a" in
  exists st',
    @getDefaultRegistry Sample.settings Sample.parsers Sample.attached
    = (Resolved registry, st')
    /\ @getDefaultRegistry Sample.settings Sample.parsers st'
       = (Resolved registry, st').
Proof.
  destruct (@getDefaultRegistry_resolves_once Sample.settings Sample.parsers
              Sample.attached)
    as (registry & st' & Hrun & _ & Hagain & _).
  - right. eexists. exists "http://pub/a/". split; reflexivity.
  - exists st'.
    assert (Hregistry :
              registry
              = mkRegistry "Eclipse Che plugins" "http://reg/a" "http://pub/a").
    { assert (Hfst : fst (@getDefaultRegistry Sample.settings Sample.parsers
                            Sample.attached)
                     = Resolved (mkRegistry "Eclipse Che plugins"
                                   "http://reg/a" "http://pub/a"))
        by reflexivity.
      rewrite Hrun in Hfst. now inversion Hfst. }
    subst registry. now split.
Defined.

Lemma getDefaultRegistry_rejects_witness :
  @getDefaultRegistry Deployment.internalOnly Sample.parsers Sample.attached
  = (Rejected (ThrownString
       "Unable to get default plugin registry URI. Cannot read properties of undefined"),
     Sample.attached).
Proof.
  apply (proj2 (@getDefaultRegistry_rejects Deployment.internalOnly
                  Sample.parsers Sample.attached)
           (fun k => if String.eqb k PLUGIN_REGISTRY_INTERNAL_URL
                     then Some "http://reg/a/" else None));
    reflexivity.
Defined.

(* ================================================================= *)
(** ** Cache builder: what a rebuild leaves *)

(** Decomposes a goal [Progresses 0 m] for an [m] that only reads and
    requests. *)
Ltac quiet :=
  repeat first
    [ apply Progresses_ret
    | apply Progresses_throw
    | apply Progresses_liftResult
    | apply Progresses_gets
    | apply Progresses_httpGet
    | apply (Progresses_bind 0 0); [reflexivity | | intros ?]
    | apply (Progresses_try_catch 0 0); [reflexivity | | intros ?]
    | match goal with
      | |- Progresses _ (match ?x with _ => _ end) => destruct x
      end ].

Section CacheBuilderMore.
Context {http : HttpService} {workspace : WorkspaceService}
        {parsers : Parsers}.
Local Open Scope list_scope.

Lemma loadPluginMetadata_builtIn yamlURI longKeyFormat pluginRegistryURI
  (st st' : State) (pluginMetadata : ChePluginMetadata) :
  loadPluginMetadata yamlURI longKeyFormat pluginRegistryURI st
  = (Resolved pluginMetadata, st') ->
  builtIn pluginMetadata = false.
Proof.
  unfold loadPluginMetadata, try_catch, bind, ret, throw.
  destruct (loadPluginYaml yamlURI st) as [[[props|]|error] st1];
    [destruct (yaml_icon props)| |];
    intros Hrun; inversion Hrun; subst. reflexivity.
Qed.

Lemma Progresses_loadPluginMetadata yamlURI longKeyFormat pluginRegistryURI :
  Progresses 0 (loadPluginMetadata yamlURI longKeyFormat pluginRegistryURI).
Proof. unfold loadPluginMetadata, loadPluginYaml, fetchYaml. quiet. Qed.

Lemma Progresses_loadPluginList registry :
  Progresses 0 (loadPluginList registry).
Proof. unfold loadPluginList. quiet. Qed.

Lemma Progresses_cachePlugin registry longKeyFormat metadataInternal :
  Progresses 1 (cachePlugin registry longKeyFormat metadataInternal).
Proof.
  unfold cachePlugin.
  apply (Progresses_bind 0 1); [lia | quiet | intros known].
  apply (Progresses_bind 0 1); [lia | quiet | intros pluginYamlURI].
  apply (Progresses_try_catch 1 0); [lia | |].
  - apply (Progresses_bind_post 0 1 (fun md => builtIn md = false)); [lia | | |].
    + apply Progresses_loadPluginMetadata.
    + intros st md st'. apply loadPluginMetadata_builtIn.
    + intros md Hbuilt. now apply Progresses_push.
  - intros error. now apply Progresses_notify.
Qed.

Lemma Progresses_cachePlugins registry longKeyFormat registryPlugins :
  Progresses (Z.of_nat (List.length registryPlugins))
             (cachePlugins registry longKeyFormat registryPlugins).
Proof.
  induction registryPlugins as [|metadataInternal rest IH];
    cbn [cachePlugins List.length].
  - apply Progresses_ret.
  - apply (Progresses_weaken (1 + Z.of_nat (List.length rest))); [lia|].
    apply Progresses_bind; [lia | apply Progresses_cachePlugin | intros _].
    exact IH.
Qed.

Lemma Progresses_cacheRegistry registry : Progresses 0 (cacheRegistry registry).
Proof.
  unfold cacheRegistry.
  apply (Progresses_try_catch 0 0); [lia | |].
  - apply (Progresses_bind 0 0); [lia | apply Progresses_loadPluginList|].
    intros [|registryPlugins].
    + now apply Progresses_notify.
    + apply (Progresses_weaken
               (Z.of_nat (List.length registryPlugins)
                - Z.of_nat (List.length registryPlugins))); [lia|].
      apply Progresses_announce.
      apply (Progresses_weaken
               (0 + Z.of_nat (List.length registryPlugins))); [lia|].
      apply Progresses_bind; [lia | quiet | intros [dflt|]].
      * apply Progresses_cachePlugins.
      * apply (Progresses_weaken 0); [lia | apply Progresses_throw].
  - intros error. now apply Progresses_notify.
Qed.

Lemma Progresses_cacheRegistries registries remaining :
  Progresses 0 (cacheRegistries registries remaining).
Proof.
  induction remaining as [|[registryName registry] rest IH];
    cbn [cacheRegistries].
  - apply Progresses_ret.
  - apply (Progresses_bind 0 0); [lia | unfold hasOwnProperty; quiet|].
    intros own.
    apply (Progresses_bind 0 0); [lia | | intros _; exact IH].
    destruct own; cbn [negb];
      [apply Progresses_cacheRegistry | apply Progresses_ret].
Qed.

(** How [updateCache] runs with a client attached and a default registry at
    hand: the state [ready] in which the loop over the registries starts,
    and the state [built] in which it ends. *)
Lemma updateCache_run registries st :
  client st = true ->
  defaultRegistryAvailable st ->
  ownKey registries "hasOwnProperty" = false ->
  exists ready built,
    client ready = true
    /\ defaultRegistry ready <> None
    /\ cachedPlugins ready = []
    /\ availablePlugins ready = 0
    /\ notifications ready = notifications st ++ [PluginCacheSizeChanged 0]
    /\ cacheRegistries registries registries ready = (Resolved tt, built)
    /\ updateCache registries st
       = (Resolved tt, log_notification CachingComplete built).
Proof.
  intros Hclient Havailable Hmethod.
  assert (Hcycle : forall st0,
    client st0 = true -> defaultRegistry st0 <> None ->
    cachedPlugins st0 = [] -> notifications st0 = notifications st ->
    exists ready built,
      client ready = true
      /\ defaultRegistry ready <> None
      /\ cachedPlugins ready = []
      /\ availablePlugins ready = 0
      /\ notifications ready = notifications st ++ [PluginCacheSizeChanged 0]
      /\ cacheRegistries registries registries ready = (Resolved tt, built)
      /\ (modify (set_availablePlugins 0) ;;
          notify (PluginCacheSizeChanged 0) ;;
          cacheRegistries registries registries ;;
          notify CachingComplete) st0
         = (Resolved tt, log_notification CachingComplete built)).
  { intros st0 Hc Hd Hp Hn.
    destruct (cacheRegistries_run registries registries
                (log_notification (PluginCacheSizeChanged 0)
                   (set_availablePlugins 0 st0)) Hmethod (incl_refl _))
      as (built & events & asked & Hrun & _).
    exists (log_notification (PluginCacheSizeChanged 0)
              (set_availablePlugins 0 st0)), built.
    cbn [client defaultRegistry cachedPlugins availablePlugins notifications
         log_notification set_availablePlugins].
    rewrite Hn. repeat (split; [assumption || reflexivity|]).
    unfold bind at 1. unfold modify at 1. unfold bind at 1.
    unfold notify at 1. unfold modify at 1. unfold bind at 1.
    now rewrite Hrun. }
  unfold updateCache. unfold bind at 1. unfold gets at 1.
  rewrite Hclient. cbn [negb].
  unfold bind at 1. unfold modify at 1.
  unfold bind at 1. unfold bind at 1. unfold gets at 1.
  cbn [defaultRegistry set_cachedPlugins].
  destruct (defaultRegistry st) as [known|] eqn:Hknown.
  - unfold ret at 1. apply Hcycle; cbn; congruence.
  - unfold bind at 1.
    destruct (getDefaultRegistry_outcome (set_cachedPlugins [] st))
      as [(registry & Hrun & _ & _)|(message & _ & Hnot & _)].
    + cbn [defaultRegistry set_cachedPlugins] in Hrun. rewrite Hknown in Hrun.
      rewrite Hrun. unfold ret at 1. apply Hcycle; cbn; congruence.
    + exfalso. apply Hnot.
      destruct Havailable as [Hsome|Hsettings]; [congruence | now right].
Qed.

(** X20. With a client attached, a default registry at hand and no
    registry named [hasOwnProperty], a rebuild replaces the cache: what the
    cache held before has no influence on the outcome, every plugin in the
    new cache is marked as not built in, and the cache holds at most as many
    plugins as the registries listed. The client stays attached and the
    default registry is known afterwards. *)
Theorem updateCache_rebuilds_cache registries st :
  client st = true ->
  defaultRegistryAvailable st ->
  ownKey registries "hasOwnProperty" = false ->
  exists st',
    updateCache registries st = (Resolved tt, st')
    /\ Forall (fun p => builtIn p = false) (cachedPlugins st')
    /\ List.length (cachedPlugins st') <= availablePlugins st'
    /\ client st' = true
    /\ defaultRegistry st' <> None
    /\ forall old,
         updateCache registries (set_cachedPlugins old st)
         = updateCache registries st.
Proof.
  intros Hclient Havailable Hmethod.
  destruct (updateCache_run registries st Hclient Havailable Hmethod)
    as (ready & built & Hc & Hd & Hp & Ha & Hn & Hloop & Hrun).
  destruct (Progresses_cacheRegistries registries registries _ _ _ Hloop)
    as (Hc' & Hd' & added & events & Hp' & Hbuilt & _ & _ & Hcredit & _).
  exists (log_notification CachingComplete built).
  split; [exact Hrun|].
  cbn [cachedPlugins availablePlugins client defaultRegistry log_notification].
  rewrite Hp', Hp, Hc', Hd'. cbn [app].
  split; [exact Hbuilt|]. split; [lia|]. split; [exact Hc|].
  split; [exact Hd|]. intros old.
  assert (Hstart : forall st0,
            client st0 = true ->
            updateCache registries st0
            = (known <- gets defaultRegistry ;;
               match known with
               | None => getDefaultRegistry ;; ret tt
               | Some _ => ret tt
               end ;;
               modify (set_availablePlugins 0) ;;
               notify (PluginCacheSizeChanged 0) ;;
               cacheRegistries registries registries ;;
               notify CachingComplete) (set_cachedPlugins [] st0)).
  { intros st0 Hattached. unfold updateCache. unfold bind at 1.
    unfold gets at 1. rewrite Hattached. reflexivity. }
  rewrite (Hstart st Hclient), (Hstart (set_cachedPlugins old st) Hclient).
  reflexivity.
Qed.

(** X21. The notifications of a rebuild, with a client attached, a default
    registry at hand and no registry named [hasOwnProperty], count up: the
    cache sizes told by [notifyPluginCached] are 1, 2, ... up to the size of
    the new cache, none left out; the totals told by
    [notifyPluginCacheSizeChanged] start at 0 and never decrease, and the
    last total is at least the size of the new cache. *)
Theorem updateCache_counts_up registries st :
  client st = true ->
  defaultRegistryAvailable st ->
  ownKey registries "hasOwnProperty" = false ->
  exists st' events later,
    updateCache registries st = (Resolved tt, st')
    /\ notifications st' = notifications st ++ events
    /\ cachedSizes events = seq 1 (List.length (cachedPlugins st'))
    /\ announcedTotals events = 0 :: later
    /\ StronglySorted le (announcedTotals events)
    /\ List.length (cachedPlugins st') <= last (announcedTotals events) 0.
Proof.
  intros Hclient Havailable Hmethod.
  destruct (updateCache_run registries st Hclient Havailable Hmethod)
    as (ready & built & Hc & Hd & Hp & Ha & Hn & Hloop & Hrun).
  destruct (Progresses_cacheRegistries registries registries _ _ _ Hloop)
    as (_ & _ & added & events & Hp' & _ & Hn' & Hsizes & Hcredit
        & Hbounds & Hsorted & Hlast).
  exists (log_notification CachingComplete built),
         (PluginCacheSizeChanged 0 :: events ++ [CachingComplete]),
         (announcedTotals events).
  split; [exact Hrun|].
  cbn [cachedPlugins notifications log_notification].
  assert (Hsizes' : cachedSizes (PluginCacheSizeChanged 0
                                  :: events ++ [CachingComplete])
                    = cachedSizes events).
  { unfold cachedSizes. cbn [flat_map app]. rewrite flat_map_app.
    cbn [flat_map]. now rewrite !app_nil_r. }
  assert (Htotals' : announcedTotals (PluginCacheSizeChanged 0
                                      :: events ++ [CachingComplete])
                     = 0 :: announcedTotals events).
  { unfold announcedTotals. cbn [flat_map app]. rewrite flat_map_app.
    cbn [flat_map]. now rewrite !app_nil_r. }
  rewrite Hsizes', Htotals', Hn', Hn, Hp', Hp, Hsizes, Hp. cbn [app List.length].
  split; [now rewrite <- !List.app_assoc|]. split; [reflexivity|].
  split; [reflexivity|]. split.
  - constructor; [exact Hsorted|].
    eapply Forall_impl; [|exact Hbounds]. simpl. intros t Ht. lia.
  - rewrite last_cons, <- Ha, <- Hlast. lia.
Qed.

(** X22. The two ways [updateCache] ends early. Without a client it does
    nothing: the state, cache included, is as before. With a client but no
    default registry at hand it rejects with the string of
    [getDefaultRegistry], after the cache has been emptied and before any
    notification or request. *)
Theorem updateCache_early_exit registries st :
  (client st = false -> updateCache registries st = (Resolved tt, st))
  /\ (client st = true -> ~ defaultRegistryAvailable st ->
      exists message,
        getDefaultRegistry st = (Rejected (ThrownString message), st)
        /\ updateCache registries st
           = (Rejected (ThrownString message), set_cachedPlugins [] st)).
Proof.
  split.
  - intros Hclient. unfold updateCache, bind, gets. now rewrite Hclient.
  - intros Hclient Hnot.
    destruct (getDefaultRegistry_outcome st)
      as [(registry & _ & Havailable & _)|(message & Hrej & _ & Hnone)];
      [contradiction|].
    exists message. split; [exact Hrej|].
    assert (Hrej' : getDefaultRegistry (set_cachedPlugins [] st)
                    = (Rejected (ThrownString message),
                       set_cachedPlugins [] st)).
    { destruct (getDefaultRegistry_outcome (set_cachedPlugins [] st))
        as [(registry & _ & Havailable & _)|(message' & Hrej' & _ & _)];
        [contradiction|].
      assert (Hsame : fst (getDefaultRegistry (set_cachedPlugins [] st))
                      = fst (getDefaultRegistry st)).
      { unfold getDefaultRegistry, bind, gets.
        cbn [defaultRegistry set_cachedPlugins]. rewrite Hnone.
        destruct getWorkspaceSettings as [[settings|]|error]; try reflexivity.
        destruct (if Js.truthy (settings PLUGIN_REGISTRY_INTERNAL_URL)
                  then settings PLUGIN_REGISTRY_INTERNAL_URL
                  else settings PLUGIN_REGISTRY_URL);
          destruct (settings PLUGIN_REGISTRY_URL); reflexivity. }
      rewrite Hrej', Hrej in Hsame. cbn [fst] in Hsame.
      now rewrite Hrej', Hsame. }
    unfold updateCache. unfold bind at 1. unfold gets at 1.
    rewrite Hclient. cbn [negb].
    unfold bind at 1. unfold modify at 1.
    unfold bind at 1. unfold bind at 1. unfold gets at 1.
    cbn [defaultRegistry set_cachedPlugins]. rewrite Hnone.
    unfold bind at 1. now rewrite Hrej'.
Qed.

Lemma loadPluginList_run registry st :
  loadPluginList registry st
  = (match http_get (requests st) (uri registry ++ "/plugins/")%string with
     | Resolved content =>
         JSON_parse (if Js.truthy content
                     then match content with Some c => c | None => "{}"%string end
                     else "{}"%string)
     | Rejected error => Rejected error
     end,
     log_request (uri registry ++ "/plugins/")%string st).
Proof.
  unfold loadPluginList, bind, httpGet, liftResult.
  now destruct (http_get (requests st) (uri registry ++ "/plugins/")%string).
Qed.

(** X23. A registry whose index cannot be used is reported once and costs
    one request: whether the request fails, the body is not JSON, or the
    body is JSON but not an array, [cacheRegistry] resolves after the
    request for [{uri}/plugins/] and the notification [invalidRegistryFound],
    with the cache and the counter of available plugins untouched. A missing
    or empty body is read as [{}]. *)
Theorem cacheRegistry_unusable_index registry st :
  ((forall items,
      fst (loadPluginList registry st) <> Resolved (IndexArray items)) ->
   cacheRegistry registry st
   = (Resolved tt,
      log_notification (InvalidRegistryFound registry)
        (log_request (uri registry ++ "/plugins/")%string st)))
  /\ (forall content,
        http_get (requests st) (uri registry ++ "/plugins/")%string
        = Resolved content ->
        Js.truthy content = false ->
        fst (loadPluginList registry st) = JSON_parse "{}"%string).
Proof.
  split.
  - intros Hunusable. unfold cacheRegistry, try_catch. unfold bind at 1.
    rewrite loadPluginList_run in *. cbn [fst] in Hunusable.
    destruct (match http_get (requests st) (uri registry ++ "/plugins/")%string
              with
              | Resolved content => _
              | Rejected error => Rejected error
              end) as [[|items]|error]; try reflexivity.
    exfalso. now apply (Hunusable items).
  - intros content Hget Hfalsy. rewrite loadPluginList_run, Hget, Hfalsy.
    reflexivity.
Qed.

Lemma loadPluginMetadata_fields yamlURI longKeyFormat pluginRegistryURI
  st r st' :
  loadPluginMetadata yamlURI longKeyFormat pluginRegistryURI st = (r, st') ->
  client st' = client st /\ defaultRegistry st' = defaultRegistry st
  /\ cachedPlugins st' = cachedPlugins st
  /\ availablePlugins st' = availablePlugins st
  /\ notifications st' = notifications st.
Proof.
  unfold loadPluginMetadata, loadPluginYaml, try_catch, bind, ret, throw.
  rewrite fetchYaml_run.
  destruct (parsedAt (requests st) yamlURI) as [[props|]|error].
  - destruct (yaml_icon props);
      intros Hrun; inversion Hrun; subst; now repeat split.
  - intros Hrun. inversion Hrun; subst. now repeat split.
  - rewrite fetchYaml_run.
    destruct (parsedAt _ (metaYamlOf yamlURI)) as [[props|]|error'];
      [destruct (yaml_icon props)| |];
      intros Hrun; inversion Hrun; subst; now repeat split.
Qed.

Lemma cachePlugin_reports registry longKeyFormat metadataInternal st u :
  getPluginYamlURI (defaultRegistry st) registry metadataInternal = Resolved u ->
  exists st' n,
    cachePlugin registry longKeyFormat metadataInternal st = (Resolved tt, st')
    /\ notifications st' = notifications st ++ [n]
    /\ (n = InvalidPluginFound u \/ exists size, n = PluginCached size)
    /\ defaultRegistry st' = defaultRegistry st.
Proof.
  intros Haddress. unfold cachePlugin. unfold bind at 1. unfold gets at 1.
  unfold bind at 1. unfold liftResult. rewrite Haddress.
  unfold try_catch. unfold bind at 1.
  destruct (loadPluginMetadata u longKeyFormat (publicUri registry) st)
    as [[md|error] st1] eqn:Hload;
    destruct (loadPluginMetadata_fields _ _ _ _ _ _ Hload)
      as (_ & Hd & _ & _ & Hn).
  - eexists. eexists. split; [reflexivity|].
    cbn [notifications defaultRegistry log_notification set_cachedPlugins].
    rewrite Hn, Hd. split; [reflexivity|]. split; [right; eauto | reflexivity].
  - eexists. eexists. split; [reflexivity|].
    cbn [notifications defaultRegistry log_notification].
    rewrite Hn, Hd. split; [reflexivity|]. split; [now left | reflexivity].
Qed.

(** X24. One bad plugin does not stop a registry, one bad address does. When
    the address of every listed plugin can be computed, [cachePlugins]
    resolves and tells the client exactly one thing per plugin, in order:
    the new cache size, or that the plugin is invalid. When the address of
    a plugin cannot be computed, the loop rejects there, with the service
    unchanged by that turn and the plugins after it neither fetched nor
    reported. *)
Theorem cachePlugins_reports_each registry longKeyFormat registryPlugins st :
  ((forall metadataInternal,
      In metadataInternal registryPlugins ->
      exists u, getPluginYamlURI (defaultRegistry st) registry metadataInternal
                = Resolved u) ->
   exists st' events,
     cachePlugins registry longKeyFormat registryPlugins st = (Resolved tt, st')
     /\ notifications st' = notifications st ++ events
     /\ List.length events = List.length registryPlugins
     /\ Forall (fun n => (exists u, n = InvalidPluginFound u)
                         \/ exists size, n = PluginCached size) events)
  /\ (forall metadataInternal error,
        getPluginYamlURI (defaultRegistry st) registry metadataInternal
        = Rejected error ->
        cachePlugins registry longKeyFormat
          (metadataInternal :: registryPlugins) st
        = (Rejected error, st)).
Proof.
  split.
  - revert st. induction registryPlugins as [|metadataInternal rest IH];
      intros st Haddresses; cbn [cachePlugins].
    + exists st, []. rewrite app_nil_r. repeat split. constructor.
    + destruct (Haddresses metadataInternal (or_introl eq_refl)) as [u Hu].
      destruct (cachePlugin_reports registry longKeyFormat _ st u Hu)
        as (st1 & n & Hrun & Hn & Hkind & Hd).
      unfold bind. rewrite Hrun.
      destruct (IH st1) as (st' & events & Hrest & Hn' & Hlen & Hall).
      { intros s Hin. rewrite Hd. apply Haddresses. now right. }
      exists st', (n :: events). split; [exact Hrest|].
      split; [rewrite Hn', Hn, <- List.app_assoc; reflexivity|].
      split; [simpl; now rewrite Hlen|].
      constructor; [|exact Hall].
      destruct Hkind as [->|[size ->]]; [left | right]; eauto.
  - intros metadataInternal error Haddress. cbn [cachePlugins].
    unfold bind at 1. unfold cachePlugin. unfold bind at 1. unfold gets at 1.
    unfold bind at 1. unfold liftResult. now rewrite Haddress.
Qed.

End CacheBuilderMore.

Lemma updateCache_rebuilds_cache_witness :
  exists st',
    @updateCache Sample.http Sample.settings Sample.parsers
      Sample.registries Sample.attached
    = (Resolved tt, st')
    /\ Forall (fun p => builtIn p = false) (cachedPlugins st')
    /\ List.length (cachedPlugins st') <= availablePlugins st'
    /\ client st' = true
    /\ defaultRegistry st' <> None
    /\ forall old,
         @updateCache Sample.http Sample.settings Sample.parsers
           Sample.registries (set_cachedPlugins old Sample.attached)
         = @updateCache Sample.http Sample.settings Sample.parsers
             Sample.registries Sample.attached.
Proof.
  apply (@updateCache_rebuilds_cache Sample.http Sample.settings Sample.parsers
           Sample.registries Sample.attached).
  - reflexivity.
  - right. eexists. exists "http://pub/a/". split; reflexivity.
  - reflexivity.
Defined.

Lemma updateCache_counts_up_witness :
  exists st' events later,
    @updateCache Sample.http Sample.settings Sample.parsers
      Sample.registries Sample.attached
    = (Resolved tt, st')
    /\ notifications st' = (notifications Sample.attached ++ events)%list
    /\ cachedSizes events = seq 1 (List.length (cachedPlugins st'))
    /\ announcedTotals events = 0 :: later
    /\ StronglySorted le (announcedTotals events)
    /\ List.length (cachedPlugins st') <= last (announcedTotals events) 0.
Proof.
  apply (@updateCache_counts_up Sample.http Sample.settings Sample.parsers
           Sample.registries Sample.attached).
  - reflexivity.
  - right. eexists. exists "http://pub/a/". split; reflexivity.
  - reflexivity.
Defined.

Lemma updateCache_early_exit_witness :
  @updateCache Sample.http Sample.settings Sample.parsers Sample.registries
    (disconnectClient Deployment.resolved)
  = (Resolved tt, disconnectClient Deployment.resolved)
  /\ exists message,
       @getDefaultRegistry Sample.noSettings Sample.parsers Sample.attached
       = (Rejected (ThrownString message), Sample.attached)
       /\ @updateCache Sample.http Sample.noSettings Sample.parsers
            Sample.registries Sample.attached
          = (Rejected (ThrownString message),
             set_cachedPlugins [] Sample.attached).
Proof.
  split.
  - apply (proj1 (@updateCache_early_exit Sample.http Sample.settings
                    Sample.parsers Sample.registries
                    (disconnectClient Deployment.resolved))).
    reflexivity.
  - apply (proj2 (@updateCache_early_exit Sample.http Sample.noSettings
                    Sample.parsers Sample.registries Sample.attached)).
    + reflexivity.
    + intros [Hknown|(settings & publicUri & Hsettings & _)].
      * now apply Hknown.
      * discriminate Hsettings.
Defined.

Lemma cacheRegistry_unusable_index_witness :
  @cacheRegistry Sample.http Sample.parsers Sample.regB Deployment.resolved
  = (Resolved tt,
     log_notification (InvalidRegistryFound Sample.regB)
       (log_request "http://reg/b/plugins/" Deployment.resolved)).
Proof.
  apply (proj1 (@cacheRegistry_unusable_index Sample.http Sample.parsers
                  Sample.regB Deployment.resolved)).
  intros items. discriminate.
Defined.

Lemma cachePlugins_reports_each_witness :
  exists st' events,
    @cachePlugins Sample.http Sample.parsers Sample.regB true
      [Deployment.summaryB; Deployment.broken] Deployment.resolved
    = (Resolved tt, st')
    /\ notifications st' = (notifications Deployment.resolved ++ events)%list
    /\ List.length events = 2
    /\ Forall (fun n => (exists u, n = InvalidPluginFound u)
                        \/ exists size, n = PluginCached size) events.
Proof.
  apply (proj1 (@cachePlugins_reports_each Sample.http Sample.parsers
                  Sample.regB true [Deployment.summaryB; Deployment.broken]
                  Deployment.resolved)).
  intros metadataInternal [<-|[<-|[]]]; eexists; reflexivity.
Defined.

(** What the two plugins of that registry make of the cache. *)
Example cachePlugins_sample :
  notifications
    (snd (@cachePlugins Sample.http Sample.parsers Sample.regB true
            [Deployment.broken; Deployment.summaryB] Deployment.resolved))
  = [InvalidPluginFound "http://reg/b//pub/gone/1.0/meta.yaml";
     PluginCached 1].
Proof. reflexivity. Qed.

(* ================================================================= *)
(** ** Plugin query service: what is returned *)

(** X25. [getPlugins] returns every plugin that is not a [Che Editor] and
    that is in the cache, for an empty filter, or in what the filter makes
    of the cache, for any other filter, and nothing else; the filter is not
    consulted for an empty expression. *)
Theorem getPlugins_returns `{PluginFilter}
  (cachedPlugins : list ChePluginMetadata) (filter : string)
  (plugin : ChePluginMetadata) :
  (filter = "" ->
   (In plugin (getPlugins cachedPlugins filter) <->
    In plugin cachedPlugins /\ type plugin <> "Che Editor"))
  /\ (filter <> "" ->
      (In plugin (getPlugins cachedPlugins filter) <->
       In plugin (filterPlugins cachedPlugins filter)
       /\ type plugin <> "Che Editor")).
Proof.
  assert (Hkept : forall plugins,
            In plugin (squeezeOutEditors plugins filter)
            <-> In plugin plugins /\ type plugin <> "Che Editor").
  { intros plugins. unfold squeezeOutEditors.
    rewrite filter_In, negb_true_iff, String.eqb_neq.
    intuition congruence. }
  unfold getPlugins. split.
  - intros Hfilter. rewrite Hfilter in *.
    change (Js.truthy (Some "")) with false. cbv iota. apply Hkept.
  - intros Hfilter. apply JsFacts.truthy_Some in Hfilter. rewrite Hfilter.
    apply Hkept.
Qed.

Lemma getPlugins_returns_witness :
  In Sample.doc (@getPlugins Sample.noFilter [Sample.doc] "")
  <-> In Sample.doc [Sample.doc] /\ type Sample.doc <> "Che Editor".
Proof.
  apply (proj1 (@getPlugins_returns Sample.noFilter [Sample.doc] ""
                  Sample.doc)).
  reflexivity.
Defined.

(* ================================================================= *)
(** ** Key normalizer: what [normalizeId] removes *)

(** X26. [normalizeId] returns a prefix of the reference: the reference
    itself, or, for a reference that starts with [http://] or [https://],
    the reference without one trailing [/meta.yaml]. It never makes a
    reference empty. *)
Theorem normalizeId_removes_suffix (id : string) :
  (normalizeId id = id
   \/ isAbsoluteUrl id = true /\ id = normalizeId id ++ "/meta.yaml")
  /\ (isAbsoluteUrl id = false -> normalizeId id = id)
  /\ (id <> "" -> normalizeId id <> "").
Proof.
  split; [|split].
  - unfold normalizeId.
    destruct (isAbsoluteUrl id && Js.endsWith id meta_yaml) eqn:Hstrip;
      [|now left].
    right. apply andb_true_iff in Hstrip. destruct Hstrip as [Habs Hends].
    split; [exact Habs|].
    apply JsFacts.endsWith_iff in Hends. destruct Hends as [pre ->].
    now rewrite JsFacts.substring_cut.
  - apply normalizeId_relative.
  - apply normalizeId_nonempty.
Qed.

Lemma normalizeId_removes_suffix_witness :
  normalizeId "pub/pl/1.0/meta.yaml" = "pub/pl/1.0/meta.yaml"
  /\ normalizeId "https://x/y/meta.yaml" <> "".
Proof.
  split.
  - apply (proj1 (proj2 (normalizeId_removes_suffix "pub/pl/1.0/meta.yaml"))).
    reflexivity.
  - apply (proj2 (proj2 (normalizeId_removes_suffix "https://x/y/meta.yaml"))).
    discriminate.
Defined.
